(** * OpenClaw Observatory collector: a shallow embedding and its properties

    The development follows [tools/openclaw-observatory/collector.mjs].
    JavaScript numbers are idealised as exact rationals ([Q]); every
    quantity the collector handles (token counts, costs, millisecond
    timestamps and durations) is a finite number, and the arithmetic used
    on them is [+], [-], [*], [/], comparison, [Math.max], [Math.min] and
    [Math.floor].  Numeric results are compared with [==] on [Q].  The
    collector computes in binary64, where sums and quotients of fractions
    are rounded: what is proved of an average or of a sum of costs is
    proved of the exact value.

    JavaScript [Map]s iterate in insertion order and the rankings are
    produced by the stable [Array.prototype.sort], so maps are association
    lists kept in insertion order. *)

From Stdlib Require Import QArith Qround Qminmax ZArith List String Ascii Bool.
From Stdlib Require Import Lia Lqa Permutation Sorted.
From Stdlib Require Import DecimalString.
From Stdlib Require OrderedTypeEx.
Import ListNotations.

Set Warnings "-register-all".

Local Open Scope string_scope.
Local Open Scope list_scope.
Local Open Scope Q_scope.

(** ** JavaScript values as decoded by [JSON.parse] *)

Inductive Json : Type :=
| JNull
| JBool (b : bool)
| JNum (q : Q)
| JStr (s : string)
| JArr (items : list Json)
| JObj (fields : list (string * Json)).

(** [undefined] is [None]; a decoded value is [Some v]. *)
Definition JsValue := option Json.

Fixpoint assoc {V : Type} (k : string) (m : list (string * V)) : option V :=
  match m with
  | [] => None
  | (k', v) :: m' => if String.eqb k k' then Some v else assoc k m'
  end.

(** Property access [o.k] / [o?.k]: anything but an object has no such
    property. *)
Definition prop (o : JsValue) (k : string) : JsValue :=
  match o with
  | Some (JObj fields) => assoc k fields
  | _ => None
  end.

Notation "o '.[' k ']'" := (prop o k) (at level 1, format "o .[ k ]").

(** [a ?? b]: [null] and [undefined] are both nullish. *)
Definition nullish (a b : JsValue) : JsValue :=
  match a with
  | None | Some JNull => b
  | _ => a
  end.

(** [??] on values that are either a number or [undefined]. *)
Definition orElse {A : Type} (a b : option A) : option A :=
  match a with
  | Some _ => a
  | None => b
  end.

Definition getOr {A : Type} (a : option A) (d : A) : A :=
  match a with
  | Some v => v
  | None => d
  end.

Infix "<|>" := orElse (at level 51, right associativity).

Definition toFinite (value : JsValue) : option Q :=
  match value with
  | Some (JNum q) => Some q
  | _ => None
  end.

Definition asRecord (value : JsValue) : JsValue :=
  match value with
  | Some (JObj fields) => Some (JObj fields)
  | _ => None
  end.

Definition asString (value : JsValue) : option string :=
  match value with
  | Some (JStr s) => Some s
  | _ => None
  end.

(** [Math.max] and [Math.min] on two finite numbers. *)
Definition Math_max (a b : Q) : Q := if Qle_bool a b then b else a.
Definition Math_min (a b : Q) : Q := if Qle_bool a b then a else b.

(** [Math.floor], and the truncation of an array index. *)
Definition Math_floor (a : Q) : Z := Qfloor a.

(** ** [Array.prototype.sort] with a comparator

    The sort is stable; an element [x] is placed before [y] when the
    comparator does not return a positive number for [(x, y)]. *)

Section ArraySort.
Context {A : Type}.
Variable cmp : A -> A -> Q.

Fixpoint sort_insert (x : A) (l : list A) : list A :=
  match l with
  | [] => [x]
  | y :: l' => if Qle_bool (cmp x y) 0 then x :: y :: l' else y :: sort_insert x l'
  end.

Definition Array_sort (l : list A) : list A := fold_right sort_insert [] l.

Definition before (x y : A) : Prop := cmp x y <= 0.
End ArraySort.

(** ** Usage tuples *)

Record Usage : Type := mkUsage {
  u_input : Q;
  u_output : Q;
  u_cacheRead : Q;
  u_cacheWrite : Q;
  u_total : Q
}.

Definition usageInput (record : JsValue) : Q :=
  getOr (toFinite record.["input"] <|> toFinite record.["inputTokens"]
         <|> toFinite record.["prompt_tokens"] <|> toFinite record.["promptTokens"]) 0.

Definition usageOutput (record : JsValue) : Q :=
  getOr (toFinite record.["output"] <|> toFinite record.["outputTokens"]
         <|> toFinite record.["completion_tokens"] <|> toFinite record.["completionTokens"]) 0.

Definition usageCacheRead (record : JsValue) : Q :=
  getOr (toFinite record.["cacheRead"] <|> toFinite record.["cache_read_input_tokens"]
         <|> toFinite record.["cacheReadInputTokens"]) 0.

Definition usageCacheWrite (record : JsValue) : Q :=
  getOr (toFinite record.["cacheWrite"] <|> toFinite record.["cache_creation_input_tokens"]
         <|> toFinite record.["cacheWriteInputTokens"]) 0.

(** The total the source record supplies on its own, if any. *)
Definition usageSuppliedTotal (record : JsValue) : option Q :=
  toFinite record.["total"] <|> toFinite record.["totalTokens"]
  <|> toFinite record.["total_tokens"].

Definition usageTotal (record : JsValue) : Q :=
  getOr (usageSuppliedTotal record)
        (usageInput record + usageOutput record + usageCacheRead record
         + usageCacheWrite record).

Definition normalizeUsage (raw : JsValue) : option Usage :=
  match asRecord raw with
  | None => None
  | Some _ =>
    let record := asRecord raw in
    let input := usageInput record in
    let output := usageOutput record in
    let cacheRead := usageCacheRead record in
    let cacheWrite := usageCacheWrite record in
    let total := usageTotal record in
    if Qle_bool total 0 && Qle_bool input 0 && Qle_bool output 0
       && Qle_bool cacheRead 0 && Qle_bool cacheWrite 0
    then None
    else Some {| u_input := Math_max 0 input;
                 u_output := Math_max 0 output;
                 u_cacheRead := Math_max 0 cacheRead;
                 u_cacheWrite := Math_max 0 cacheWrite;
                 u_total := Math_max 0 total |}
  end.

Definition usageParts (u : Usage) : Q :=
  u_input u + u_output u + u_cacheRead u + u_cacheWrite u.

(** ** Latency statistics *)

Record LatencyStats : Type := mkLatency {
  l_count : nat;
  l_avgMs : Q;
  l_p95Ms : Q;
  l_minMs : Q;
  l_maxMs : Q
}.

Definition numAsc (a b : Q) : Q := a - b.

Definition sumQ (l : list Q) : Q := fold_left Qplus l 0.

Definition lenQ {A : Type} (l : list A) : Q := inject_Z (Z.of_nat (List.length l)).

Definition p95Index (n : nat) : nat :=
  Nat.min (n - 1) (Z.to_nat (Math_floor (inject_Z (Z.of_nat n) * 0.95))).

Definition computeLatencyStats (values : list Q) : option LatencyStats :=
  match values with
  | [] => None
  | _ =>
    let sorted := Array_sort numAsc values in
    let count := List.length sorted in
    let sum := sumQ sorted in
    Some {| l_count := count;
            l_avgMs := sum / lenQ sorted;
            l_p95Ms := nth (p95Index (List.length sorted)) sorted 0;
            l_minMs := nth 0 sorted 0;
            l_maxMs := nth (List.length sorted - 1) sorted 0 |}
  end.

(** ** Strings

    A string is a sequence of code units; the builtins below are given on
    the ASCII range, which is where the collector's own literals live. *)

Definition isWhite (c : ascii) : bool :=
  let n := nat_of_ascii c in
  ((n =? 32) || (n =? 9) || (n =? 10) || (n =? 11) || (n =? 12) || (n =? 13))%nat.

Fixpoint dropWhite (l : list ascii) : list ascii :=
  match l with
  | [] => []
  | c :: l' => if isWhite c then dropWhite l' else l
  end.

Definition String_trim (s : string) : string :=
  string_of_list_ascii
    (rev (dropWhite (rev (dropWhite (list_ascii_of_string s))))).

Definition lowerAscii (c : ascii) : ascii :=
  let n := nat_of_ascii c in
  if ((65 <=? n) && (n <=? 90))%nat then ascii_of_nat (n + 32) else c.

Definition String_toLowerCase (s : string) : string :=
  string_of_list_ascii (map lowerAscii (list_ascii_of_string s)).

Definition isEmpty (s : string) : bool :=
  match s with
  | EmptyString => true
  | _ => false
  end.

(** [a.localeCompare(b)] on day keys: digits and hyphens collate in code
    unit order. *)
Definition localeCompare (a b : string) : Q :=
  match String.compare a b with
  | Lt => -1
  | Eq => 0
  | Gt => 1
  end.

Definition String_ofZ (z : Z) : string := NilZero.string_of_int (Z.to_int z).

Definition padStart2 (s : string) : string :=
  match String.length s with
  | O => "00"
  | S O => ("0" ++ s)%string
  | _ => s
  end.

Definition ellipsis : string :=
  String (ascii_of_nat 226) (String (ascii_of_nat 128) (String (ascii_of_nat 166) "")).

Definition trimSnippet (value : string) (max : nat) : string :=
  if isEmpty value then ""
  else if (String.length value <=? max)%nat then value
  else (substring 0 (max - 1) value ++ ellipsis)%string.

Fixpoint joinWith (sep : string) (chunks : list string) : string :=
  match chunks with
  | [] => ""
  | [c] => c
  | c :: rest => (c ++ sep ++ joinWith sep rest)%string
  end.

Definition isType (block : JsValue) (name : string) : bool :=
  match block.["type"] with
  | Some (JStr s) => String.eqb s name
  | _ => false
  end.

Definition textChunk (part : Json) : list string :=
  match part with
  | JStr s => if isEmpty (String_trim s) then [] else [String_trim s]
  | JObj _ =>
    let block := Some part in
    if isType block "text" && match block.["text"] with Some (JStr _) => true | _ => false end
    then
      let text := String_trim (getOr (asString block.["text"]) "") in
      if isEmpty text then [] else [text]
    else if isType block "tool_use"
    then [("[tool:" ++ getOr (asString block.["name"]) "tool" ++ "]")%string]
    else if isType block "tool_result" then ["[tool_result]"]
    else []
  | _ => []
  end.

Definition extractText (content : JsValue) : string :=
  match content with
  | Some (JStr s) => String_trim s
  | Some (JArr parts) => String_trim (joinWith " " (flat_map textChunk parts))
  | _ => ""
  end.

(** ** Running totals *)

Record Totals : Type := mkTotals {
  t_input : Q;
  t_output : Q;
  t_cacheRead : Q;
  t_cacheWrite : Q;
  totalTokens : Q;
  totalCost : Q;
  inputCost : Q;
  outputCost : Q;
  cacheReadCost : Q;
  cacheWriteCost : Q;
  missingCostEntries : nat
}.

Definition createTotals : Totals :=
  mkTotals 0 0 0 0 0 0 0 0 0 0 0%nat.

Definition mergeTotals (target source : Totals) : Totals :=
  {| t_input := t_input target + t_input source;
     t_output := t_output target + t_output source;
     t_cacheRead := t_cacheRead target + t_cacheRead source;
     t_cacheWrite := t_cacheWrite target + t_cacheWrite source;
     totalTokens := totalTokens target + totalTokens source;
     totalCost := totalCost target + totalCost source;
     inputCost := inputCost target + inputCost source;
     outputCost := outputCost target + outputCost source;
     cacheReadCost := cacheReadCost target + cacheReadCost source;
     cacheWriteCost := cacheWriteCost target + cacheWriteCost source;
     missingCostEntries := (missingCostEntries target + missingCostEntries source)%nat |}.

Definition applyUsageTotals (totals : Totals) (usage : Usage) : Totals :=
  {| t_input := t_input totals + u_input usage;
     t_output := t_output totals + u_output usage;
     t_cacheRead := t_cacheRead totals + u_cacheRead usage;
     t_cacheWrite := t_cacheWrite totals + u_cacheWrite usage;
     totalTokens := totalTokens totals + u_total usage;
     totalCost := totalCost totals;
     inputCost := inputCost totals;
     outputCost := outputCost totals;
     cacheReadCost := cacheReadCost totals;
     cacheWriteCost := cacheWriteCost totals;
     missingCostEntries := missingCostEntries totals |}.

Record CostBreakdown : Type := mkBreakdown {
  c_total : Q;
  c_input : option Q;
  c_output : option Q;
  c_cacheRead : option Q;
  c_cacheWrite : option Q
}.

Definition extractCostBreakdown (usageRaw : JsValue) : option CostBreakdown :=
  let usage := asRecord usageRaw in
  let cost := asRecord usage.["cost"] in
  match cost with
  | None => None
  | Some _ =>
    match toFinite cost.["total"] with
    | None => None
    | Some total =>
      if Qle_bool 0 total
      then Some {| c_total := total;
                   c_input := toFinite cost.["input"];
                   c_output := toFinite cost.["output"];
                   c_cacheRead := toFinite cost.["cacheRead"];
                   c_cacheWrite := toFinite cost.["cacheWrite"] |}
      else None
    end
  end.

(** [x += v] guarded by [v !== undefined]. *)
Definition addIfDefined (x : Q) (v : option Q) : Q :=
  match v with
  | Some q => x + q
  | None => x
  end.

Definition applyCostBreakdown (totals : Totals) (breakdown : CostBreakdown) : Totals :=
  {| t_input := t_input totals;
     t_output := t_output totals;
     t_cacheRead := t_cacheRead totals;
     t_cacheWrite := t_cacheWrite totals;
     totalTokens := totalTokens totals;
     totalCost := totalCost totals + c_total breakdown;
     inputCost := addIfDefined (inputCost totals) (c_input breakdown);
     outputCost := addIfDefined (outputCost totals) (c_output breakdown);
     cacheReadCost := addIfDefined (cacheReadCost totals) (c_cacheRead breakdown);
     cacheWriteCost := addIfDefined (cacheWriteCost totals) (c_cacheWrite breakdown);
     missingCostEntries := missingCostEntries totals |}.

Definition withTotalCost (totals : Totals) (cost : Q) : Totals :=
  {| t_input := t_input totals;
     t_output := t_output totals;
     t_cacheRead := t_cacheRead totals;
     t_cacheWrite := t_cacheWrite totals;
     totalTokens := totalTokens totals;
     totalCost := cost;
     inputCost := inputCost totals;
     outputCost := outputCost totals;
     cacheReadCost := cacheReadCost totals;
     cacheWriteCost := cacheWriteCost totals;
     missingCostEntries := missingCostEntries totals |}.

Definition withMissingCostEntries (totals : Totals) (n : nat) : Totals :=
  {| t_input := t_input totals;
     t_output := t_output totals;
     t_cacheRead := t_cacheRead totals;
     t_cacheWrite := t_cacheWrite totals;
     totalTokens := totalTokens totals;
     totalCost := totalCost totals;
     inputCost := inputCost totals;
     outputCost := outputCost totals;
     cacheReadCost := cacheReadCost totals;
     cacheWriteCost := cacheWriteCost totals;
     missingCostEntries := n |}.

Definition applyCostTotal (totals : Totals) (total : option Q) : Totals :=
  match total with
  | Some t =>
    if Qle_bool 0 t
    then withTotalCost totals (totalCost totals + t)
    else withMissingCostEntries totals (missingCostEntries totals + 1)
  | None => withMissingCostEntries totals (missingCostEntries totals + 1)
  end.

Definition sortByCostThenTokens (a b : Totals) : Q :=
  let cost := totalCost b - totalCost a in
  if negb (Qeq_bool cost 0) then cost else totalTokens b - totalTokens a.

(** ** Insertion-ordered maps ([Map] and [Set]) *)

Fixpoint mapSet {V : Type} (k : string) (v : V) (m : list (string * V)) : list (string * V) :=
  match m with
  | [] => [(k, v)]
  | (k', v') :: m' =>
    if String.eqb k k' then (k', v) :: m' else (k', v') :: mapSet k v m'
  end.

Definition mapValues {V : Type} (m : list (string * V)) : list V := map snd m.

Fixpoint setHas (k : string) (s : list string) : bool :=
  match s with
  | [] => false
  | k' :: s' => String.eqb k k' || setHas k s'
  end.

Definition setAdd (k : string) (s : list string) : list string :=
  if setHas k s then s else s ++ [k].

Definition setOfList (l : list string) : list string :=
  fold_left (fun s k => setAdd k s) l [].

(** ** Records of a session summary *)

Inductive Role : Type := user | assistant | tool | toolResult.

Definition Role_eqb (a b : Role) : bool :=
  match a, b with
  | user, user | assistant, assistant | tool, tool | toolResult, toolResult => true
  | _, _ => false
  end.

Record MessageCounts : Type := mkCounts {
  m_total : nat;
  m_user : nat;
  m_assistant : nat;
  m_toolCalls : nat;
  m_toolResults : nat;
  m_errors : nat
}.

Record DayBucket : Type := mkDay {
  d_date : string;
  d_tokens : Q;
  d_cost : Q;
  d_messages : nat;
  d_toolCalls : nat;
  d_errors : nat
}.

Record ModelBucket : Type := mkModelBucket {
  mb_provider : option string;
  mb_model : option string;
  mb_count : nat;
  mb_totals : Totals
}.

Record TimelineEvent : Type := mkEvent {
  e_timestamp : Q;
  e_role : Role;
  e_provider : option string;
  e_model : option string;
  e_tokens : Q;
  e_inputTokens : Q;
  e_outputTokens : Q;
  e_cost : option Q;
  e_durationMs : option Q;
  e_toolCalls : nat;
  e_toolResults : nat;
  e_isError : bool;
  e_stopReason : option string;
  e_text : string
}.

Record WaterfallSpan : Type := mkSpan {
  w_startTs : Q;
  w_endTs : Q;
  w_latencyMs : Q;
  w_provider : option string;
  w_model : option string;
  w_tokens : Q;
  w_cost : option Q;
  w_error : bool
}.

Record PreviewItem : Type := mkPreview {
  p_timestamp : option Q;
  p_role : Role;
  p_text : string
}.

Record ToolDetails : Type := mkTools {
  names : list string;
  results : nat;
  errors : nat
}.

Definition STOP_REASON_ERRORS : list string := ["error"; "aborted"; "cancelled"; "timeout"].

Definition roleOf (message : JsValue) : option Role :=
  match message.["role"] with
  | Some (JStr s) =>
    if String.eqb s "user" then Some user
    else if String.eqb s "assistant" then Some assistant
    else if String.eqb s "tool" then Some tool
    else if String.eqb s "toolResult" then Some toolResult
    else None
  | _ => None
  end.

Definition roleIs (message : JsValue) (name : string) : bool :=
  match message.["role"] with
  | Some (JStr s) => String.eqb s name
  | _ => false
  end.

(** One content block of [extractToolDetails]'s loop. *)
Definition toolBlock (acc : ToolDetails) (part : Json) : ToolDetails :=
  match asRecord (Some part) with
  | None => acc
  | Some _ =>
    let block := Some part in
    let names1 :=
      if isType block "tool_use"
      then
        let name := match block.["name"] with
                    | Some (JStr s) => String_trim s
                    | _ => ""
                    end in
        if isEmpty name then names acc else names acc ++ [name]
      else names acc in
    if isType block "tool_result"
    then {| names := names1;
            results := results acc + 1;
            errors := match block.["is_error"] with
                      | Some (JBool true) => errors acc + 1
                      | _ => errors acc
                      end |}
    else {| names := names1; results := results acc; errors := errors acc |}
  end.

Definition extractToolDetails (message : JsValue) : ToolDetails :=
  let fromContent :=
    match message.["content"] with
    | Some (JArr content) => fold_left toolBlock content (mkTools [] 0 0)
    | _ => mkTools [] 0 0
    end in
  let names1 :=
    if roleIs message "tool"
    then
      let name := match message.["toolName"] with
                  | Some (JStr s) => s
                  | _ => match message.["name"] with
                         | Some (JStr s) => s
                         | _ => "tool"
                         end
                  end in
      names fromContent ++ [name]
    else names fromContent in
  {| names := names1;
     results := if roleIs message "toolResult"
                then results fromContent + 1 else results fromContent;
     errors := errors fromContent |}.

Definition modelKeyOf (provider model : option string) : string :=
  (getOr provider "unknown" ++ "::" ++ getOr model "unknown")%string.

(** The trailing time window; [startMs = None] is [Number.NEGATIVE_INFINITY]. *)
Record Range : Type := mkRange {
  startMs : option Q;
  endMs : Q
}.

Definition inWindow (range : Range) (ts : Q) : bool :=
  match startMs range with
  | None => true
  | Some s => Qle_bool s ts
  end && Qle_bool ts (endMs range).

Record ParseState : Type := mkState {
  st_totals : Totals;
  st_messageCounts : MessageCounts;
  st_toolMap : list (string * nat);
  st_modelMap : list (string * ModelBucket);
  st_dailyMap : list (string * DayBucket);
  st_dailyLatencies : list (string * list Q);
  st_latencyValues : list Q;
  st_preview : list PreviewItem;
  st_timeline : list TimelineEvent;
  st_waterfall : list WaterfallSpan;
  st_activityDates : list string;
  st_firstActivity : option Q;
  st_lastActivity : option Q;
  st_lastUserTs : option Q;
  st_previousAssistantModelKey : option string;
  st_modelSwitches : nat
}.

Definition initialState : ParseState :=
  {| st_totals := createTotals;
     st_messageCounts := mkCounts 0 0 0 0 0 0;
     st_toolMap := [];
     st_modelMap := [];
     st_dailyMap := [];
     st_dailyLatencies := [];
     st_latencyValues := [];
     st_preview := [];
     st_timeline := [];
     st_waterfall := [];
     st_activityDates := [];
     st_firstActivity := None;
     st_lastActivity := None;
     st_lastUserTs := None;
     st_previousAssistantModelKey := None;
     st_modelSwitches := 0 |}.

Record ToolRow : Type := mkToolRow {
  tr_name : string;
  tr_count : nat
}.

Record ToolUsage : Type := mkToolUsage {
  totalCalls : nat;
  uniqueTools : nat;
  tools : list ToolRow
}.

Record Daily : Type := mkDaily {
  date : string;
  tokens : Q;
  cost : Q;
  messages : nat;
  toolCalls : nat;
  dayErrors : nat;
  latency : option LatencyStats
}.

Record SessionSummary : Type := mkSession {
  s_id : string;
  s_agentId : string;
  s_fileName : string;
  s_label : option string;
  s_channel : option string;
  s_updatedAt : option Q;
  s_firstActivity : option Q;
  s_lastActivity : option Q;
  s_durationMs : option Q;
  s_totals : Totals;
  s_messageCounts : MessageCounts;
  s_toolUsage : ToolUsage;
  s_modelUsage : list ModelBucket;
  s_latency : option LatencyStats;
  s_daily : list Daily;
  s_preview : list PreviewItem;
  s_timeline : list TimelineEvent;
  s_waterfall : list WaterfallSpan;
  s_modelSwitches : nat;
  s_uniqueModels : nat;
  s_activityDates : list string
}.

(** What [parseSessionFile] receives besides the lines of the transcript:
    the store entry resolved for the file ([meta.entry]) and the file's
    modification time. *)
Record ParseParams : Type := mkParams {
  fileName : string;
  agentId : string;
  entry : JsValue;
  mtimeMs : Q;
  range : Range;
  timelineLimit : Q
}.

Definition stemOf (name : string) : string :=
  let n := String.length name in
  if (6 <=? n)%nat && String.eqb (substring (n - 6) 6 name) ".jsonl"
  then substring 0 (n - 6) name
  else name.

Definition applyDay (f : DayBucket -> DayBucket) (b : option DayBucket) : option DayBucket :=
  option_map f b.

Definition dayAddMessages (n : nat) (b : DayBucket) : DayBucket :=
  mkDay (d_date b) (d_tokens b) (d_cost b) (d_messages b + n) (d_toolCalls b) (d_errors b).
Definition dayAddToolCalls (n : nat) (b : DayBucket) : DayBucket :=
  mkDay (d_date b) (d_tokens b) (d_cost b) (d_messages b) (d_toolCalls b + n) (d_errors b).
Definition dayAddErrors (n : nat) (b : DayBucket) : DayBucket :=
  mkDay (d_date b) (d_tokens b) (d_cost b) (d_messages b) (d_toolCalls b) (d_errors b + n).
Definition dayAddTokens (q : Q) (b : DayBucket) : DayBucket :=
  mkDay (d_date b) (d_tokens b + q) (d_cost b) (d_messages b) (d_toolCalls b) (d_errors b).
Definition dayAddCost (q : Q) (b : DayBucket) : DayBucket :=
  mkDay (d_date b) (d_tokens b) (d_cost b + q) (d_messages b) (d_toolCalls b) (d_errors b).

Definition isUserOrAssistant (role : option Role) : bool :=
  match role with
  | Some user | Some assistant => true
  | _ => false
  end.

Definition isRole (role : option Role) (r : Role) : bool :=
  match role with
  | Some r' => Role_eqb r' r
  | None => false
  end.

Definition countMessage (role : option Role) (mc : MessageCounts) : MessageCounts :=
  if isUserOrAssistant role
  then mkCounts (m_total mc + 1)
                (if isRole role user then m_user mc + 1 else m_user mc)
                (if isRole role assistant then m_assistant mc + 1 else m_assistant mc)
                (m_toolCalls mc) (m_toolResults mc) (m_errors mc)
  else mc.

Definition countTools (t : ToolDetails) (mc : MessageCounts) : MessageCounts :=
  let mc1 :=
    if (0 <? List.length (names t))%nat
    then mkCounts (m_total mc) (m_user mc) (m_assistant mc)
                  (m_toolCalls mc + List.length (names t)) (m_toolResults mc) (m_errors mc)
    else mc in
  if (0 <? results t)%nat
  then mkCounts (m_total mc1) (m_user mc1) (m_assistant mc1)
                (m_toolCalls mc1) (m_toolResults mc1 + results t) (m_errors mc1 + errors t)
  else mc1.

Definition countError (isErr : bool) (mc : MessageCounts) : MessageCounts :=
  if isErr
  then mkCounts (m_total mc) (m_user mc) (m_assistant mc)
                (m_toolCalls mc) (m_toolResults mc) (m_errors mc + 1)
  else mc.

Definition bumpTool (m : list (string * nat)) (name : string) : list (string * nat) :=
  mapSet name (getOr (assoc name m) 0 + 1)%nat m.

Definition stopReasonOf (record message : JsValue) : option string :=
  match message.["stopReason"] with
  | Some (JStr s) => Some s
  | _ => match record.["stopReason"] with
         | Some (JStr s) => Some s
         | _ => None
         end
  end.

(** [stopReason && STOP_REASON_ERRORS.has(stopReason.toLowerCase())] *)
Definition stopReasonIsError (stopReason : option string) : bool :=
  match stopReason with
  | Some s => negb (isEmpty s) && setHas (String_toLowerCase s) STOP_REASON_ERRORS
  | None => false
  end.

Definition stringField (message record : JsValue) (k : string) : option string :=
  match message.[k] with
  | Some (JStr s) => Some s
  | _ => match record.[k] with
         | Some (JStr s) => Some s
         | _ => None
         end
  end.

Definition rawCostTotalOf (record message : JsValue) : option Q :=
  toFinite record.["costTotal"] <|> toFinite message.["costTotal"]
  <|> toFinite (asRecord record.["cost"]).["total"]
  <|> toFinite (asRecord message.["cost"]).["total"].

Definition messageOf (record : JsValue) : JsValue :=
  match asRecord record.["message"] with
  | Some m => Some m
  | None => Some (JObj [])
  end.

Definition usageRawOf (record : JsValue) : JsValue :=
  nullish (messageOf record).["usage"] record.["usage"].

(** [entryCostTotal] at the end of the loop body. *)
Definition entryCostTotalOf (record : JsValue) : option Q :=
  match normalizeUsage (usageRawOf record) with
  | None => None
  | Some _ =>
    match extractCostBreakdown (usageRawOf record) with
    | Some breakdown => Some (c_total breakdown)
    | None => rawCostTotalOf record (messageOf record)
    end
  end.

(** The cost branch of the loop body applied to one [Totals] object. *)
Definition applyEntryCost (record : JsValue) (totals : Totals) : Totals :=
  match extractCostBreakdown (usageRawOf record) with
  | Some breakdown => applyCostBreakdown totals breakdown
  | None => applyCostTotal totals (rawCostTotalOf record (messageOf record))
  end.

Definition dayEntryCost (record : JsValue) (b : option DayBucket) : option DayBucket :=
  match extractCostBreakdown (usageRawOf record) with
  | Some breakdown => applyDay (dayAddCost (c_total breakdown)) b
  | None =>
    match rawCostTotalOf record (messageOf record) with
    | Some raw => applyDay (dayAddCost raw) b
    | None => b
    end
  end.

Definition truthyNum (v : option Q) : bool :=
  match v with
  | Some q => negb (Qeq_bool q 0)
  | None => false
  end.

Definition durationMsOf (record : JsValue) (role : option Role)
           (timestampMs lastUserTs : option Q) : option Q :=
  match toFinite record.["durationMs"] <|> toFinite (messageOf record).["durationMs"] with
  | Some d => Some d
  | None =>
    match timestampMs, lastUserTs with
    | Some ts, Some lu =>
      if isRole role assistant && truthyNum lastUserTs
      then Some (Math_max 0 (ts - lu))
      else None
    | _, _ => None
    end
  end.

Definition pushPreview (preview : list PreviewItem) (item : PreviewItem) : list PreviewItem :=
  let pushed := preview ++ [item] in
  if (8 <? List.length pushed)%nat then tl pushed else pushed.

(** ** The session parser

    [JSON.parse], [Date.parse] and the calendar getters of [Date] are
    platform builtins: the parser is given over any decoder
    ([None] is a thrown [SyntaxError], resp. [NaN]). *)

Section Parser.
Variable JSON_parse : string -> option Json.
Variable Date_parse : string -> option Q.
Variables getUTCFullYear getUTCMonth getUTCDate : Q -> Z.

Definition parseTimestampMs (entry message : JsValue) : option Q :=
  match match entry.["timestamp"] with
        | Some (JStr s) => Date_parse s
        | _ => None
        end with
  | Some ts => Some ts
  | None => toFinite message.["timestamp"]
  end.

Definition dayKeyFromMs (ms : Q) : string :=
  (String_ofZ (getUTCFullYear ms) ++ "-"
   ++ padStart2 (String_ofZ (getUTCMonth ms + 1)) ++ "-"
   ++ padStart2 (String_ofZ (getUTCDate ms)))%string.

(** [dayKey], with [null] and the (falsy) empty string as [None]. *)
Definition dayKeyOf (timestampMs : option Q) : option string :=
  match timestampMs with
  | Some ts => if isEmpty (dayKeyFromMs ts) then None else Some (dayKeyFromMs ts)
  | None => None
  end.

Definition inRange (range : Range) (timestampMs : option Q) : bool :=
  match timestampMs with
  | None => true
  | Some ts => inWindow range ts
  end.

(** The body of the [for await] loop for a line that decoded to a record
    lying in the requested window. *)
Definition foldRecord (st : ParseState) (record : JsValue) : ParseState :=
  let message := messageOf record in
  let role := roleOf message in
  let timestampMs := parseTimestampMs record message in
  let firstActivity :=
    match timestampMs with
    | Some ts => Some (match st_firstActivity st with
                       | None => ts
                       | Some f => Math_min f ts
                       end)
    | None => st_firstActivity st
    end in
  let lastActivity :=
    match timestampMs with
    | Some ts => Some (match st_lastActivity st with
                       | None => ts
                       | Some l => Math_max l ts
                       end)
    | None => st_lastActivity st
    end in
  let activityDates :=
    match timestampMs with
    | Some ts => setAdd (dayKeyFromMs ts) (st_activityDates st)
    | None => st_activityDates st
    end in
  let dayKey := dayKeyOf timestampMs in
  let dayBucket0 :=
    match dayKey with
    | Some k => Some (getOr (assoc k (st_dailyMap st)) (mkDay k 0 0 0 0 0))
    | None => None
    end in
  let counts1 := countMessage role (st_messageCounts st) in
  let dayBucket1 :=
    if isUserOrAssistant role then applyDay (dayAddMessages 1) dayBucket0 else dayBucket0 in
  let lastUserTs :=
    match timestampMs with
    | Some ts => if isRole role user then Some ts else st_lastUserTs st
    | None => st_lastUserTs st
    end in
  let tools := extractToolDetails message in
  let counts2 := countTools tools counts1 in
  let dayBucket2 :=
    if (0 <? List.length (names tools))%nat
    then applyDay (dayAddToolCalls (List.length (names tools))) dayBucket1
    else dayBucket1 in
  let toolMap := fold_left bumpTool (names tools) (st_toolMap st) in
  let dayBucket3 :=
    if (0 <? results tools)%nat
    then applyDay (dayAddErrors (errors tools)) dayBucket2
    else dayBucket2 in
  let stopReason := stopReasonOf record message in
  let counts3 := countError (stopReasonIsError stopReason) counts2 in
  let dayBucket4 :=
    if stopReasonIsError stopReason then applyDay (dayAddErrors 1) dayBucket3 else dayBucket3 in
  let usageRaw := usageRawOf record in
  let usage := normalizeUsage usageRaw in
  let provider := stringField message record "provider" in
  let model := stringField message record "model" in
  let assistantModelKey := modelKeyOf provider model in
  let entryCostTotal := entryCostTotalOf record in
  let totals :=
    match usage with
    | Some u => applyEntryCost record (applyUsageTotals (st_totals st) u)
    | None => st_totals st
    end in
  let dayBucket5 :=
    match usage with
    | Some u => dayEntryCost record (applyDay (dayAddTokens (u_total u)) dayBucket4)
    | None => dayBucket4
    end in
  let modelMap :=
    match usage with
    | Some u =>
      let modelKey := modelKeyOf provider model in
      let modelBucket :=
        getOr (assoc modelKey (st_modelMap st))
              (mkModelBucket provider model 0 createTotals) in
      mapSet modelKey
             (mkModelBucket (mb_provider modelBucket) (mb_model modelBucket)
                (mb_count modelBucket + 1)
                (applyEntryCost record (applyUsageTotals (mb_totals modelBucket) u)))
             (st_modelMap st)
    | None => st_modelMap st
    end in
  let durationMs := durationMsOf record role timestampMs lastUserTs in
  let latencyValues :=
    match durationMs with
    | Some d => if isRole role assistant then st_latencyValues st ++ [d]
                else st_latencyValues st
    | None => st_latencyValues st
    end in
  let dailyLatencies :=
    match durationMs, dayKey with
    | Some d, Some k =>
      if isRole role assistant
      then mapSet k (getOr (assoc k (st_dailyLatencies st)) [] ++ [d]) (st_dailyLatencies st)
      else st_dailyLatencies st
    | _, _ => st_dailyLatencies st
    end in
  let modelSwitches :=
    match st_previousAssistantModelKey st with
    | Some previous =>
      if isRole role assistant && negb (isEmpty previous)
         && negb (String.eqb assistantModelKey "unknown::unknown")
         && negb (String.eqb assistantModelKey previous)
      then (st_modelSwitches st + 1)%nat
      else st_modelSwitches st
    | None => st_modelSwitches st
    end in
  let previousAssistantModelKey :=
    if isRole role assistant && negb (String.eqb assistantModelKey "unknown::unknown")
    then Some assistantModelKey
    else st_previousAssistantModelKey st in
  let entryIsError := (0 <? errors tools)%nat || stopReasonIsError stopReason in
  let timeline :=
    match timestampMs, role with
    | Some ts, Some r =>
      st_timeline st ++
      [ {| e_timestamp := ts;
           e_role := r;
           e_provider := provider;
           e_model := model;
           e_tokens := getOr (option_map u_total usage) 0;
           e_inputTokens := getOr (option_map u_input usage) 0;
           e_outputTokens := getOr (option_map u_output usage) 0;
           e_cost := entryCostTotal;
           e_durationMs := durationMs;
           e_toolCalls := List.length (names tools);
           e_toolResults := results tools;
           e_isError := entryIsError;
           e_stopReason := stopReason;
           e_text := trimSnippet (extractText message.["content"]) 140 |} ]
    | _, _ => st_timeline st
    end in
  let waterfall :=
    match timestampMs, lastUserTs with
    | Some ts, Some lu =>
      if isRole role assistant
      then st_waterfall st ++
           [ {| w_startTs := Math_min lu ts;
                w_endTs := ts;
                w_latencyMs := Math_max 0 (ts - lu);
                w_provider := provider;
                w_model := model;
                w_tokens := getOr (option_map u_total usage) 0;
                w_cost := entryCostTotal;
                w_error := entryIsError |} ]
      else st_waterfall st
    | _, _ => st_waterfall st
    end in
  let dailyMap :=
    match dayBucket5 with
    | Some b => mapSet (d_date b) b (st_dailyMap st)
    | None => st_dailyMap st
    end in
  let preview :=
    match role with
    | Some r =>
      let text := trimSnippet (extractText message.["content"]) 180 in
      if isEmpty text then st_preview st
      else pushPreview (st_preview st) (mkPreview timestampMs r text)
    | None => st_preview st
    end in
  {| st_totals := totals;
     st_messageCounts := counts3;
     st_toolMap := toolMap;
     st_modelMap := modelMap;
     st_dailyMap := dailyMap;
     st_dailyLatencies := dailyLatencies;
     st_latencyValues := latencyValues;
     st_preview := preview;
     st_timeline := timeline;
     st_waterfall := waterfall;
     st_activityDates := activityDates;
     st_firstActivity := firstActivity;
     st_lastActivity := lastActivity;
     st_lastUserTs := lastUserTs;
     st_previousAssistantModelKey := previousAssistantModelKey;
     st_modelSwitches := modelSwitches |}.

(** A decoded value reaches the loop body when it is a record whose
    timestamp, if any, lies in the window. *)
Definition processed (range : Range) (parsed : JsValue) : bool :=
  match asRecord parsed with
  | None => false
  | Some _ => inRange range (parseTimestampMs parsed (messageOf parsed))
  end.

Definition processRecord (range : Range) (st : ParseState) (parsed : JsValue) : ParseState :=
  if processed range parsed then foldRecord st parsed else st.

(** One iteration of the loop over the raw lines. *)
Definition processLine (range : Range) (st : ParseState) (rawLine : string) : ParseState :=
  let line := String_trim rawLine in
  if isEmpty line then st
  else match JSON_parse line with
       | None => st
       | Some parsed => processRecord range st (Some parsed)
       end.

Definition tailLimit {A : Type} (limit : Q) (l : list A) : list A :=
  if Qle_bool (lenQ l) limit then l
  else skipn (Z.to_nat (Qfloor (lenQ l - limit))) l.

Definition channelOf (entry : JsValue) : option string :=
  match entry.["channel"] with
  | Some (JStr s) => Some s
  | _ => asString (entry.["origin"]).["provider"]
  end.

Definition finishSession (params : ParseParams) (st : ParseState) : SessionSummary :=
  let daily :=
    Array_sort (fun a b => localeCompare (date a) (date b))
      (map (fun day =>
              mkDaily (d_date day) (d_tokens day) (d_cost day) (d_messages day)
                      (d_toolCalls day) (d_errors day)
                      (computeLatencyStats
                         (getOr (assoc (d_date day) (st_dailyLatencies st)) [])))
           (mapValues (st_dailyMap st))) in
  let toolUsage :=
    {| totalCalls := fold_left Nat.add (mapValues (st_toolMap st)) 0%nat;
       uniqueTools := List.length (st_toolMap st);
       tools := Array_sort
                  (fun a b => inject_Z (Z.of_nat (tr_count b)) - inject_Z (Z.of_nat (tr_count a)))
                  (map (fun kv => mkToolRow (fst kv) (snd kv)) (st_toolMap st)) |} in
  let modelUsage :=
    Array_sort (fun a b => sortByCostThenTokens (mb_totals a) (mb_totals b))
               (mapValues (st_modelMap st)) in
  let sortedTimeline :=
    Array_sort (fun a b => e_timestamp a - e_timestamp b) (st_timeline st) in
  let sortedWaterfall :=
    Array_sort (fun a b => w_startTs a - w_startTs b) (st_waterfall st) in
  let uniqueModelKeys :=
    setOfList (map (fun m => modelKeyOf (mb_provider m) (mb_model m)) modelUsage) in
  {| s_id := (agentId params ++ ":" ++ stemOf (fileName params))%string;
     s_agentId := agentId params;
     s_fileName := fileName params;
     s_label := asString (entry params).["label"];
     s_channel := channelOf (entry params);
     s_updatedAt := Some (getOr (toFinite (entry params).["updatedAt"]) (mtimeMs params));
     s_firstActivity := st_firstActivity st;
     s_lastActivity := st_lastActivity st;
     s_durationMs :=
       match st_firstActivity st, st_lastActivity st with
       | Some f, Some l => Some (Math_max 0 (l - f))
       | _, _ => None
       end;
     s_totals := st_totals st;
     s_messageCounts := st_messageCounts st;
     s_toolUsage := toolUsage;
     s_modelUsage := modelUsage;
     s_latency := computeLatencyStats (st_latencyValues st);
     s_daily := daily;
     s_preview := st_preview st;
     s_timeline := tailLimit (timelineLimit params) sortedTimeline;
     s_waterfall := tailLimit (timelineLimit params) sortedWaterfall;
     s_modelSwitches := st_modelSwitches st;
     s_uniqueModels := List.length uniqueModelKeys;
     s_activityDates := Array_sort localeCompare (st_activityDates st) |}.

Definition parseLines (range : Range) (lines : list string) : ParseState :=
  fold_left (processLine range) lines initialState.

Definition parseSessionFile (params : ParseParams) (lines : list string) : SessionSummary :=
  finishSession params (parseLines (range params) lines).
End Parser.

(** ** The fleet aggregator *)

Record ModelRow : Type := mkModelRow {
  mr_provider : option string;
  mr_model : option string;
  mr_count : nat;
  mr_sessions : nat;
  mr_totals : Totals
}.

Record ProviderRow : Type := mkProviderRow {
  pr_provider : option string;
  pr_count : nat;
  pr_sessions : nat;
  pr_totals : Totals
}.

Record AgentRow : Type := mkAgentRow {
  ar_agentId : string;
  ar_sessions : nat;
  ar_totals : Totals
}.

Record ChannelRow : Type := mkChannelRow {
  cr_channel : string;
  cr_sessions : nat;
  cr_totals : Totals
}.

(** A number that starts at [Number.POSITIVE_INFINITY]. *)
Inductive ExtQ : Type :=
| PosInf
| Fin (q : Q).

Definition minExt (a : ExtQ) (b : Q) : ExtQ :=
  match a with
  | PosInf => Fin b
  | Fin q => Fin (Math_min q b)
  end.

Record LatencyAcc : Type := mkLatencyAcc {
  la_count : nat;
  la_sum : Q;
  la_min : ExtQ;
  la_max : Q;
  la_p95Max : Q
}.

Record FleetLatency : Type := mkFleetLatency {
  fl_count : nat;
  fl_avgMs : Q;
  fl_minMs : ExtQ;
  fl_maxMs : Q;
  fl_p95Ms : Q
}.

Record DailyAcc : Type := mkDailyAcc {
  da_date : string;
  da_tokens : Q;
  da_cost : Q;
  da_messages : nat;
  da_toolCalls : nat;
  da_errors : nat;
  da_latency : LatencyAcc
}.

Record FleetDaily : Type := mkFleetDaily {
  fd_date : string;
  fd_tokens : Q;
  fd_cost : Q;
  fd_messages : nat;
  fd_toolCalls : nat;
  fd_errors : nat;
  fd_latency : option FleetLatency
}.

Definition natQ (n : nat) : Q := inject_Z (Z.of_nat n).

Definition emptyLatency : LatencyAcc := mkLatencyAcc 0 0 PosInf 0 0.

(** [if (x.latency?.count) { ... }] *)
Definition foldLatency (acc : LatencyAcc) (lat : option LatencyStats) : LatencyAcc :=
  match lat with
  | Some l =>
    if (l_count l =? 0)%nat then acc
    else {| la_count := la_count acc + l_count l;
            la_sum := la_sum acc + l_avgMs l * natQ (l_count l);
            la_min := minExt (la_min acc) (l_minMs l);
            la_max := Math_max (la_max acc) (l_maxMs l);
            la_p95Max := Math_max (la_p95Max acc) (l_p95Ms l) |}
  | None => acc
  end.

Definition latencyResult (acc : LatencyAcc) : option FleetLatency :=
  if (0 <? la_count acc)%nat
  then Some {| fl_count := la_count acc;
               fl_avgMs := la_sum acc / natQ (la_count acc);
               fl_minMs := la_min acc;
               fl_maxMs := la_max acc;
               fl_p95Ms := la_p95Max acc |}
  else None.

Record Filter : Type := mkFilter {
  f_agent : option string;
  f_channel : option string
}.

(** A selected filter is [null] or a string; the empty string is falsy. *)
Definition selected (f : option string) : option string :=
  match f with
  | Some s => if isEmpty s then None else Some s
  | None => None
  end.

Definition keep (filter : Filter) (session : SessionSummary) : bool :=
  match selected (f_agent filter) with
  | Some a => String.eqb (s_agentId session) a
  | None => true
  end
  && match selected (f_channel filter) with
     | Some c => String.eqb (getOr (s_channel session) "") c
     | None => true
     end.

Record FleetAcc : Type := mkFleetAcc {
  fa_totals : Totals;
  fa_messages : MessageCounts;
  fa_latency : LatencyAcc;
  fa_toolsMap : list (string * nat);
  fa_byModelMap : list (string * ModelRow);
  fa_byProviderMap : list (string * ProviderRow);
  fa_byAgentMap : list (string * AgentRow);
  fa_byChannelMap : list (string * ChannelRow);
  fa_dailyMap : list (string * DailyAcc)
}.

Definition mergeCounts (a b : MessageCounts) : MessageCounts :=
  mkCounts (m_total a + m_total b) (m_user a + m_user b) (m_assistant a + m_assistant b)
           (m_toolCalls a + m_toolCalls b) (m_toolResults a + m_toolResults b)
           (m_errors a + m_errors b).

Definition addTool (m : list (string * nat)) (t : ToolRow) : list (string * nat) :=
  mapSet (tr_name t) (getOr (assoc (tr_name t) m) 0 + tr_count t)%nat m.

Definition addModel (m : list (string * ModelRow)) (model : ModelBucket)
  : list (string * ModelRow) :=
  let modelKey := modelKeyOf (mb_provider model) (mb_model model) in
  let modelRow :=
    getOr (assoc modelKey m)
          (mkModelRow (mb_provider model) (mb_model model) 0 0 createTotals) in
  mapSet modelKey
         (mkModelRow (mr_provider modelRow) (mr_model modelRow)
                     (mr_count modelRow + mb_count model) (mr_sessions modelRow + 1)
                     (mergeTotals (mr_totals modelRow) (mb_totals model)))
         m.

Definition addProvider (m : list (string * ProviderRow)) (model : ModelBucket)
  : list (string * ProviderRow) :=
  let providerKey := getOr (mb_provider model) "unknown" in
  let providerRow :=
    getOr (assoc providerKey m) (mkProviderRow (mb_provider model) 0 0 createTotals) in
  mapSet providerKey
         (mkProviderRow (pr_provider providerRow)
                        (pr_count providerRow + mb_count model) (pr_sessions providerRow + 1)
                        (mergeTotals (pr_totals providerRow) (mb_totals model)))
         m.

Definition addAgent (m : list (string * AgentRow)) (session : SessionSummary)
  : list (string * AgentRow) :=
  let agentRow :=
    getOr (assoc (s_agentId session) m) (mkAgentRow (s_agentId session) 0 createTotals) in
  mapSet (s_agentId session)
         (mkAgentRow (ar_agentId agentRow) (ar_sessions agentRow + 1)
                     (mergeTotals (ar_totals agentRow) (s_totals session)))
         m.

Definition addChannel (m : list (string * ChannelRow)) (session : SessionSummary)
  : list (string * ChannelRow) :=
  let channelKey := getOr (s_channel session) "unknown" in
  let channelRow :=
    getOr (assoc channelKey m) (mkChannelRow channelKey 0 createTotals) in
  mapSet channelKey
         (mkChannelRow (cr_channel channelRow) (cr_sessions channelRow + 1)
                       (mergeTotals (cr_totals channelRow) (s_totals session)))
         m.

Definition addDay (m : list (string * DailyAcc)) (day : Daily) : list (string * DailyAcc) :=
  let daily :=
    getOr (assoc (date day) m) (mkDailyAcc (date day) 0 0 0 0 0 emptyLatency) in
  mapSet (date day)
         (mkDailyAcc (da_date daily) (da_tokens daily + tokens day) (da_cost daily + cost day)
                     (da_messages daily + messages day) (da_toolCalls daily + toolCalls day)
                     (da_errors daily + dayErrors day)
                     (foldLatency (da_latency daily) (latency day)))
         m.

(** The body of the loop over the filtered sessions. *)
Definition aggregateStep (acc : FleetAcc) (session : SessionSummary) : FleetAcc :=
  {| fa_totals := mergeTotals (fa_totals acc) (s_totals session);
     fa_messages := mergeCounts (fa_messages acc) (s_messageCounts session);
     fa_latency := foldLatency (fa_latency acc) (s_latency session);
     fa_toolsMap := fold_left addTool (tools (s_toolUsage session)) (fa_toolsMap acc);
     fa_byModelMap := fold_left addModel (s_modelUsage session) (fa_byModelMap acc);
     fa_byProviderMap := fold_left addProvider (s_modelUsage session) (fa_byProviderMap acc);
     fa_byAgentMap := addAgent (fa_byAgentMap acc) session;
     fa_byChannelMap := addChannel (fa_byChannelMap acc) session;
     fa_dailyMap := fold_left addDay (s_daily session) (fa_dailyMap acc) |}.

Definition emptyFleet : FleetAcc :=
  mkFleetAcc createTotals (mkCounts 0 0 0 0 0 0) emptyLatency [] [] [] [] [] [].

Record Aggregates : Type := mkAggregates {
  ag_daily : list FleetDaily;
  ag_tools : list ToolRow;
  byModel : list ModelRow;
  byProvider : list ProviderRow;
  byAgent : list AgentRow;
  byChannel : list ChannelRow
}.

Record Aggregated : Type := mkAggregated {
  filtered : list SessionSummary;
  ag_totals : Totals;
  ag_messages : MessageCounts;
  ag_latency : option FleetLatency;
  aggregates : Aggregates
}.

Definition countDesc (a b : ToolRow) : Q := natQ (tr_count b) - natQ (tr_count a).

Definition aggregateSessions (sessions : list SessionSummary) (filter : Filter) : Aggregated :=
  let filtered := List.filter (keep filter) sessions in
  let acc := fold_left aggregateStep filtered emptyFleet in
  let daily :=
    Array_sort (fun a b => localeCompare (fd_date a) (fd_date b))
      (map (fun day =>
              mkFleetDaily (da_date day) (da_tokens day) (da_cost day) (da_messages day)
                           (da_toolCalls day) (da_errors day)
                           (latencyResult (da_latency day)))
           (mapValues (fa_dailyMap acc))) in
  {| filtered := filtered;
     ag_totals := fa_totals acc;
     ag_messages := fa_messages acc;
     ag_latency := latencyResult (fa_latency acc);
     aggregates :=
       {| ag_daily := daily;
          ag_tools := Array_sort countDesc
                        (map (fun kv => mkToolRow (fst kv) (snd kv)) (fa_toolsMap acc));
          byModel := Array_sort (fun a b => sortByCostThenTokens (mr_totals a) (mr_totals b))
                                (mapValues (fa_byModelMap acc));
          byProvider := Array_sort (fun a b => sortByCostThenTokens (pr_totals a) (pr_totals b))
                                   (mapValues (fa_byProviderMap acc));
          byAgent := Array_sort (fun a b => sortByCostThenTokens (ar_totals a) (ar_totals b))
                                (mapValues (fa_byAgentMap acc));
          byChannel := Array_sort (fun a b => sortByCostThenTokens (cr_totals a) (cr_totals b))
                                  (mapValues (fa_byChannelMap acc)) |} |}.

(** ** The orchestrator *)

(** The last statement of [collectSessionsFromState]. *)
Definition byUpdatedAtDesc (a b : SessionSummary) : Q :=
  getOr (s_updatedAt b) 0 - getOr (s_updatedAt a) 0.

Definition collectSessionsFromState (summaries : list SessionSummary) : list SessionSummary :=
  Array_sort byUpdatedAtDesc summaries.

Record Options : Type := mkOptions {
  o_agent : option string;
  o_channel : option string;
  o_sessionLimit : option Q
}.

Definition sessionLimitOf (options : Options) : Q :=
  match o_sessionLimit options with
  | Some n => if Qle_bool n 0 then 250 else n
  | None => 250
  end.

(** [array.slice(0, n)] for a positive number [n]. *)
Definition sliceTo {A : Type} (n : Q) (l : list A) : list A :=
  firstn (Z.to_nat (Qfloor n)) l.

(** The [sessions] field of the payload of [collectOpenClawMetrics]; the
    argument is the list of summaries in the order the files were parsed. *)
Definition topSessions (options : Options) (summaries : list SessionSummary)
  : list SessionSummary :=
  let sessions := collectSessionsFromState summaries in
  let filter := mkFilter (selected (o_agent options)) (selected (o_channel options)) in
  let aggregated := aggregateSessions sessions filter in
  sliceTo (sessionLimitOf options) (filtered aggregated).

(** ** The anomaly detector: token spikes *)

Record TokenSpike : Type := mkSpike {
  sp_date : string;
  sp_tokens : Q;
  sp_baselineTokens : Q;
  sp_ratio : Q
}.

Definition Qlt_bool (a b : Q) : bool := negb (Qle_bool b a).

Definition calcMean (values : list Q) : Q :=
  match values with
  | [] => 0
  | _ => sumQ values / lenQ values
  end.

Definition byDate (a b : FleetDaily) : Q := localeCompare (fd_date a) (fd_date b).

(** The [tokenSpikes] array of [buildAnomalies]. *)
Definition tokenSpikes (daily : list FleetDaily) : list TokenSpike :=
  if (4 <=? List.length daily)%nat
  then
    let ordered := Array_sort byDate daily in
    match nth_error ordered (List.length ordered - 1) with
    | None => []
    | Some last =>
      let previous := List.filter (fun n => Qlt_bool 0 n) (map fd_tokens (removelast ordered)) in
      if (3 <=? List.length previous)%nat
      then
        let baseline := calcMean previous in
        let ratio := if Qlt_bool 0 baseline then fd_tokens last / baseline else 0 in
        if Qlt_bool 5000 (fd_tokens last) && Qle_bool 2.3 ratio
        then [ {| sp_date := fd_date last;
                  sp_tokens := fd_tokens last;
                  sp_baselineTokens := baseline;
                  sp_ratio := ratio |} ]
        else []
      else []
    end
  else [].

(** * Statements and example data *)

(** ** Usage tuples *)

Definition UsageNonNegative (u : Usage) : Prop :=
  0 <= u_input u /\ 0 <= u_output u /\ 0 <= u_cacheRead u /\ 0 <= u_cacheWrite u
  /\ 0 <= u_total u.

Definition rawPartsNonNegative (record : JsValue) : Prop :=
  0 <= usageInput record /\ 0 <= usageOutput record /\ 0 <= usageCacheRead record
  /\ 0 <= usageCacheWrite record.

(** [{input: 5, output: 3, total: 2}] *)
Definition usageWithSmallTotal : JsValue :=
  Some (JObj [("input", JNum 5); ("output", JNum 3); ("total", JNum 2)]).

(** [{input: 5, output: 3}] *)
Definition usageWithoutTotal : JsValue :=
  Some (JObj [("input", JNum 5); ("output", JNum 3)]).

(** ** Latency samples *)

Definition tenLatencies : list Q := [10; 20; 30; 40; 50; 60; 70; 80; 90; 100].

(** The nearest-rank index of the spec: [floor (0.95 * n)]. *)
Definition nearestRank95 (n : nat) : nat := Z.to_nat (Qfloor (0.95 * natQ n)).

(** How many samples lie strictly below, resp. not above, a value. *)
Definition countBelow (v : Q) (l : list Q) : nat :=
  List.length (List.filter (fun x => Qlt_bool x v) l).
Definition countUpTo (v : Q) (l : list Q) : nat :=
  List.length (List.filter (fun x => Qle_bool x v) l).

(** ** Rankings *)

(** [row.totals], for the rows of any table; a row of the tools table is
    [{ name, count }] and has no totals. *)
Class HasTotals (R : Type) : Type := rowTotals : R -> option Totals.

#[global] Instance ModelRow_totals : HasTotals ModelRow := fun r => Some (mr_totals r).
#[global] Instance ProviderRow_totals : HasTotals ProviderRow := fun r => Some (pr_totals r).
#[global] Instance AgentRow_totals : HasTotals AgentRow := fun r => Some (ar_totals r).
#[global] Instance ChannelRow_totals : HasTotals ChannelRow := fun r => Some (cr_totals r).
#[global] Instance ToolRow_totals : HasTotals ToolRow := fun _ => None.
#[global] Instance Session_totals : HasTotals SessionSummary := fun s => Some (s_totals s).

(** The fleet ranking order between two rows: cost descending, ties broken
    by tokens descending. *)
Definition costThenTokens (ta tb : Totals) : Prop :=
  totalCost tb <= totalCost ta
  /\ (totalCost ta == totalCost tb -> totalTokens tb <= totalTokens ta).

Definition RankedByCostThenTokens {R : Type} `{HasTotals R} (table : list R) : Prop :=
  forall i a b,
    nth_error table i = Some a -> nth_error table (S i) = Some b ->
    exists ta tb, rowTotals a = Some ta /\ rowTotals b = Some tb /\ costThenTokens ta tb.

Definition RankedByCount (table : list ToolRow) : Prop :=
  forall i a b,
    nth_error table i = Some a -> nth_error table (S i) = Some b ->
    (tr_count b <= tr_count a)%nat.

Definition emptyToolUsage : ToolUsage := mkToolUsage 0 0 [].

(** A session summary with the given identity, update time, totals and
    tool rows, and nothing else recorded. *)
Definition sessionWith (agent : string) (updatedAt : Q) (t : Totals) (usage : ToolUsage)
  : SessionSummary :=
  {| s_id := (agent ++ ":s")%string;
     s_agentId := agent;
     s_fileName := "s.jsonl";
     s_label := None;
     s_channel := None;
     s_updatedAt := Some updatedAt;
     s_firstActivity := None;
     s_lastActivity := None;
     s_durationMs := None;
     s_totals := t;
     s_messageCounts := mkCounts 0 0 0 0 0 0;
     s_toolUsage := usage;
     s_modelUsage := [];
     s_latency := None;
     s_daily := [];
     s_preview := [];
     s_timeline := [];
     s_waterfall := [];
     s_modelSwitches := 0;
     s_uniqueModels := 0;
     s_activityDates := [] |}.

Definition totalsOf (tokens cost : Q) : Totals :=
  mkTotals tokens 0 0 0 tokens cost 0 0 0 0 0.

Definition noFilter : Filter := mkFilter None None.

(** A cheap session that called [read] five times and a costly one that
    called [write] once. *)
Definition toolSessions : list SessionSummary :=
  [ sessionWith "main" 100 (totalsOf 10 1) (mkToolUsage 5 1 [mkToolRow "read" 5]);
    sessionWith "main" 200 (totalsOf 50 5) (mkToolUsage 1 1 [mkToolRow "write" 1]) ].

(** A cheap session updated recently and a costly one updated earlier. *)
Definition cheapRecent : SessionSummary :=
  sessionWith "main" 200 (totalsOf 10 1) emptyToolUsage.
Definition costlyOld : SessionSummary :=
  sessionWith "main" 100 (totalsOf 50 5) emptyToolUsage.

Definition limitOne : Options := mkOptions None None (Some 1).

(** The [sessions] field the way the spec words it: the first
    [sessionLimit] sessions of the filtered set in the fleet ranking
    order. *)
Definition topSessionsByRanking (options : Options) (summaries : list SessionSummary)
  : list SessionSummary :=
  let filter := mkFilter (selected (o_agent options)) (selected (o_channel options)) in
  sliceTo (sessionLimitOf options)
          (Array_sort (fun a b => sortByCostThenTokens (s_totals a) (s_totals b))
                      (List.filter (keep filter) summaries)).

Definition updatedAtOf (s : SessionSummary) : Q := getOr (s_updatedAt s) 0.

Definition moreRecent (a b : SessionSummary) : Prop := updatedAtOf b <= updatedAtOf a.

(** ** Fleet latency *)

(** The latency stats the aggregator folds: those of the sessions with a
    nonzero latency count. *)
Definition latenciesOf (sessions : list SessionSummary) : list LatencyStats :=
  flat_map (fun s => match s_latency s with
                     | Some l => if (l_count l =? 0)%nat then [] else [l]
                     | None => []
                     end) sessions.

Definition weightedSum (ls : list LatencyStats) : Q :=
  sumQ (map (fun l => l_avgMs l * natQ (l_count l)) ls).

Definition totalCount (ls : list LatencyStats) : nat := list_sum (map l_count ls).

Definition IsMinimum (m : Q) (l : list Q) : Prop := In m l /\ forall x, In x l -> m <= x.
Definition IsMaximum (m : Q) (l : list Q) : Prop := In m l /\ forall x, In x l -> x <= m.

Definition latencyOf (count : nat) (avg p95 lo hi : Q) : option LatencyStats :=
  Some (mkLatency count avg p95 lo hi).

Definition sessionWithLatency (agent : string) (lat : option LatencyStats) : SessionSummary :=
  {| s_id := (agent ++ ":s")%string;
     s_agentId := agent;
     s_fileName := "s.jsonl";
     s_label := None;
     s_channel := None;
     s_updatedAt := Some 0;
     s_firstActivity := None;
     s_lastActivity := None;
     s_durationMs := None;
     s_totals := createTotals;
     s_messageCounts := mkCounts 0 0 0 0 0 0;
     s_toolUsage := emptyToolUsage;
     s_modelUsage := [];
     s_latency := lat;
     s_daily := [];
     s_preview := [];
     s_timeline := [];
     s_waterfall := [];
     s_modelSwitches := 0;
     s_uniqueModels := 0;
     s_activityDates := [] |}.

(** Two sessions with latency samples and one without. *)
Definition latencySessions : list SessionSummary :=
  [ sessionWithLatency "a" (latencyOf 2 100 150 50 150);
    sessionWithLatency "b" None;
    sessionWithLatency "c" (latencyOf 3 200 400 20 400) ].

(** ** Token spikes *)

Definition nonzero (q : Q) : bool := negb (Qeq_bool q 0).

(** The mean of a non-empty list, as the spec uses it for the baseline. *)
Definition mean (l : list Q) : Q := sumQ l / lenQ l.

(** The nonzero token counts of the days before the most recent one. *)
Definition baselineDays (prevDays : list FleetDaily) : list Q :=
  List.filter nonzero (map fd_tokens prevDays).

(** The spike rule of the spec on a series given in date order. *)
Definition SpikeFires (ordered : list FleetDaily) : Prop :=
  exists prevDays lastDay,
    ordered = prevDays ++ [lastDay]
    /\ (4 <= List.length ordered)%nat
    /\ (3 <= List.length (baselineDays prevDays))%nat
    /\ 5000 < fd_tokens lastDay
    /\ 2.3 <= fd_tokens lastDay / mean (baselineDays prevDays).

(** What a reported spike says about a series given in date order. *)
Definition SpikeReport (ordered : list FleetDaily) (spike : TokenSpike) : Prop :=
  exists prevDays lastDay,
    ordered = prevDays ++ [lastDay]
    /\ sp_date spike = fd_date lastDay
    /\ sp_tokens spike = fd_tokens lastDay
    /\ sp_baselineTokens spike == mean (baselineDays prevDays)
    /\ sp_ratio spike == fd_tokens lastDay / mean (baselineDays prevDays).

Definition dayOf (day : string) (n : Q) : FleetDaily := mkFleetDaily day n 0 0 0 0 None.

(** Daily tokens 1000, 1100, 900, 1050, 6000. *)
Definition spikeWeek : list FleetDaily :=
  [ dayOf "2024-03-01" 1000; dayOf "2024-03-02" 1100; dayOf "2024-03-03" 900;
    dayOf "2024-03-04" 1050; dayOf "2024-03-05" 6000 ].

(** Daily tokens 1000, 1000, 1000, 1000, 1800. *)
Definition calmWeek : list FleetDaily :=
  [ dayOf "2024-03-01" 1000; dayOf "2024-03-02" 1000; dayOf "2024-03-03" 1000;
    dayOf "2024-03-04" 1000; dayOf "2024-03-05" 1800 ].

(** ** Sessions as sequences of records *)

Definition known (key : string) : bool := negb (String.eqb key "unknown::unknown").

(** The model identity of a record: [`${provider ?? "unknown"}::${model ?? "unknown"}`]. *)
Definition modelKeyOfRecord (record : JsValue) : string :=
  modelKeyOf (stringField (messageOf record) record "provider")
             (stringField (messageOf record) record "model").

Definition roleOfRecord (record : JsValue) : option Role := roleOf (messageOf record).

(** The most recent non-unknown identity among the turns seen so far. *)
Definition lastKnown (seen : list string) : option string :=
  hd_error (rev (List.filter known seen)).

(** Position [i] is a model switch: the turn there carries a non-unknown
    identity that differs from the most recent non-unknown identity of the
    turns before it. *)
Definition isSwitchAt (turns : list string) (i : nat) : bool :=
  match nth_error turns i with
  | Some key =>
    known key
    && match lastKnown (firstn i turns) with
       | Some previous => negb (String.eqb key previous)
       | None => false
       end
  | None => false
  end.

Definition switchPositions (turns : list string) : nat :=
  List.length (List.filter (isSwitchAt turns) (seq 0 (List.length turns))).

(** The same count, computed left to right. *)
Fixpoint switchesFrom (previous : option string) (turns : list string) : nat :=
  match turns with
  | [] => 0
  | key :: rest =>
    ((if known key
         && match previous with
            | Some p => negb (String.eqb key p)
            | None => false
            end
      then 1 else 0)
     + switchesFrom (if known key then Some key else previous) rest)%nat
  end.

Definition isSome {A : Type} (o : option A) : bool :=
  match o with
  | Some _ => true
  | None => false
  end.

(** The remembered assistant identity is a truthy string. *)
Definition previousNonEmpty (st : ParseState) : Prop :=
  forall p, st_previousAssistantModelKey st = Some p -> isEmpty p = false.

(** Every bucket of the model map sits under the key of its own provider
    and model. *)
Definition keyedByModel (m : list (string * ModelBucket)) : Prop :=
  Forall (fun kv => modelKeyOf (mb_provider (snd kv)) (mb_model (snd kv)) = fst kv) m.

(** What a record adds to [totalCost]: the total of its nested breakdown,
    else its flat cost total when that is non-negative, else nothing. *)
Definition costContribution (record : JsValue) : Q :=
  match extractCostBreakdown (usageRawOf record) with
  | Some breakdown => c_total breakdown
  | None =>
    match rawCostTotalOf record (messageOf record) with
    | Some t => if Qle_bool 0 t then t else 0
    | None => 0
    end
  end.

(** A record with no cost information anywhere. *)
Definition noCostInformation (record : JsValue) : Prop :=
  extractCostBreakdown (usageRawOf record) = None
  /\ rawCostTotalOf record (messageOf record) = None.

Section ParserStatements.
Variable JSON_parse : string -> option Json.
Variable Date_parse : string -> option Q.
Variables getUTCFullYear getUTCMonth getUTCDate : Q -> Z.

(** The record a raw line contributes to the fold, if any. *)
Definition recordOfLine (range : Range) (rawLine : string) : list JsValue :=
  let line := String_trim rawLine in
  if isEmpty line then []
  else match JSON_parse line with
       | None => []
       | Some parsed =>
         if processed Date_parse range (Some parsed) then [Some parsed] else []
       end.

(** The records of a transcript that reach the loop body, in file order. *)
Definition recordsOf (range : Range) (lines : list string) : list JsValue :=
  flat_map (recordOfLine range) lines.

Definition timestampOf (record : JsValue) : option Q :=
  parseTimestampMs Date_parse record (messageOf record).

(** The model identities of the assistant turns of a transcript. *)
Definition assistantKeys (range : Range) (lines : list string) : list string :=
  map modelKeyOfRecord
      (List.filter (fun r => isRole (roleOfRecord r) assistant) (recordsOf range lines)).

(** The model identities of the records that yield a usage tuple. *)
Definition usageKeys (range : Range) (lines : list string) : list string :=
  map modelKeyOfRecord
      (List.filter (fun r => isSome (normalizeUsage (usageRawOf r))) (recordsOf range lines)).


(** A record goes to the timeline when it has a timestamp and a role. *)
Definition timelineEligible (record : JsValue) : bool :=
  isSome (timestampOf record) && isSome (roleOfRecord record).

End ParserStatements.

(** ** Token counts are never negative *)

Definition tokensNonNegative (b : option DayBucket) : Prop :=
  match b with
  | Some d => 0 <= d_tokens d
  | None => True
  end.

Definition dailyNonNegative (st : ParseState) : Prop :=
  Forall (fun kv : string * DayBucket => 0 <= d_tokens (snd kv)) (st_dailyMap st).

Definition sessionDailyNonNegative (s : SessionSummary) : Prop :=
  Forall (fun d => 0 <= tokens d) (s_daily s).

(** ** Sample transcript lines

    JSON text is written with apostrophes for the double quotes. *)

Definition unquote (c : ascii) : ascii :=
  if (nat_of_ascii c =? 39)%nat then ascii_of_nat 34 else c.

Definition json (text : string) : string :=
  string_of_list_ascii (map unquote (list_ascii_of_string text)).

Definition assistantTurn (model : string) (ts : Q) : Json :=
  JObj [("message",
         JObj [("role", JStr "assistant"); ("model", JStr model); ("timestamp", JNum ts);
               ("usage", JObj [("input", JNum 5); ("output", JNum 3)])])].

Definition userTurn (ts : Q) : Json :=
  JObj [("message", JObj [("role", JStr "user"); ("timestamp", JNum ts)])].

(** An assistant turn that carries no usage block. *)
Definition bareTurn (model : string) (ts : Q) : Json :=
  JObj [("message",
         JObj [("role", JStr "assistant"); ("model", JStr model); ("timestamp", JNum ts)])].

(** A record with usage and neither a role nor a timestamp. *)
Definition bareUsage : Json :=
  JObj [("usage", JObj [("input", JNum 7)])].

Definition lineUser : string :=
  json "{'message':{'role':'user','timestamp':1000}}".
Definition lineA : string :=
  json "{'message':{'role':'assistant','model':'A','timestamp':2000,'usage':{'input':5,'output':3}}}".
Definition lineB : string :=
  json "{'message':{'role':'assistant','model':'B','timestamp':3000,'usage':{'input':5,'output':3}}}".
Definition lineBare : string :=
  json "{'usage':{'input':7}}".
Definition lineBareA : string :=
  json "{'message':{'role':'assistant','model':'A','timestamp':2000}}".
Definition lineBareB : string :=
  json "{'message':{'role':'assistant','model':'B','timestamp':3000}}".
Definition lineBroken : string :=
  json "{'message':{'role':'assistant'".

(** [JSON.parse] on the sample lines; anything else is taken as
    undecodable, as [lineBroken] is. *)
Definition sampleParse (line : string) : option Json :=
  assoc line [ (lineUser, userTurn 1000); (lineA, assistantTurn "A" 2000);
               (lineB, assistantTurn "B" 3000); (lineBare, bareUsage);
               (lineBareA, bareTurn "A" 2000); (lineBareB, bareTurn "B" 3000) ].

(** No sample record has an ISO timestamp string, and every numeric
    timestamp lies on 1970-01-01. *)
Definition sampleDate (iso : string) : option Q := None.
Definition sampleYear (ms : Q) : Z := 1970%Z.
Definition sampleMonth (ms : Q) : Z := 0%Z.
Definition sampleDay (ms : Q) : Z := 1%Z.

Definition allTime : Range := mkRange None 100000.

Definition sampleParams : ParseParams :=
  {| fileName := "s1.jsonl";
     agentId := "main";
     entry := Some JNull;
     mtimeMs := 5000;
     range := allTime;
     timelineLimit := 240 |}.

Definition sampleSession (lines : list string) : SessionSummary :=
  parseSessionFile sampleParse sampleDate sampleYear sampleMonth sampleDay sampleParams lines.

(** A user turn, assistant turns modeled A, A, B, B, A, and a broken line
    among them. *)
Definition fiveTurns : list string :=
  [lineUser; lineA; lineA; lineB; lineBroken; lineB; lineA].

(** Assistant turns modeled A, A, B, B, A, none of which carries usage. *)
Definition fiveBareTurns : list string :=
  [lineBareA; lineBareA; lineBareB; lineBareB; lineBareA].

(** A transcript of one assistant record that carries [durationMs: -5],
    and [JSON.parse] on its line. *)
Definition negativeTurn : Json :=
  JObj [("durationMs", JNum (-5)); ("message", JObj [("role", JStr "assistant")])].

Definition lineNegative : string :=
  json "{'durationMs':-5,'message':{'role':'assistant'}}".

Definition negativeParse (line : string) : option Json :=
  assoc line [ (lineNegative, negativeTurn) ].

Definition negativeSession : SessionSummary :=
  parseSessionFile negativeParse sampleDate sampleYear sampleMonth sampleDay sampleParams
                   [lineNegative].

(** * Further parts of the collector *)

(** ** Command-line arguments *)

(** A value of the options object: [true] or the token after the flag. *)
Inductive ArgValue : Type :=
| ArgTrue
| ArgStr (s : string).

Definition startsWith (s p : string) : bool := prefix p s.

(** [token.slice(2)] *)
Definition slice2 (token : string) : string :=
  substring 2 (String.length token - 2) token.

(** [out[key] = value] on the plain object [out], as its own keys: the
    assignment keeps the place of a key that is already there, and for the
    key [__proto__] it reaches the accessor inherited from
    [Object.prototype], whose setter ignores [true] and strings, so that
    no own key is made. *)
Definition setOption (key : string) (value : ArgValue) (out : list (string * ArgValue))
  : list (string * ArgValue) :=
  if String.eqb key "__proto__" then out else mapSet key value out.

(** The loop of [parseArgs] from position [i], with the own keys of [out]
    built so far. *)
Fixpoint parseArgsFrom (argv : list string) (out : list (string * ArgValue))
  : list (string * ArgValue) :=
  match argv with
  | [] => out
  | token :: rest =>
    if negb (startsWith token "--") then parseArgsFrom rest out
    else
      let key := slice2 token in
      match rest with
      | [] => setOption key ArgTrue out
      | next :: rest' =>
        if isEmpty next || startsWith next "--"
        then parseArgsFrom rest (setOption key ArgTrue out)
        else parseArgsFrom rest' (setOption key (ArgStr next) out)
      end
  end.

Definition parseArgs (argv : list string) : list (string * ArgValue) :=
  parseArgsFrom argv [].

(** ** Keywords of the memory corpus *)

Definition WORD_BLACKLIST : list string :=
  [ "this"; "that"; "with"; "from"; "have"; "your"; "about"; "session"; "memory";
    "agent"; "openclaw"; "file"; "note"; "notes" ].

(** [[a-z0-9]] *)
Definition isWordChar (c : ascii) : bool :=
  let n := nat_of_ascii c in
  (((97 <=? n) && (n <=? 122)) || ((48 <=? n) && (n <=? 57)))%nat.

(** [.replace(/[^a-z0-9\s]/g, " ")] on one character. *)
Definition blankOther (c : ascii) : ascii :=
  if isWordChar c || isWhite c then c else " "%char.

(** [.split(/\s+/)]: the pieces between runs of whitespace, the empty
    pieces at both ends included; [cur] is the piece being read, reversed,
    and [inRun] tells that the last character was whitespace. *)
Fixpoint splitRuns (cs cur : list ascii) (inRun : bool) : list (list ascii) :=
  match cs with
  | [] => [rev cur]
  | c :: cs' =>
    if isWhite c
    then if inRun then splitRuns cs' cur true else rev cur :: splitRuns cs' [] true
    else splitRuns cs' (c :: cur) false
  end.

Definition splitWhite (s : string) : list string :=
  map string_of_list_ascii (splitRuns (list_ascii_of_string s) [] false).

Definition tokenizeWords (input : string) : list string :=
  List.filter
    (fun w => (4 <=? String.length w)%nat && negb (setHas w WORD_BLACKLIST))
    (map String_trim
         (splitWhite
            (string_of_list_ascii
               (map blankOther (list_ascii_of_string (String_toLowerCase input)))))).

Definition allWordChars (w : string) : Prop :=
  Forall (fun c => isWordChar c = true) (list_ascii_of_string w).

(** ** Statements about the leaves *)

(** Some count of the raw usage record is positive. *)
Definition somePositive (record : JsValue) : Prop :=
  0 < usageTotal record \/ 0 < usageInput record \/ 0 < usageOutput record
  \/ 0 < usageCacheRead record \/ 0 < usageCacheWrite record.

(** A user message carrying one failed tool result. *)
Definition failedToolResult : JsValue :=
  Some (JObj [("role", JStr "user");
              ("content", JArr [JObj [("type", JStr "tool_result"); ("is_error", JBool true)]])]).

(** ** What one record adds to the totals *)

Definition usageOfRecord (record : JsValue) : option Usage :=
  normalizeUsage (usageRawOf record).

Definition recordTokens (record : JsValue) : Q :=
  match usageOfRecord record with
  | Some u => u_total u
  | None => 0
  end.

Definition recordCost (record : JsValue) : Q :=
  match usageOfRecord record with
  | Some _ => costContribution record
  | None => 0
  end.

(** The record has usage and neither a cost breakdown nor a non-negative
    flat cost total. *)
Definition missesCost (record : JsValue) : bool :=
  isSome (usageOfRecord record)
  && negb (isSome (extractCostBreakdown (usageRawOf record)))
  && negb match rawCostTotalOf record (messageOf record) with
          | Some t => Qle_bool 0 t
          | None => false
          end.

Definition tokenFieldsNonNegative (t : Totals) : Prop :=
  0 <= t_input t /\ 0 <= t_output t /\ 0 <= t_cacheRead t /\ 0 <= t_cacheWrite t
  /\ 0 <= totalTokens t /\ 0 <= totalCost t.

(** ** Statements about timelines and waterfalls *)

Definition earlierEvent (a b : TimelineEvent) : Prop := e_timestamp a <= e_timestamp b.

Definition earlierSpan (a b : WaterfallSpan) : Prop := w_startTs a <= w_startTs b.

(** A span runs forward, its latency is its length, and it ends inside
    the requested window. *)
Definition spanWellFormed (range0 : Range) (span : WaterfallSpan) : Prop :=
  w_startTs span <= w_endTs span
  /\ 0 <= w_latencyMs span
  /\ w_latencyMs span == w_endTs span - w_startTs span
  /\ inWindow range0 (w_endTs span) = true.


(** ** Statements about day buckets *)

(** Day keys in strictly ascending order. *)
Definition dateBefore (a b : string) : Prop := String.compare a b = Lt.

Definition dateNotAfter (a b : string) : Prop := String.compare a b <> Gt.

(** Every day bucket is stored under its own date. *)
Definition dailyKeyed (st : ParseState) : Prop :=
  Forall (fun kv : string * DayBucket => d_date (snd kv) = fst kv) (st_dailyMap st).

(** The invariant of the day buckets along the loop. *)
Definition dailyInvariant (st : ParseState) : Prop :=
  dailyKeyed st
  /\ NoDup (map fst (st_dailyMap st))
  /\ NoDup (st_activityDates st)
  /\ Forall (fun kv : string * DayBucket =>
               In (fst kv) (st_activityDates st) /\ fst kv <> EmptyString)
            (st_dailyMap st)
  /\ sumQ (map d_tokens (mapValues (st_dailyMap st))) <= totalTokens (st_totals st)
  /\ (list_sum (map d_messages (mapValues (st_dailyMap st)))
      <= m_total (st_messageCounts st))%nat.


(** ** Statements about the fleet tables *)

(** The members of a list that carry a given key. *)
Definition withKey {S : Type} (key : S -> string) (k : string) (l : list S) : list S :=
  List.filter (fun s => String.eqb (key s) k) l.

(** [rows] are the groups of [l] by [key]: one row per key that occurs,
    no key twice, and each row summarises the members of its group as [P]
    says. *)
Definition GroupedBy {S R : Type} (key : S -> string) (rowKey : R -> string)
           (P : R -> list S -> Prop) (l : list S) (rows : list R) : Prop :=
  NoDup (map rowKey rows)
  /\ (forall s, In s l -> exists r, In r rows /\ rowKey r = key s)
  /\ Forall (fun r => withKey key (rowKey r) l <> [] /\ P r (withKey key (rowKey r) l)) rows.

Definition channelKey (s : SessionSummary) : string := getOr (s_channel s) "unknown".

Definition bucketKey (b : ModelBucket) : string := modelKeyOf (mb_provider b) (mb_model b).

Definition providerKey (b : ModelBucket) : string := getOr (mb_provider b) "unknown".

Definition allTools (l : list SessionSummary) : list ToolRow :=
  flat_map (fun s => tools (s_toolUsage s)) l.

Definition allBuckets (l : list SessionSummary) : list ModelBucket := flat_map s_modelUsage l.

Definition allDays (l : list SessionSummary) : list Daily := flat_map s_daily l.

(** The sum of a numeric field over the totals of a list. *)
Definition sumOver {S : Type} (f : S -> Q) (l : list S) : Q := sumQ (map f l).

Definition countOver {S : Type} (f : S -> nat) (l : list S) : nat := list_sum (map f l).


(** ** The anomaly detector: model switching *)

Record SwitchModel : Type := mkSwitchModel {
  sm_provider : string;
  sm_model : string;
  sm_tokens : Q;
  sm_cost : Q
}.

(** A row of [anomalies.modelSwitching], over the fields that the summary
    record here carries. *)
Record SwitchRow : Type := mkSwitchRow {
  sw_agentId : string;
  sw_label : option string;
  sw_switches : nat;
  sw_uniqueModels : nat;
  sw_models : list SwitchModel;
  sw_updatedAt : option Q
}.

Definition switchesModels (session : SessionSummary) : bool :=
  (1 <? s_uniqueModels session)%nat || (0 <? s_modelSwitches session)%nat.

Definition switchRowOf (session : SessionSummary) : SwitchRow :=
  {| sw_agentId := s_agentId session;
     sw_label := s_label session;
     sw_switches := s_modelSwitches session;
     sw_uniqueModels := s_uniqueModels session;
     sw_models :=
       map (fun m => {| sm_provider := getOr (mb_provider m) "unknown";
                        sm_model := getOr (mb_model m) "unknown";
                        sm_tokens := totalTokens (mb_totals m);
                        sm_cost := totalCost (mb_totals m) |})
           (firstn 8 (s_modelUsage session));
     sw_updatedAt := s_updatedAt session |}.

(** [b.switches - a.switches || b.uniqueModels - a.uniqueModels] *)
Definition switchesDesc (a b : SwitchRow) : Q :=
  let switches := natQ (sw_switches b) - natQ (sw_switches a) in
  if Qeq_bool switches 0
  then natQ (sw_uniqueModels b) - natQ (sw_uniqueModels a)
  else switches.

Definition modelSwitching (sessions : list SessionSummary) : list SwitchRow :=
  Array_sort switchesDesc (map switchRowOf (List.filter switchesModels sessions)).

(** More switches first; among equals, more models first. *)
Definition switchesThenModels (a b : SwitchRow) : Prop :=
  (sw_switches b <= sw_switches a)%nat
  /\ (sw_switches a = sw_switches b -> (sw_uniqueModels b <= sw_uniqueModels a)%nat).

(** ** Memory statistics *)

Record FileStat : Type := mkStat {
  fs_size : nat;
  fs_mtimeMs : Q
}.

(** A file found under the memory directory: its path, what [fsp.stat]
    gives ([None] when it throws), the title line found in its content
    (empty when there is none) and its content with white space collapsed,
    heading marks removed and trimmed. *)
Record MemoryFile : Type := mkMemoryFile {
  mf_path : string;
  mf_stat : option FileStat;
  mf_titleLine : string;
  mf_body : string
}.

Record MemoryDay : Type := mkMemoryDay {
  md_date : string;
  md_files : nat;
  md_bytes : nat
}.

Record MemoryRow : Type := mkMemoryRow {
  fr_path : string;
  fr_relativePath : string;
  fr_title : string;
  fr_snippet : string;
  fr_size : nat;
  fr_mtimeMs : Q
}.

Record Keyword : Type := mkKeyword {
  kw_word : string;
  kw_count : nat
}.

(** The statistics, without the two directory paths that are passed
    through. *)
Record MemoryStats : Type := mkMemoryStats {
  mem_exists : bool;
  mem_fileCount : nat;
  mem_totalBytes : nat;
  mem_newestMs : option Q;
  mem_oldestMs : option Q;
  mem_byDay : list MemoryDay;
  mem_files : list MemoryRow;
  mem_keywords : list Keyword
}.

Record MemoryAcc : Type := mkMemoryAcc {
  ma_totalBytes : nat;
  ma_newestMs : option Q;
  ma_oldestMs : option Q;
  ma_byDayMap : list (string * MemoryDay);
  ma_keywordMap : list (string * nat);
  ma_fileRows : list MemoryRow
}.

Definition endsWith (s suffix : string) : bool :=
  let n := String.length s in
  let m := String.length suffix in
  (m <=? n)%nat && String.eqb (substring (n - m) m s) suffix.

(** [/\.(md|mdx|txt)$/iu.test(filePath)] *)
Definition isMemoryText (filePath : string) : bool :=
  let lower := String_toLowerCase filePath in
  endsWith lower ".md" || endsWith lower ".mdx" || endsWith lower ".txt".

Definition countWord (m : list (string * nat)) (token : string) : list (string * nat) :=
  mapSet token (getOr (assoc token m) 0 + 1)%nat m.

Definition addMemoryDay (m : list (string * MemoryDay)) (dayStat : string * FileStat)
  : list (string * MemoryDay) :=
  let byDay := getOr (assoc (fst dayStat) m) (mkMemoryDay (fst dayStat) 0 0) in
  mapSet (fst dayStat)
         (mkMemoryDay (md_date byDay) (md_files byDay + 1)
                      (md_bytes byDay + fs_size (snd dayStat)))
         m.

Definition keywordDesc (a b : Keyword) : Q := natQ (kw_count b) - natQ (kw_count a).

Definition newestFirst (a b : MemoryRow) : Q := fr_mtimeMs b - fr_mtimeMs a.

Section Memory.
Variable getUTCFullYear getUTCMonth getUTCDate : Q -> Z.
Variable path_basename : string -> string.
Variable path_relative : string -> string -> string.

Definition titleOf (file : MemoryFile) : string :=
  if isEmpty (mf_titleLine file) then path_basename (mf_path file) else mf_titleLine file.

Definition snippetOf (file : MemoryFile) : string := trimSnippet (mf_body file) 220.

Definition memoryTokens (file : MemoryFile) : list string :=
  tokenizeWords (titleOf file ++ " " ++ snippetOf file)%string.

(** The body of the loop over the text files. *)
Definition memoryStep (workspaceDir : string) (acc : MemoryAcc) (file : MemoryFile)
  : MemoryAcc :=
  match mf_stat file with
  | None => acc
  | Some stat =>
    {| ma_totalBytes := ma_totalBytes acc + fs_size stat;
       ma_newestMs := Some (match ma_newestMs acc with
                            | None => fs_mtimeMs stat
                            | Some newest => Math_max newest (fs_mtimeMs stat)
                            end);
       ma_oldestMs := Some (match ma_oldestMs acc with
                            | None => fs_mtimeMs stat
                            | Some oldest => Math_min oldest (fs_mtimeMs stat)
                            end);
       ma_byDayMap :=
         addMemoryDay (ma_byDayMap acc)
                      (dayKeyFromMs getUTCFullYear getUTCMonth getUTCDate (fs_mtimeMs stat),
                       stat);
       ma_keywordMap := fold_left countWord (memoryTokens file) (ma_keywordMap acc);
       ma_fileRows :=
         ma_fileRows acc ++
         [ {| fr_path := mf_path file;
              fr_relativePath := path_relative workspaceDir (mf_path file);
              fr_title := titleOf file;
              fr_snippet := snippetOf file;
              fr_size := fs_size stat;
              fr_mtimeMs := fs_mtimeMs stat |} ] |}
  end.

Definition emptyMemory : MemoryAcc := mkMemoryAcc 0 None None [] [] [].

(** [collectMemoryStats], given whether the memory directory exists and
    the files that the walk of it found. *)
Definition collectMemoryStats (workspaceDir : string) (dirExists : bool)
           (found : list MemoryFile) (memoryLimit : Q) : MemoryStats :=
  if negb dirExists
  then mkMemoryStats false 0 0 None None [] [] []
  else
    let markdownFiles := List.filter (fun file => isMemoryText (mf_path file)) found in
    let acc := fold_left (memoryStep workspaceDir) markdownFiles emptyMemory in
    let fileRows := Array_sort newestFirst (ma_fileRows acc) in
    {| mem_exists := true;
       mem_fileCount := List.length fileRows;
       mem_totalBytes := ma_totalBytes acc;
       mem_newestMs := ma_newestMs acc;
       mem_oldestMs := ma_oldestMs acc;
       mem_byDay := Array_sort (fun a b => localeCompare (md_date a) (md_date b))
                               (mapValues (ma_byDayMap acc));
       mem_files := sliceTo (Math_max 10 memoryLimit) fileRows;
       mem_keywords :=
         firstn 24 (Array_sort keywordDesc
                               (map (fun kv => mkKeyword (fst kv) (snd kv))
                                    (ma_keywordMap acc))) |}.

(** The text files that could be inspected, each with its stat. *)
Definition inspected (found : list MemoryFile) : list (MemoryFile * FileStat) :=
  flat_map (fun file => match mf_stat file with
                        | Some stat => if isMemoryText (mf_path file) then [(file, stat)] else []
                        | None => []
                        end) found.

Definition dayOfStat (stat : FileStat) : string :=
  dayKeyFromMs getUTCFullYear getUTCMonth getUTCDate (fs_mtimeMs stat).

Definition dayStats (found : list MemoryFile) : list (string * FileStat) :=
  map (fun fileStat => (dayOfStat (snd fileStat), snd fileStat)) (inspected found).

Definition allMemoryTokens (found : list MemoryFile) : list string :=
  flat_map (fun fileStat => memoryTokens (fst fileStat)) (inspected found).
End Memory.

(** Newest first. *)
Definition newerRow (a b : MemoryRow) : Prop := fr_mtimeMs b <= fr_mtimeMs a.

Definition moreFrequent (a b : Keyword) : Prop := (kw_count b <= kw_count a)%nat.

(** How often a word occurs in a list of tokens. *)
Definition occurrences (word : string) (tokens0 : list string) : nat :=
  List.length (withKey (fun w => w) word tokens0).


(** ** Alerts *)

Definition DAY_MS : Q := 24 * 60 * 60 * 1000.

(** What [buildAlerts] reads of [anomalies.latencyJitter]. *)
Record Jitter : Type := mkJitter {
  j_coefficientOfVariation : Q;
  j_globalP95ToAvgRatio : Q
}.

Record Anomalies : Type := mkAnomalies {
  an_tokenSpikes : list TokenSpike;
  an_latencyJitter : option Jitter;
  an_modelSwitching : list SwitchRow
}.

Record Alert : Type := mkAlert {
  a_level : string;
  a_title : string;
  a_message : string
}.

Definition errorRate (messages0 : MessageCounts) : Q :=
  if (0 <? m_total messages0)%nat
  then natQ (m_errors messages0) / natQ (m_total messages0) * 100
  else 0.

Definition cacheRate (totals : Totals) : Q :=
  if Qlt_bool 0 (totalTokens totals)
  then t_cacheRead totals / totalTokens totals * 100
  else 0.

(** The callback of [sessions.filter] in [buildAlerts], given the reading
    of the clock taken for this session. *)
Definition isStale (now : Q) (session : SessionSummary) : bool :=
  match match s_updatedAt session with
        | Some ts => Some ts
        | None => s_lastActivity session
        end with
  | Some ts => if Qeq_bool ts 0 then false else Qlt_bool (14 * DAY_MS) (now - ts)
  | None => false
  end.

Section Alerts.
(** [x.toFixed(digits)] and [Math.round(x).toLocaleString()]. *)
Variable toFixed : nat -> Q -> string.
Variable roundLocale : Q -> string.
(** The reading of [Date.now()] taken while the session at a position is
    examined. *)
Variable clock : nat -> Q.

Fixpoint staleFrom (position : nat) (sessions : list SessionSummary) : list SessionSummary :=
  match sessions with
  | [] => []
  | session :: rest =>
    if isStale (clock position) session
    then session :: staleFrom (S position) rest
    else staleFrom (S position) rest
  end.

Definition spikeAlert (spike : TokenSpike) : Alert :=
  {| a_level := "warn";
     a_title := "Token Spike Detected";
     a_message := (sp_date spike ++ ": " ++ roundLocale (sp_tokens spike) ++ " tokens ("
                   ++ toFixed 2 (sp_ratio spike) ++ "x baseline).")%string |}.

Definition buildAlerts (totals : Totals) (messages0 : MessageCounts)
           (sessions : list SessionSummary) (memory : MemoryStats) (anomalies0 : Anomalies)
  : list Alert :=
  let staleSessions := List.length (staleFrom 0 sessions) in
  let count := List.length (an_modelSwitching anomalies0) in
  (if Qle_bool 5 (errorRate messages0)
   then [ {| a_level := "warn";
             a_title := "Error Rate Elevated";
             a_message := ("Current error rate is " ++ toFixed 1 (errorRate messages0)
                           ++ "%, above 5%.")%string |} ]
   else [])
  ++ (if Qlt_bool (cacheRate totals) 5 && Qlt_bool 5000 (totalTokens totals)
      then [ {| a_level := "info";
                a_title := "Low Cache Read Share";
                a_message := ("Cache read share is " ++ toFixed 1 (cacheRate totals)
                              ++ "%; prompt reuse opportunities may exist.")%string |} ]
      else [])
  ++ (if (0 <? staleSessions)%nat
      then [ {| a_level := "info";
                a_title := "Stale Sessions Present";
                a_message := (String_ofZ (Z.of_nat staleSessions)
                              ++ " sessions have not been updated in 14+ days.")%string |} ]
      else [])
  ++ (if mem_exists memory && (1000 <? mem_fileCount memory)%nat
      then [ {| a_level := "warn";
                a_title := "Large Memory Corpus";
                a_message := ("Memory directory has "
                              ++ String_ofZ (Z.of_nat (mem_fileCount memory))
                              ++ " files; indexing/search may slow down.")%string |} ]
      else [])
  ++ map spikeAlert (an_tokenSpikes anomalies0)
  ++ match an_latencyJitter anomalies0 with
     | Some jitter =>
       [ {| a_level := "warn";
            a_title := "Latency Jitter Detected";
            a_message := ("Latency variability high (CV "
                          ++ toFixed 1 (j_coefficientOfVariation jitter * 100)
                          ++ "%, p95/avg " ++ toFixed 2 (j_globalP95ToAvgRatio jitter)
                          ++ "x).")%string |} ]
     | None => []
     end
  ++ (if (0 <? count)%nat
      then [ {| a_level := "info";
                a_title := "Model Switching Sessions";
                a_message := (String_ofZ (Z.of_nat count) ++ " session"
                              ++ (if (count =? 1)%nat then EmptyString else "s")
                              ++ " switched model/provider in the current window.")%string |} ]
      else []).
End Alerts.

(** The place of an alert in the order in which they are raised. *)
Definition alertRank (title : string) : nat :=
  if String.eqb title "Error Rate Elevated" then 0
  else if String.eqb title "Low Cache Read Share" then 1
  else if String.eqb title "Stale Sessions Present" then 2
  else if String.eqb title "Large Memory Corpus" then 3
  else if String.eqb title "Token Spike Detected" then 4
  else if String.eqb title "Latency Jitter Detected" then 5
  else 6.


(** ** The session store index *)

(** [{ key, entry }]; [None] is a [null] key. *)
Record SessionMeta : Type := mkMeta {
  meta_key : option string;
  meta_entry : JsValue
}.

Record StoreIndex : Type := mkStoreIndex {
  byFileName : list (string * SessionMeta);
  bySessionId : list (string * list SessionMeta)
}.

(** [typeof v === "string" && v.trim()] *)
Definition nonBlankString (value : JsValue) : option string :=
  match asString value with
  | Some s => if isEmpty (String_trim s) then None else Some s
  | None => None
  end.

Section StoreIndex.
Variable path_basename : string -> string.

(** The body of the loop over [Object.entries(store)]. *)
Definition indexEntry (index : StoreIndex) (keyEntry : string * Json) : StoreIndex :=
  match asRecord (Some (snd keyEntry)) with
  | None => index
  | Some record =>
    let meta := mkMeta (Some (fst keyEntry)) (Some record) in
    {| byFileName :=
         match nonBlankString (Some record).["sessionFile"] with
         | Some sessionFile => mapSet (path_basename sessionFile) meta (byFileName index)
         | None => byFileName index
         end;
       bySessionId :=
         match nonBlankString (Some record).["sessionId"] with
         | Some sessionId =>
           mapSet sessionId (getOr (assoc sessionId (bySessionId index)) [] ++ [meta])
                  (bySessionId index)
         | None => bySessionId index
         end |}
  end.

(** [buildStoreIndex], from the entries of the store object on. *)
Definition buildStoreIndex (entries : list (string * Json)) : StoreIndex :=
  fold_left indexEntry entries (mkStoreIndex [] []).

Definition resolveSessionMeta (name derivedSessionId : string) (storeIndex : StoreIndex)
  : SessionMeta :=
  match assoc name (byFileName storeIndex) with
  | Some direct => direct
  | None =>
    match assoc derivedSessionId (bySessionId storeIndex) with
    | Some (first :: _) => first
    | _ => mkMeta None (Some JNull)
    end
  end.

(** A store entry that is a record naming a session file with this base
    name, resp. this session id. *)
Definition namesFile (name : string) (keyEntry : string * Json) : bool :=
  match nonBlankString (asRecord (Some (snd keyEntry))).["sessionFile"] with
  | Some sessionFile => String.eqb name (path_basename sessionFile)
  | None => false
  end.

Definition namesSession (sessionId : string) (keyEntry : string * Json) : bool :=
  match nonBlankString (asRecord (Some (snd keyEntry))).["sessionId"] with
  | Some id => String.eqb sessionId id
  | None => false
  end.
End StoreIndex.

Definition metaOf (keyEntry : string * Json) : SessionMeta :=
  mkMeta (Some (fst keyEntry)) (asRecord (Some (snd keyEntry))).

(** ** The requested window *)



Section RequestedWindow.
(** [Number(s)] on a string; [None] when the result is not finite. *)
Variable Number_ofString : string -> option Q.


End RequestedWindow.

(** ** The collector cache of the server *)

Record CacheEntry (P : Type) : Type := mkCacheEntry {
  createdAt : Q;
  payload : P
}.
Arguments mkCacheEntry {P}.
Arguments createdAt {P}.
Arguments payload {P}.

(** [cache.get(options)], for calls that do not overlap: [key] is
    [JSON.stringify(options)], [now] the reading of the clock and
    [collected] what [collectOpenClawMetrics] returns if it is called. *)
Definition cacheGet {P : Type} (ttlMs : Q) (cache : list (string * CacheEntry P))
           (key : string) (now : Q) (collected : P) : P * list (string * CacheEntry P) :=
  match assoc key cache with
  | Some current =>
    if Qlt_bool (now - createdAt current) ttlMs
    then (payload current, cache)
    else (collected, mapSet key (mkCacheEntry now collected) cache)
  | None => (collected, mapSet key (mkCacheEntry now collected) cache)
  end.


(** ** Sample inputs for the further parts *)

(** A memory note on deployment. *)
Definition sampleNote : MemoryFile :=
  {| mf_path := "memory/deploy.md";
     mf_stat := Some (mkStat 120 1000);
     mf_titleLine := "Deploy checklist";
     mf_body := "deploy pipeline before every deploy" |}.

Definition sampleBasename (filePath : string) : string := filePath.

Definition sampleRelative (from to : string) : string := to.

Definition sampleMemory : MemoryStats :=
  collectMemoryStats sampleYear sampleMonth sampleDay sampleBasename sampleRelative
                     "workspace" true [sampleNote] 100.

(** Formatting and the clock stand still in the samples. *)
Definition sampleFixed (digits : nat) (x : Q) : string := "0".

Definition sampleRound (x : Q) : string := "0".

Definition sampleClock (position : nat) : Q := 0.

(** One error among twenty messages. *)
Definition twentyMessages : MessageCounts := mkCounts 20 10 10 0 0 1.

Definition noAnomalies : Anomalies := mkAnomalies [] None [].


(** * Properties *)

(** ** Facts about the stable sort *)

Section ArraySortFacts.
Context {A : Type}.
Variable cmp : A -> A -> Q.

Lemma sort_insert_perm (x : A) (l : list A) :
  Permutation (sort_insert cmp x l) (x :: l).
Proof.
  induction l as [|y l IH]; simpl.
  - apply Permutation_refl.
  - destruct (Qle_bool (cmp x y) 0).
    + apply Permutation_refl.
    + eapply Permutation_trans; [apply perm_skip, IH | apply perm_swap].
Qed.

Lemma Array_sort_perm (l : list A) : Permutation (Array_sort cmp l) l.
Proof.
  induction l as [|x l IH]; simpl.
  - constructor.
  - eapply Permutation_trans; [apply sort_insert_perm | apply perm_skip, IH].
Qed.

Lemma Array_sort_length (l : list A) : List.length (Array_sort cmp l) = List.length l.
Proof. apply Permutation_length, Array_sort_perm. Qed.

Hypothesis cmp_total : forall x y, cmp x y <= 0 \/ cmp y x <= 0.
Hypothesis cmp_trans : forall x y z, cmp x y <= 0 -> cmp y z <= 0 -> cmp x z <= 0.

Lemma sort_insert_sorted (x : A) (l : list A) :
  StronglySorted (before cmp) l -> StronglySorted (before cmp) (sort_insert cmp x l).
Proof.
  induction 1 as [|y l Hs IH Hall]; simpl.
  - repeat constructor.
  - destruct (Qle_bool (cmp x y) 0) eqn:E.
    + apply Qle_bool_iff in E.
      constructor; [constructor; assumption|].
      constructor; [exact E|].
      eapply Forall_impl; [|exact Hall].
      intros z Hz. unfold before in *. eapply cmp_trans; eassumption.
    + assert (Hyx : cmp y x <= 0).
      { destruct (cmp_total x y) as [H|H]; [|exact H].
        apply Qle_bool_iff in H. congruence. }
      constructor; [exact IH|].
      eapply Permutation_Forall; [apply Permutation_sym, sort_insert_perm|].
      constructor; assumption.
Qed.

Lemma Array_sort_sorted (l : list A) : StronglySorted (before cmp) (Array_sort cmp l).
Proof.
  induction l as [|x l IH]; simpl.
  - constructor.
  - apply sort_insert_sorted, IH.
Qed.
End ArraySortFacts.

Lemma StronglySorted_adjacent {A : Type} (R : A -> A -> Prop) (l : list A) :
  StronglySorted R l ->
  forall i a b, nth_error l i = Some a -> nth_error l (S i) = Some b -> R a b.
Proof.
  induction 1 as [|x l Hs IH Hall]; intros i a b Ha Hb.
  - destruct i; discriminate.
  - destruct i as [|i]; simpl in Ha, Hb.
    + injection Ha as <-. destruct l as [|y l']; [discriminate|].
      simpl in Hb. injection Hb as <-. inversion Hall; assumption.
    + eapply IH; eassumption.
Qed.

Lemma StronglySorted_filter {A : Type} (R : A -> A -> Prop) (p : A -> bool) (l : list A) :
  StronglySorted R l -> StronglySorted R (List.filter p l).
Proof.
  induction 1 as [|x l Hs IH Hall]; simpl.
  - constructor.
  - destruct (p x); [|exact IH].
    constructor; [exact IH|].
    apply Forall_forall. intros y Hy. apply filter_In in Hy as [Hy _].
    rewrite Forall_forall in Hall. auto.
Qed.

Lemma StronglySorted_impl {A : Type} (R S : A -> A -> Prop) (l : list A) :
  (forall a b, R a b -> S a b) -> StronglySorted R l -> StronglySorted S l.
Proof.
  intros HRS. induction 1 as [|x l Hs IH Hall]; constructor; auto.
  eapply Forall_impl; [|exact Hall]. auto.
Qed.

Lemma StronglySorted_map {A B : Type} (R : B -> B -> Prop) (f : A -> B) (l : list A) :
  StronglySorted (fun a b => R (f a) (f b)) l -> StronglySorted R (map f l).
Proof.
  induction 1 as [|x l Hs IH Hall]; simpl; constructor; auto.
  apply Forall_map. exact Hall.
Qed.

(** ** Numbers *)

Lemma Math_max_ge_l (a b : Q) : a <= Math_max a b.
Proof.
  unfold Math_max. destruct (Qle_bool a b) eqn:E.
  - apply Qle_bool_iff in E. exact E.
  - apply Qle_refl.
Qed.

Lemma Math_max_nonneg (b : Q) : 0 <= Math_max 0 b.
Proof. apply Math_max_ge_l. Qed.

Lemma Qle_bool_false (a b : Q) : Qle_bool a b = false -> b < a.
Proof.
  intros E. apply Qnot_le_lt. intros H. apply Qle_bool_iff in H. congruence.
Qed.

Lemma Math_max_0_of_nonneg (b : Q) : 0 <= b -> Math_max 0 b = b.
Proof.
  intros H. unfold Math_max. apply Qle_bool_iff in H. rewrite H. reflexivity.
Qed.

Lemma Math_max_0_ge (b : Q) : b <= Math_max 0 b.
Proof.
  unfold Math_max. destruct (Qle_bool 0 b) eqn:E.
  - apply Qle_refl.
  - apply Qle_bool_false in E. apply Qlt_le_weak. exact E.
Qed.

Lemma Math_max_0_cases (b : Q) :
  (0 <= b /\ Math_max 0 b = b) \/ (b < 0 /\ Math_max 0 b = 0).
Proof.
  unfold Math_max. destruct (Qle_bool 0 b) eqn:E.
  - left. apply Qle_bool_iff in E. auto.
  - right. apply Qle_bool_false in E. auto.
Qed.

Lemma Qlt_bool_iff (a b : Q) : Qlt_bool a b = true <-> a < b.
Proof.
  unfold Qlt_bool. split.
  - intros H. apply negb_true_iff in H. apply Qle_bool_false. exact H.
  - intros H. apply negb_true_iff. destruct (Qle_bool b a) eqn:E; [|reflexivity].
    apply Qle_bool_iff in E. lra.
Qed.

Lemma filter_perm {A : Type} (p : A -> bool) (l l' : list A) :
  Permutation l l' -> Permutation (List.filter p l) (List.filter p l').
Proof.
  induction 1 as [|x l l' _ IH|x y l|l l' l'' _ IH1 _ IH2]; simpl.
  - constructor.
  - destruct (p x); [apply perm_skip|]; exact IH.
  - destruct (p x), (p y); try apply Permutation_refl. apply perm_swap.
  - eapply Permutation_trans; eassumption.
Qed.

(** ** The usage normalizer *)

(** C2, as stated, fails: a record that supplies its own total can make
    the returned total smaller than the sum of the four parts. *)
Lemma normalizeUsage_total_below_parts :
  exists u, normalizeUsage usageWithSmallTotal = Some u /\ u_total u < usageParts u.
Proof.
  eexists. split; [reflexivity|]. vm_compute. reflexivity.
Qed.

(** C2 (amended): every field of an accepted usage tuple is non-negative;
    when the record supplies no total of its own the total never exceeds
    the sum of the four parts and equals it when no part is negative in
    the record; a supplied total is returned clamped at zero, whatever the
    parts are. *)
Theorem normalizeUsage_fields (raw : JsValue) (u : Usage)
  (Hu : normalizeUsage raw = Some u) :
  UsageNonNegative u
  /\ (usageSuppliedTotal (asRecord raw) = None -> u_total u <= usageParts u)
  /\ (usageSuppliedTotal (asRecord raw) = None -> rawPartsNonNegative (asRecord raw) ->
      u_total u == usageParts u)
  /\ (forall t, usageSuppliedTotal (asRecord raw) = Some t -> u_total u = Math_max 0 t).
Proof.
  unfold normalizeUsage in Hu.
  destruct (asRecord raw) as [r|] eqn:Hr; [|discriminate].
  set (record := Some r) in *.
  destruct (Qle_bool (usageTotal record) 0 && Qle_bool (usageInput record) 0
            && Qle_bool (usageOutput record) 0 && Qle_bool (usageCacheRead record) 0
            && Qle_bool (usageCacheWrite record) 0); [discriminate|].
  injection Hu as <-.
  unfold UsageNonNegative, usageParts, rawPartsNonNegative; simpl.
  repeat split; try apply Math_max_nonneg.
  - intros Hnone. unfold usageTotal. rewrite Hnone. simpl.
    destruct (Math_max_0_cases (usageInput record)) as [[? ->]|[? ->]];
    destruct (Math_max_0_cases (usageOutput record)) as [[? ->]|[? ->]];
    destruct (Math_max_0_cases (usageCacheRead record)) as [[? ->]|[? ->]];
    destruct (Math_max_0_cases (usageCacheWrite record)) as [[? ->]|[? ->]];
    match goal with
    | |- Math_max 0 ?x <= _ => destruct (Math_max_0_cases x) as [[? ->]|[? ->]]
    end; lra.
  - intros Hnone (Hi & Ho & Hcr & Hcw). unfold usageTotal. rewrite Hnone. simpl.
    rewrite (Math_max_0_of_nonneg (usageInput record)) by assumption.
    rewrite (Math_max_0_of_nonneg (usageOutput record)) by assumption.
    rewrite (Math_max_0_of_nonneg (usageCacheRead record)) by assumption.
    rewrite (Math_max_0_of_nonneg (usageCacheWrite record)) by assumption.
    rewrite Math_max_0_of_nonneg by lra. reflexivity.
  - intros t Ht. unfold usageTotal. rewrite Ht. reflexivity.
Qed.

Lemma normalizeUsage_fields_witness :
  exists u, normalizeUsage usageWithoutTotal = Some u
            /\ UsageNonNegative u /\ u_total u == usageParts u.
Proof.
  eexists. split; [reflexivity|].
  pose proof (normalizeUsage_fields usageWithoutTotal _ eq_refl) as (Hn & _ & Heq & _).
  split; [exact Hn|].
  apply Heq; [reflexivity|].
  unfold rawPartsNonNegative; vm_compute; repeat split; discriminate.
Defined.

(** ** Latency percentile *)

Lemma numAsc_before (a b : Q) : before numAsc a b <-> a <= b.
Proof. unfold before, numAsc. split; intros; lra. Qed.

Lemma sorted_numAsc (values : list Q) : StronglySorted Qle (Array_sort numAsc values).
Proof.
  eapply StronglySorted_impl; [intros a b; apply numAsc_before|].
  apply Array_sort_sorted.
  - intros x y. unfold numAsc. destruct (Qlt_le_dec x y); [left|right]; lra.
  - intros x y z. unfold numAsc. lra.
Qed.

Lemma nearestRank95_lt (n : nat) : (0 < n)%nat -> (nearestRank95 n < n)%nat.
Proof.
  intros Hn. unfold nearestRank95, natQ.
  assert (H0 : (0 <= Qfloor (0.95 * inject_Z (Z.of_nat n)))%Z).
  { rewrite <- (Qfloor_Z 0). apply Qfloor_resp_le.
    assert (inject_Z 0 <= inject_Z (Z.of_nat n)) by (rewrite <- Zle_Qle; lia).
    change (inject_Z 0) with 0 in *. lra. }
  assert (H1 : (Qfloor (0.95 * inject_Z (Z.of_nat n)) < Z.of_nat n)%Z).
  { rewrite Zlt_Qlt. eapply Qle_lt_trans; [apply Qfloor_le|].
    assert (inject_Z 0 < inject_Z (Z.of_nat n)) by (rewrite <- Zlt_Qlt; lia).
    change (inject_Z 0) with 0 in *. lra. }
  lia.
Qed.

Lemma p95Index_nearestRank (n : nat) : (0 < n)%nat -> p95Index n = nearestRank95 n.
Proof.
  intros Hn. pose proof (nearestRank95_lt n Hn) as Hlt.
  unfold p95Index, Math_floor. unfold nearestRank95, natQ in *.
  rewrite (Qfloor_comp (inject_Z (Z.of_nat n) * 0.95) (0.95 * inject_Z (Z.of_nat n)))
    by apply Qmult_comm.
  lia.
Qed.

(** *** The element at a rank does not depend on how ties are arranged *)

Lemma rank_bounds (s : list Q) :
  StronglySorted Qle s ->
  forall k v, nth_error s k = Some v ->
    (countBelow v s <= k)%nat /\ (k < countUpTo v s)%nat.
Proof.
  induction 1 as [|x s Hs IH Hall]; intros k v Hk.
  - destruct k; discriminate.
  - unfold countBelow, countUpTo in *. simpl.
    destruct k as [|k]; simpl in Hk.
    + injection Hk as <-.
      assert (Hlt : Qlt_bool x x = false).
      { destruct (Qlt_bool x x) eqn:E; [|reflexivity]. apply Qlt_bool_iff in E. lra. }
      assert (Hle : Qle_bool x x = true) by (apply Qle_bool_iff; lra).
      rewrite Hlt, Hle. simpl. split; [|lia].
      assert (Hnone : List.filter (fun y => Qlt_bool y x) s = []).
      { clear IH Hs. induction Hall as [|y s Hy _ IH]; simpl; [reflexivity|].
        destruct (Qlt_bool y x) eqn:E; [|exact IH]. apply Qlt_bool_iff in E. lra. }
      rewrite Hnone. simpl. lia.
    + destruct (IH k v Hk) as [Hb Hu].
      assert (Hxv : x <= v).
      { rewrite Forall_forall in Hall. apply Hall. eapply nth_error_In. exact Hk. }
      assert (Hle : Qle_bool x v = true) by (apply Qle_bool_iff; exact Hxv).
      rewrite Hle. simpl. split; [|lia].
      destruct (Qlt_bool x v); simpl; lia.
Qed.

Lemma count_perm (p : Q -> bool) (l l' : list Q) :
  Permutation l l' -> List.length (List.filter p l) = List.length (List.filter p l').
Proof. intros H. apply Permutation_length, filter_perm, H. Qed.

Lemma countUpTo_le_countBelow (v w : Q) (l : list Q) :
  v < w -> (countUpTo v l <= countBelow w l)%nat.
Proof.
  intros Hvw. unfold countUpTo, countBelow.
  induction l as [|x l IH]; simpl; [lia|].
  destruct (Qle_bool x v) eqn:E.
  - apply Qle_bool_iff in E.
    assert (Hlt : Qlt_bool x w = true) by (apply Qlt_bool_iff; lra).
    rewrite Hlt. simpl. lia.
  - destruct (Qlt_bool x w); simpl; lia.
Qed.

Lemma rank_unique (s s' : list Q) (k : nat) (v v' : Q) :
  Permutation s s' -> StronglySorted Qle s -> StronglySorted Qle s' ->
  nth_error s k = Some v -> nth_error s' k = Some v' -> v == v'.
Proof.
  intros Hperm Hs Hs' Hv Hv'.
  destruct (rank_bounds s Hs k v Hv) as [Hb Hu].
  destruct (rank_bounds s' Hs' k v' Hv') as [Hb' Hu'].
  unfold countBelow, countUpTo in *.
  rewrite (count_perm (fun x => Qlt_bool x v) s s' Hperm) in Hb.
  rewrite (count_perm (fun x => Qle_bool x v) s s' Hperm) in Hu.
  destruct (Q_dec v v') as [[Hlt|Hgt]|Heq]; [| |exact Heq]; exfalso.
  - pose proof (countUpTo_le_countBelow v v' s' Hlt). unfold countUpTo, countBelow in *. lia.
  - pose proof (countUpTo_le_countBelow v' v s' Hgt). unfold countUpTo, countBelow in *. lia.
Qed.

(** C8: the p95 of a non-empty sample list is the element at index
    [floor (0.95 * n)] of the samples sorted in ascending order, whichever
    way equal samples are arranged; that index always exists, so nothing
    is interpolated or clamped; for the samples 10, 20, ..., 100 the p95
    is 100. *)
Theorem computeLatencyStats_p95 :
  (forall values : list Q, values <> [] ->
     exists stats,
       computeLatencyStats values = Some stats
       /\ (nearestRank95 (List.length values) < List.length values)%nat
       /\ (exists sorted,
             Permutation sorted values /\ StronglySorted Qle sorted
             /\ nth_error sorted (nearestRank95 (List.length values)) = Some (l_p95Ms stats))
       /\ (forall sorted,
             Permutation sorted values -> StronglySorted Qle sorted ->
             exists v, nth_error sorted (nearestRank95 (List.length values)) = Some v
                       /\ v == l_p95Ms stats))
  /\ option_map l_p95Ms (computeLatencyStats tenLatencies) = Some 100
  /\ nearestRank95 (List.length tenLatencies) = 9%nat.
Proof.
  split; [|split; reflexivity].
  intros values Hne.
  assert (Hlen : (0 < List.length values)%nat).
  { destruct values; [congruence | simpl; lia]. }
  pose proof (nearestRank95_lt _ Hlen) as Hrank.
  exists {| l_count := List.length (Array_sort numAsc values);
            l_avgMs := sumQ (Array_sort numAsc values) / lenQ (Array_sort numAsc values);
            l_p95Ms := nth (p95Index (List.length (Array_sort numAsc values)))
                           (Array_sort numAsc values) 0;
            l_minMs := nth 0 (Array_sort numAsc values) 0;
            l_maxMs := nth (List.length (Array_sort numAsc values) - 1)
                           (Array_sort numAsc values) 0 |}.
  assert (Hcode : nth_error (Array_sort numAsc values) (nearestRank95 (List.length values))
                  = Some (nth (p95Index (List.length (Array_sort numAsc values)))
                              (Array_sort numAsc values) 0)).
  { rewrite Array_sort_length, p95Index_nearestRank by exact Hlen.
    apply nth_error_nth'. rewrite Array_sort_length. exact Hrank. }
  split; [destruct values; [congruence | reflexivity]|].
  split; [exact Hrank|].
  split.
  - exists (Array_sort numAsc values).
    split; [apply Array_sort_perm|]. split; [apply sorted_numAsc | exact Hcode].
  - intros sorted Hperm Hsorted. simpl.
    destruct (nth_error sorted (nearestRank95 (List.length values))) as [v|] eqn:Ev.
    + exists v. split; [reflexivity|].
      eapply (rank_unique sorted (Array_sort numAsc values)); try eassumption.
      * eapply Permutation_trans; [exact Hperm | apply Permutation_sym, Array_sort_perm].
      * apply sorted_numAsc.
    + apply nth_error_None in Ev. rewrite (Permutation_length Hperm) in Ev. lia.
Qed.

Lemma computeLatencyStats_p95_witness :
  exists stats,
    computeLatencyStats [30; 10; 20] = Some stats
    /\ nth_error [10; 20; 30] (nearestRank95 3) = Some (l_p95Ms stats).
Proof.
  destruct (proj1 computeLatencyStats_p95 [30; 10; 20]) as (stats & Hs & _ & _ & Hall);
    [discriminate|].
  exists stats. split; [exact Hs|].
  assert (E : Some stats = Some (mkLatency 3 (60 / 3) 30 10 30)) by (rewrite <- Hs; reflexivity).
  injection E as ->. reflexivity.
Defined.

(** ** Rankings *)

Lemma Qeq_bool_false (a b : Q) : Qeq_bool a b = false -> ~ a == b.
Proof. intros E H. apply Qeq_bool_iff in H. congruence. Qed.

Lemma sortByCostThenTokens_spec (a b : Totals) :
  sortByCostThenTokens a b <= 0 <->
  totalCost b < totalCost a \/ (totalCost a == totalCost b /\ totalTokens b <= totalTokens a).
Proof.
  unfold sortByCostThenTokens.
  destruct (Qeq_bool (totalCost b - totalCost a) 0) eqn:E; simpl.
  - apply Qeq_bool_iff in E. split.
    + intros H. right. split; lra.
    + intros [H|[_ H]]; lra.
  - apply Qeq_bool_false in E. split.
    + intros H. left. apply Qnot_le_lt. intros Hle. apply E. lra.
    + intros [H|[H _]]; [lra|]. exfalso. apply E. lra.
Qed.

Lemma sortByCostThenTokens_total (a b : Totals) :
  sortByCostThenTokens a b <= 0 \/ sortByCostThenTokens b a <= 0.
Proof.
  rewrite !sortByCostThenTokens_spec.
  destruct (Q_dec (totalCost a) (totalCost b)) as [[H|H]|H].
  - right. left. exact H.
  - left. left. exact H.
  - destruct (Qlt_le_dec (totalTokens a) (totalTokens b)).
    + right. right. split; [symmetry; exact H | lra].
    + left. right. split; [exact H | lra].
Qed.

Lemma sortByCostThenTokens_trans (a b c : Totals) :
  sortByCostThenTokens a b <= 0 -> sortByCostThenTokens b c <= 0 ->
  sortByCostThenTokens a c <= 0.
Proof.
  rewrite !sortByCostThenTokens_spec.
  intros [H1|[H1 H1']] [H2|[H2 H2']].
  - left. lra.
  - left. lra.
  - left. lra.
  - right. split; lra.
Qed.

Lemma sortByCostThenTokens_ranked (a b : Totals) :
  sortByCostThenTokens a b <= 0 -> costThenTokens a b.
Proof.
  rewrite sortByCostThenTokens_spec. unfold costThenTokens.
  intros [H|[H H']]; split; intros; lra.
Qed.

(** Any table sorted with [sortByCostThenTokens] on its rows' totals is in
    the fleet ranking order. *)
Lemma sorted_table_ranked {R : Type} (totals : R -> Totals) (rows : list R) :
  forall i a b,
    nth_error (Array_sort (fun x y => sortByCostThenTokens (totals x) (totals y)) rows) i
      = Some a ->
    nth_error (Array_sort (fun x y => sortByCostThenTokens (totals x) (totals y)) rows) (S i)
      = Some b ->
    costThenTokens (totals a) (totals b).
Proof.
  intros i a b Ha Hb. apply sortByCostThenTokens_ranked.
  eapply (StronglySorted_adjacent
            (before (fun x y => sortByCostThenTokens (totals x) (totals y)))); try eassumption.
  apply Array_sort_sorted.
  - intros x y. apply sortByCostThenTokens_total.
  - intros x y z. apply sortByCostThenTokens_trans.
Qed.

Lemma countDesc_sorted (rows : list ToolRow) : RankedByCount (Array_sort countDesc rows).
Proof.
  intros i a b Ha Hb.
  assert (H : before countDesc a b).
  { eapply StronglySorted_adjacent; try eassumption.
    apply Array_sort_sorted.
    - intros x y. unfold countDesc.
      destruct (Qlt_le_dec (natQ (tr_count x)) (natQ (tr_count y))); [right|left]; lra.
    - intros x y z. unfold countDesc. lra. }
  unfold before, countDesc, natQ in H.
  assert (H' : inject_Z (Z.of_nat (tr_count b)) <= inject_Z (Z.of_nat (tr_count a))) by lra.
  rewrite <- Zle_Qle in H'. lia.
Qed.

(** C1, as stated, fails for the tools table: its rows carry a name and a
    call count, and no cost or tokens to be ranked by; the rows are in
    order of call count, whatever the sessions that made the calls cost. *)
Lemma tools_table_not_ranked_by_cost :
  ag_tools (aggregates (aggregateSessions toolSessions noFilter))
  = [mkToolRow "read" 5; mkToolRow "write" 1]
  /\ ~ RankedByCostThenTokens (ag_tools (aggregates (aggregateSessions toolSessions noFilter))).
Proof.
  split; [reflexivity|].
  intros H.
  destruct (H 0%nat (mkToolRow "read" 5) (mkToolRow "write" 1) eq_refl eq_refl)
    as (ta & tb & Ha & _).
  discriminate Ha.
Qed.

(** C1 (amended): the by-model, by-provider, by-agent and by-channel
    tables are sorted by total cost descending with ties broken by total
    tokens descending; the tools table is sorted by call count
    descending. *)
Theorem rankings_order (sessions : list SessionSummary) (filter : Filter) :
  RankedByCostThenTokens (byModel (aggregates (aggregateSessions sessions filter)))
  /\ RankedByCostThenTokens (byProvider (aggregates (aggregateSessions sessions filter)))
  /\ RankedByCostThenTokens (byAgent (aggregates (aggregateSessions sessions filter)))
  /\ RankedByCostThenTokens (byChannel (aggregates (aggregateSessions sessions filter)))
  /\ RankedByCount (ag_tools (aggregates (aggregateSessions sessions filter))).
Proof.
  unfold aggregateSessions; simpl.
  repeat split.
  - intros i a b Ha Hb. exists (mr_totals a), (mr_totals b).
    repeat split; try reflexivity; eapply (sorted_table_ranked mr_totals); eassumption.
  - intros i a b Ha Hb. exists (pr_totals a), (pr_totals b).
    repeat split; try reflexivity; eapply (sorted_table_ranked pr_totals); eassumption.
  - intros i a b Ha Hb. exists (ar_totals a), (ar_totals b).
    repeat split; try reflexivity; eapply (sorted_table_ranked ar_totals); eassumption.
  - intros i a b Ha Hb. exists (cr_totals a), (cr_totals b).
    repeat split; try reflexivity; eapply (sorted_table_ranked cr_totals); eassumption.
  - apply countDesc_sorted.
Qed.

(** ** The sessions of the payload *)

Lemma byUpdatedAtDesc_sorted (summaries : list SessionSummary) :
  StronglySorted moreRecent (Array_sort byUpdatedAtDesc summaries).
Proof.
  eapply StronglySorted_impl with (R := before byUpdatedAtDesc).
  - intros a b. unfold before, byUpdatedAtDesc, moreRecent, updatedAtOf. lra.
  - apply Array_sort_sorted.
    + intros x y. unfold byUpdatedAtDesc.
      destruct (Qlt_le_dec (getOr (s_updatedAt x) 0) (getOr (s_updatedAt y) 0));
        [right|left]; lra.
    + intros x y z. unfold byUpdatedAtDesc. lra.
Qed.

(** C3, as stated, fails: with a limit of one session, the payload keeps
    the most recently updated session, not the costliest one. *)
Lemma topSessions_not_by_ranking :
  topSessions limitOne [costlyOld; cheapRecent] = [cheapRecent]
  /\ topSessionsByRanking limitOne [costlyOld; cheapRecent] = [costlyOld]
  /\ topSessions limitOne [costlyOld; cheapRecent]
     <> topSessionsByRanking limitOne [costlyOld; cheapRecent].
Proof.
  assert (H1 : topSessions limitOne [costlyOld; cheapRecent] = [cheapRecent])
    by (vm_compute; reflexivity).
  assert (H2 : topSessionsByRanking limitOne [costlyOld; cheapRecent] = [costlyOld])
    by (vm_compute; reflexivity).
  repeat split; try assumption.
  rewrite H1, H2. intros H. injection H as H. discriminate H.
Qed.

(** C3 (amended): the sessions list of the payload consists of the first
    [sessionLimit] sessions of the filtered set taken in order of their
    update time, most recently updated first. *)
Theorem topSessions_by_recency (options : Options) (summaries : list SessionSummary) :
  exists ordered,
    Permutation ordered
      (List.filter (keep (mkFilter (selected (o_agent options)) (selected (o_channel options))))
                   summaries)
    /\ StronglySorted moreRecent ordered
    /\ topSessions options summaries
       = firstn (Z.to_nat (Qfloor (sessionLimitOf options))) ordered.
Proof.
  exists (List.filter
            (keep (mkFilter (selected (o_agent options)) (selected (o_channel options))))
            (Array_sort byUpdatedAtDesc summaries)).
  split; [apply filter_perm, Array_sort_perm|].
  split; [apply StronglySorted_filter, byUpdatedAtDesc_sorted|].
  reflexivity.
Qed.

(** ** Fleet latency *)

Lemma fold_Qplus_shift (l : list Q) (a : Q) : fold_left Qplus l a == a + sumQ l.
Proof.
  unfold sumQ. revert a. induction l as [|x l IH]; intros a; simpl.
  - lra.
  - rewrite (IH (a + x)), (IH (0 + x)). lra.
Qed.

Lemma sumQ_cons (x : Q) (l : list Q) : sumQ (x :: l) == x + sumQ l.
Proof. unfold sumQ at 1. simpl. rewrite fold_Qplus_shift. lra. Qed.

Lemma natQ_add (a b : nat) : natQ (a + b) == natQ a + natQ b.
Proof. unfold natQ. rewrite Nat2Z.inj_add, inject_Z_plus. reflexivity. Qed.

Lemma natQ_pos (n : nat) : (0 < n)%nat -> 0 < natQ n.
Proof.
  intros H. unfold natQ. change 0 with (inject_Z 0). rewrite <- Zlt_Qlt. lia.
Qed.

Lemma fleet_latency_fold (l : list SessionSummary) (acc : FleetAcc) :
  fa_latency (fold_left aggregateStep l acc)
  = fold_left foldLatency (map s_latency l) (fa_latency acc).
Proof.
  revert acc. induction l as [|s l IH]; intros acc; simpl; [reflexivity|].
  rewrite IH. reflexivity.
Qed.

Lemma foldLatency_latenciesOf (l : list SessionSummary) (acc : LatencyAcc) :
  fold_left foldLatency (map s_latency l) acc
  = fold_left (fun a x => foldLatency a (Some x)) (latenciesOf l) acc.
Proof.
  revert acc. induction l as [|s l IH]; intros acc; simpl; [reflexivity|].
  unfold latenciesOf in *. simpl. rewrite fold_left_app, IH.
  destruct (s_latency s) as [x|]; simpl; [|reflexivity].
  destruct (l_count x =? 0)%nat eqn:E; simpl; [reflexivity|].
  rewrite E. reflexivity.
Qed.

Lemma latenciesOf_counted (l : list SessionSummary) :
  Forall (fun x => l_count x <> 0%nat) (latenciesOf l).
Proof.
  induction l as [|s l IH]; simpl; [constructor|].
  unfold latenciesOf in *. simpl. apply Forall_app. split; [|exact IH].
  destruct (s_latency s) as [x|]; [|constructor].
  destruct (l_count x =? 0)%nat eqn:E; constructor; [|constructor].
  apply Nat.eqb_neq. exact E.
Qed.

(** The accumulator after folding latency stats that all count. *)
Lemma foldLatency_all (ls : list LatencyStats) (acc : LatencyAcc) :
  Forall (fun x => l_count x <> 0%nat) ls ->
  let r := fold_left (fun a x => foldLatency a (Some x)) ls acc in
  la_count r = (la_count acc + totalCount ls)%nat
  /\ la_sum r == la_sum acc + weightedSum ls
  /\ la_max r = fold_left Math_max (map l_maxMs ls) (la_max acc)
  /\ la_p95Max r = fold_left Math_max (map l_p95Ms ls) (la_p95Max acc)
  /\ la_min r = fold_left minExt (map l_minMs ls) (la_min acc).
Proof.
  intros Hall. revert acc. induction Hall as [|x ls Hx _ IH]; intros acc; simpl.
  - unfold totalCount, weightedSum, sumQ. simpl. repeat split; try reflexivity; try lia. lra.
  - apply Nat.eqb_neq in Hx. rewrite Hx.
    destruct (IH {| la_count := la_count acc + l_count x;
                    la_sum := la_sum acc + l_avgMs x * natQ (l_count x);
                    la_min := minExt (la_min acc) (l_minMs x);
                    la_max := Math_max (la_max acc) (l_maxMs x);
                    la_p95Max := Math_max (la_p95Max acc) (l_p95Ms x) |})
      as (Hc & Hs & Hmax & Hp & Hmin).
    simpl in *. repeat split; try assumption.
    + rewrite Hc. unfold totalCount. simpl. lia.
    + rewrite Hs. unfold weightedSum. simpl. rewrite sumQ_cons. lra.
Qed.

Lemma Math_max_cases (a b : Q) :
  (a <= b /\ Math_max a b = b) \/ (b < a /\ Math_max a b = a).
Proof.
  unfold Math_max. destruct (Qle_bool a b) eqn:E.
  - left. apply Qle_bool_iff in E. auto.
  - right. apply Qle_bool_false in E. auto.
Qed.

Lemma Math_min_cases (a b : Q) :
  (a <= b /\ Math_min a b = a) \/ (b < a /\ Math_min a b = b).
Proof.
  unfold Math_min. destruct (Qle_bool a b) eqn:E.
  - left. apply Qle_bool_iff in E. auto.
  - right. apply Qle_bool_false in E. auto.
Qed.

Lemma fold_max_is_maximum (l : list Q) (a : Q) :
  IsMaximum (fold_left Math_max l a) (a :: l).
Proof.
  revert a. induction l as [|x l IH]; intros a; simpl.
  - split; [left; reflexivity|]. intros y [<-|[]]. apply Qle_refl.
  - destruct (IH (Math_max a x)) as [Hin Hub]. split.
    + destruct Hin as [Hin|Hin]; [|right; right; exact Hin].
      rewrite <- Hin. destruct (Math_max_cases a x) as [[_ ->]|[_ ->]]; simpl; auto.
    + intros y Hy.
      assert (Hm : Math_max a x <= fold_left Math_max l (Math_max a x))
        by (apply Hub; left; reflexivity).
      destruct Hy as [Hy|[Hy|Hy]]; [subst y..|].
      * destruct (Math_max_cases a x) as [[? E]|[? E]]; rewrite E in Hm |- *; lra.
      * destruct (Math_max_cases a x) as [[? E]|[? E]]; rewrite E in Hm |- *; lra.
      * apply Hub. right. exact Hy.
Qed.

Lemma fold_min_is_minimum (l : list Q) (a : Q) :
  exists m, fold_left minExt l (Fin a) = Fin m /\ IsMinimum m (a :: l).
Proof.
  revert a. induction l as [|x l IH]; intros a; simpl.
  - exists a. split; [reflexivity|]. split; [left; reflexivity|].
    intros y [<-|[]]. apply Qle_refl.
  - destruct (IH (Math_min a x)) as (m & Hm & Hin & Hlb).
    exists m. split; [exact Hm|]. split.
    + destruct Hin as [Hin|Hin]; [|right; right; exact Hin].
      rewrite <- Hin. destruct (Math_min_cases a x) as [[_ ->]|[_ ->]]; simpl; auto.
    + intros y Hy.
      assert (Hmm : m <= Math_min a x) by (apply Hlb; left; reflexivity).
      destruct Hy as [Hy|[Hy|Hy]]; [subst y..|].
      * destruct (Math_min_cases a x) as [[? E]|[? E]]; rewrite E in Hmm; lra.
      * destruct (Math_min_cases a x) as [[? E]|[? E]]; rewrite E in Hmm; lra.
      * apply Hlb. right. exact Hy.
Qed.

(** Starting from 0, the running maximum of non-negative numbers is their
    maximum. *)
Lemma fold_max_from_zero (l : list Q) :
  l <> [] -> Forall (fun x => 0 <= x) l -> IsMaximum (fold_left Math_max l 0) l.
Proof.
  intros Hne Hall. destruct l as [|x l]; [congruence|]. simpl.
  inversion Hall as [|? ? Hx _]; subst.
  rewrite Math_max_0_of_nonneg by exact Hx.
  apply fold_max_is_maximum.
Qed.

Lemma fold_max_with_zero (l : list Q) : IsMaximum (fold_left Math_max l 0) (0 :: l).
Proof. apply fold_max_is_maximum. Qed.

(** C9, as first stated, fails for the maximum and the p95: a duration is
    taken as the transcript gives it, so a transcript whose one assistant
    record carries [durationMs: -5] has a session maximum and p95 of -5,
    while the fleet's running maxima start at 0 and stay there. *)
Lemma fleet_max_starts_at_zero :
  s_latency negativeSession = Some (mkLatency 1 (-5 / 1) (-5) (-5) (-5))
  /\ map l_maxMs (latenciesOf (filtered (aggregateSessions [negativeSession] noFilter)))
     = [-5]
  /\ map l_p95Ms (latenciesOf (filtered (aggregateSessions [negativeSession] noFilter)))
     = [-5]
  /\ exists fl,
       ag_latency (aggregateSessions [negativeSession] noFilter) = Some fl
       /\ fl_maxMs fl = 0 /\ fl_p95Ms fl = 0
       /\ ~ IsMaximum (fl_maxMs fl)
             (map l_maxMs (latenciesOf (filtered (aggregateSessions [negativeSession]
                                                                    noFilter))))
       /\ ~ IsMaximum (fl_p95Ms fl)
             (map l_p95Ms (latenciesOf (filtered (aggregateSessions [negativeSession]
                                                                    noFilter)))).
Proof.
  split; [vm_compute; reflexivity|].
  split; [vm_compute; reflexivity|].
  split; [vm_compute; reflexivity|].
  eexists. split; [vm_compute; reflexivity|].
  split; [reflexivity|]. split; [reflexivity|].
  split; vm_compute; intros [[H|[]] _]; discriminate H.
Qed.

(** C9 (corrected): over the sessions that have a nonzero latency count,
    the fleet latency average is the count-weighted mean of the
    per-session averages and the fleet minimum is the minimum of the
    per-session minima; the fleet maximum and p95 are running maxima
    started at 0, that is the maxima of 0 and the per-session maxima,
    resp. p95 values, and so they are the maxima of the per-session values
    whenever none of those is negative.  Nothing is recomputed from raw
    samples. *)
Theorem fleet_latency_reconstruction (sessions : list SessionSummary) (filter : Filter)
  (Hsome : latenciesOf (filtered (aggregateSessions sessions filter)) <> []) :
  exists fl lo,
    ag_latency (aggregateSessions sessions filter) = Some fl
    /\ fl_count fl = totalCount (latenciesOf (filtered (aggregateSessions sessions filter)))
    /\ fl_avgMs fl ==
       weightedSum (latenciesOf (filtered (aggregateSessions sessions filter)))
       / natQ (totalCount (latenciesOf (filtered (aggregateSessions sessions filter))))
    /\ fl_minMs fl = Fin lo
    /\ IsMinimum lo (map l_minMs (latenciesOf (filtered (aggregateSessions sessions filter))))
    /\ IsMaximum (fl_maxMs fl)
         (0 :: map l_maxMs (latenciesOf (filtered (aggregateSessions sessions filter))))
    /\ IsMaximum (fl_p95Ms fl)
         (0 :: map l_p95Ms (latenciesOf (filtered (aggregateSessions sessions filter))))
    /\ (Forall (fun l => 0 <= l_maxMs l /\ 0 <= l_p95Ms l)
               (latenciesOf (filtered (aggregateSessions sessions filter))) ->
        IsMaximum (fl_maxMs fl)
          (map l_maxMs (latenciesOf (filtered (aggregateSessions sessions filter))))
        /\ IsMaximum (fl_p95Ms fl)
             (map l_p95Ms (latenciesOf (filtered (aggregateSessions sessions filter))))).
Proof.
  unfold aggregateSessions in *; simpl in *.
  set (kept := List.filter (keep filter) sessions) in *.
  rewrite fleet_latency_fold, foldLatency_latenciesOf.
  pose proof (latenciesOf_counted kept) as Hcounted.
  destruct (foldLatency_all (latenciesOf kept) (fa_latency emptyFleet) Hcounted)
    as (Hc & Hs & Hmax & Hp & Hmin).
  set (r := fold_left (fun a x => foldLatency a (Some x)) (latenciesOf kept)
                      (fa_latency emptyFleet)) in *.
  simpl in Hc, Hs, Hmax, Hp, Hmin.
  assert (Hcount : (0 < totalCount (latenciesOf kept))%nat).
  { destruct (latenciesOf kept) as [|x ls]; [congruence|].
    inversion Hcounted; subst. unfold totalCount. simpl. lia. }
  assert (Hmin' : exists lo, la_min r = Fin lo
                             /\ IsMinimum lo (map l_minMs (latenciesOf kept))).
  { rewrite Hmin. destruct (latenciesOf kept) as [|x ls]; [congruence|].
    simpl. apply fold_min_is_minimum. }
  destruct Hmin' as (lo & Hlo & Hlomin).
  unfold latencyResult. rewrite Hc.
  assert (E : (0 <? totalCount (latenciesOf kept))%nat = true) by (apply Nat.ltb_lt; exact Hcount).
  rewrite E. eexists. exists lo. split; [reflexivity|]. simpl.
  split; [reflexivity|].
  split; [rewrite Hs; field; intros H0; pose proof (natQ_pos _ Hcount); lra|].
  split; [exact Hlo|].
  split; [exact Hlomin|].
  split; [rewrite Hmax; apply fold_max_with_zero|].
  split; [rewrite Hp; apply fold_max_with_zero|].
  intros Hpos. split.
  - rewrite Hmax. apply fold_max_from_zero.
    + intros H. apply map_eq_nil in H. congruence.
    + apply Forall_map. eapply Forall_impl; [|exact Hpos]. intros a [H _]. exact H.
  - rewrite Hp. apply fold_max_from_zero.
    + intros H. apply map_eq_nil in H. congruence.
    + apply Forall_map. eapply Forall_impl; [|exact Hpos]. intros a [_ H]. exact H.
Qed.

Lemma fleet_latency_reconstruction_witness :
  exists fl,
    ag_latency (aggregateSessions latencySessions noFilter) = Some fl
    /\ fl_count fl = 5%nat
    /\ fl_avgMs fl == 160
    /\ fl_minMs fl = Fin 20
    /\ IsMaximum (fl_maxMs fl) [150; 400]
    /\ IsMaximum (fl_p95Ms fl) [150; 400].
Proof.
  destruct (fleet_latency_reconstruction latencySessions noFilter)
    as (fl & lo & Hfl & Hcount & Havg & Hlo & _ & _ & _ & Hmax);
    [vm_compute; discriminate|].
  exists fl. split; [exact Hfl|].
  split; [exact Hcount|].
  split; [rewrite Havg; vm_compute; reflexivity|].
  split; [rewrite Hlo; f_equal
          | apply Hmax; vm_compute; repeat constructor; discriminate].
  assert (H : Some fl = Some (mkFleetLatency 5 (800 / 5) (Fin 20) 400 400))
    by (rewrite <- Hfl; reflexivity).
  injection H as ->. simpl in Hlo. injection Hlo as <-. reflexivity.
Defined.

(** ** The session parser *)

Section ParserFacts.
Variable JSON_parse : string -> option Json.
Variable Date_parse : string -> option Q.
Variables getUTCFullYear getUTCMonth getUTCDate : Q -> Z.

Local Abbreviation foldRecord' :=
  (foldRecord Date_parse getUTCFullYear getUTCMonth getUTCDate).
Local Abbreviation processLine' :=
  (processLine JSON_parse Date_parse getUTCFullYear getUTCMonth getUTCDate).
Local Abbreviation parseLines' :=
  (parseLines JSON_parse Date_parse getUTCFullYear getUTCMonth getUTCDate).
Local Abbreviation parseSessionFile' :=
  (parseSessionFile JSON_parse Date_parse getUTCFullYear getUTCMonth getUTCDate).
Local Abbreviation recordOfLine' := (recordOfLine JSON_parse Date_parse).
Local Abbreviation recordsOf' := (recordsOf JSON_parse Date_parse).
Local Abbreviation assistantKeys' := (assistantKeys JSON_parse Date_parse).
Local Abbreviation usageKeys' := (usageKeys JSON_parse Date_parse).

(** A line either leaves the state alone or folds exactly one record. *)
Lemma recordOfLine_cases (range : Range) (rawLine : string) :
  recordOfLine' range rawLine = []
  \/ exists record, recordOfLine' range rawLine = [record]
                    /\ processed Date_parse range record = true.
Proof.
  unfold recordOfLine.
  destruct (isEmpty (String_trim rawLine)); [left; reflexivity|].
  destruct (JSON_parse (String_trim rawLine)) as [parsed|]; [|left; reflexivity].
  destruct (processed Date_parse range (Some parsed)) eqn:E; [|left; reflexivity].
  right. exists (Some parsed). split; [reflexivity | exact E].
Qed.

Lemma processLine_skip (range : Range) (st : ParseState) (rawLine : string) :
  recordOfLine' range rawLine = [] -> processLine' range st rawLine = st.
Proof.
  unfold recordOfLine, processLine, processRecord.
  destruct (isEmpty (String_trim rawLine)); [reflexivity|].
  destruct (JSON_parse (String_trim rawLine)) as [parsed|]; [|reflexivity].
  destruct (processed Date_parse range (Some parsed)); [discriminate | reflexivity].
Qed.

Lemma processLine_record (range : Range) (st : ParseState) (rawLine : string)
      (record : JsValue) :
  recordOfLine' range rawLine = [record] ->
  processLine' range st rawLine = foldRecord' st record.
Proof.
  unfold recordOfLine, processLine, processRecord.
  destruct (isEmpty (String_trim rawLine)); [discriminate|].
  destruct (JSON_parse (String_trim rawLine)) as [parsed|]; [|discriminate].
  destruct (processed Date_parse range (Some parsed)); [|discriminate].
  intros H. injection H as <-. reflexivity.
Qed.

Lemma parseLines_snoc (range : Range) (lines : list string) (rawLine : string) :
  parseLines' range (lines ++ [rawLine]) = processLine' range (parseLines' range lines) rawLine.
Proof. unfold parseLines. rewrite fold_left_app. reflexivity. Qed.

(** C6: a line that [JSON.parse] rejects changes nothing: the summary of a
    transcript containing it is the summary of the transcript without it,
    wherever the line stands.  (The parser is a total function of the
    lines, so no line can abort it.) *)
Theorem malformed_line_skipped (params : ParseParams) (before after : list string)
  (bad : string) (Hbad : JSON_parse (String_trim bad) = None) :
  parseSessionFile' params (before ++ bad :: after) = parseSessionFile' params (before ++ after).
Proof.
  unfold parseSessionFile, parseLines. f_equal.
  rewrite !fold_left_app. simpl. f_equal.
  unfold processLine. rewrite Hbad.
  destruct (isEmpty (String_trim bad)); reflexivity.
Qed.

Lemma foldRecord_totals (st : ParseState) (record : JsValue) :
  st_totals (foldRecord' st record) =
  match normalizeUsage (usageRawOf record) with
  | Some u => applyEntryCost record (applyUsageTotals (st_totals st) u)
  | None => st_totals st
  end.
Proof. reflexivity. Qed.

(** C7: a record that yields a usage tuple and carries no cost
    information (no nested breakdown with a non-negative total, no flat
    cost total) raises [missingCostEntries] by exactly one and leaves
    [totalCost] as it was, both in the running totals and in the summary
    of the session the record's line is appended to. *)
Theorem missing_cost_entry (rawLine : string) (record : JsValue) (u : Usage)
  (range0 : Range)
  (Hline : recordOfLine' range0 rawLine = [record])
  (Husage : normalizeUsage (usageRawOf record) = Some u)
  (Hnocost : noCostInformation record) :
  (forall st : ParseState,
     missingCostEntries (st_totals (processLine' range0 st rawLine))
     = S (missingCostEntries (st_totals st))
     /\ totalCost (st_totals (processLine' range0 st rawLine)) = totalCost (st_totals st))
  /\ (forall (params : ParseParams) (lines : list string),
        range params = range0 ->
        missingCostEntries (s_totals (parseSessionFile' params (lines ++ [rawLine])))
        = S (missingCostEntries (s_totals (parseSessionFile' params lines)))
        /\ totalCost (s_totals (parseSessionFile' params (lines ++ [rawLine])))
           = totalCost (s_totals (parseSessionFile' params lines))).
Proof.
  assert (Hstep : forall st : ParseState,
     missingCostEntries (st_totals (processLine' range0 st rawLine))
     = S (missingCostEntries (st_totals st))
     /\ totalCost (st_totals (processLine' range0 st rawLine)) = totalCost (st_totals st)).
  { intros st. rewrite (processLine_record _ _ _ _ Hline), foldRecord_totals, Husage.
    destruct Hnocost as [Hb Hr]. unfold applyEntryCost. rewrite Hb, Hr. simpl.
    split; [apply Nat.add_1_r | reflexivity]. }
  split; [exact Hstep|].
  intros params lines Hrange. unfold parseSessionFile. simpl.
  rewrite Hrange, parseLines_snoc. apply Hstep.
Qed.

(** *** Model switches *)

Lemma modelKeyOf_nonempty (provider model : option string) :
  isEmpty (modelKeyOf provider model) = false.
Proof.
  unfold modelKeyOf. destruct (getOr provider "unknown"); reflexivity.
Qed.

Lemma foldRecord_modelSwitches (st : ParseState) (record : JsValue) :
  st_modelSwitches (foldRecord' st record) =
  match st_previousAssistantModelKey st with
  | Some previous =>
    if isRole (roleOfRecord record) assistant && negb (isEmpty previous)
       && known (modelKeyOfRecord record)
       && negb (String.eqb (modelKeyOfRecord record) previous)
    then (st_modelSwitches st + 1)%nat
    else st_modelSwitches st
  | None => st_modelSwitches st
  end.
Proof. reflexivity. Qed.

Lemma foldRecord_previous (st : ParseState) (record : JsValue) :
  st_previousAssistantModelKey (foldRecord' st record) =
  if isRole (roleOfRecord record) assistant && known (modelKeyOfRecord record)
  then Some (modelKeyOfRecord record)
  else st_previousAssistantModelKey st.
Proof. reflexivity. Qed.

Lemma assistantKeys_cons (range : Range) (rawLine : string) (lines : list string) :
  assistantKeys' range (rawLine :: lines) =
  map modelKeyOfRecord
      (List.filter (fun r => isRole (roleOfRecord r) assistant) (recordOfLine' range rawLine))
  ++ assistantKeys' range lines.
Proof.
  unfold assistantKeys, recordsOf. simpl. rewrite filter_app, map_app. reflexivity.
Qed.

Lemma modelSwitches_fold (range : Range) (lines : list string) (st : ParseState) :
  previousNonEmpty st ->
  st_modelSwitches (fold_left (processLine' range) lines st)
  = (st_modelSwitches st
     + switchesFrom (st_previousAssistantModelKey st) (assistantKeys' range lines))%nat.
Proof.
  revert st. induction lines as [|rawLine lines IH]; intros st Hinv; simpl.
  - unfold assistantKeys, recordsOf. simpl. lia.
  - rewrite assistantKeys_cons.
    destruct (recordOfLine_cases range rawLine) as [Hnone|(record & Hrec & _)].
    + rewrite (processLine_skip _ _ _ Hnone), Hnone. simpl. apply IH, Hinv.
    + rewrite (processLine_record _ _ _ _ Hrec), Hrec. simpl.
      rewrite IH.
      * rewrite foldRecord_modelSwitches, foldRecord_previous.
        destruct (isRole (roleOfRecord record) assistant) eqn:Erole; simpl.
        -- destruct (st_previousAssistantModelKey st) as [p|] eqn:Eprev.
           ++ rewrite (Hinv p Eprev). simpl.
              destruct (known (modelKeyOfRecord record)); simpl.
              ** destruct (String.eqb (modelKeyOfRecord record) p); simpl; lia.
              ** reflexivity.
           ++ rewrite andb_false_r. simpl.
              destruct (known (modelKeyOfRecord record)); reflexivity.
        -- destruct (st_previousAssistantModelKey st); reflexivity.
      * intros p Hp. rewrite foldRecord_previous in Hp.
        destruct (isRole (roleOfRecord record) assistant && known (modelKeyOfRecord record)).
        -- injection Hp as <-. apply modelKeyOf_nonempty.
        -- apply Hinv, Hp.
Qed.

Lemma lastKnown_snoc (seen : list string) (key : string) :
  lastKnown (seen ++ [key]) = if known key then Some key else lastKnown seen.
Proof.
  unfold lastKnown. rewrite filter_app. simpl.
  destruct (known key); simpl.
  - rewrite rev_app_distr. reflexivity.
  - rewrite app_nil_r. reflexivity.
Qed.

Lemma switchesFrom_positions (seen turns : list string) :
  switchesFrom (lastKnown seen) turns
  = List.length (List.filter (isSwitchAt (seen ++ turns))
                             (seq (List.length seen) (List.length turns))).
Proof.
  revert seen. induction turns as [|key rest IH]; intros seen; simpl; [reflexivity|].
  assert (Hat : isSwitchAt (seen ++ key :: rest) (List.length seen)
                = known key && match lastKnown seen with
                               | Some p => negb (String.eqb key p)
                               | None => false
                               end).
  { unfold isSwitchAt. rewrite nth_error_app2 by lia. rewrite Nat.sub_diag. simpl.
    rewrite firstn_app, Nat.sub_diag, firstn_all. simpl. rewrite app_nil_r. reflexivity. }
  rewrite Hat.
  specialize (IH (seen ++ [key])).
  rewrite lastKnown_snoc, <- app_assoc, length_app in IH. simpl in IH.
  replace (List.length seen + 1)%nat with (S (List.length seen)) in IH by lia.
  rewrite IH.
  destruct (known key && match lastKnown seen with
                         | Some p => negb (String.eqb key p)
                         | None => false
                         end); simpl; reflexivity.
Qed.

Lemma switchesFrom_switchPositions (turns : list string) :
  switchesFrom None turns = switchPositions turns.
Proof. apply (switchesFrom_positions [] turns). Qed.

Lemma modelSwitches_parse (params : ParseParams) (lines : list string) :
  s_modelSwitches (parseSessionFile' params lines)
  = switchPositions (assistantKeys' (range params) lines).
Proof.
  unfold parseSessionFile. simpl. unfold parseLines.
  rewrite modelSwitches_fold by (intros p Hp; discriminate Hp).
  simpl. apply switchesFrom_switchPositions.
Qed.

(** *** Unique models *)

Lemma setHas_In (k : string) (s : list string) : setHas k s = true <-> In k s.
Proof.
  induction s as [|k' s IH]; simpl.
  - split; [discriminate | tauto].
  - rewrite orb_true_iff, IH, String.eqb_eq. split; intros [H|H]; auto.
Qed.

Lemma setAdd_NoDup (k : string) (s : list string) : NoDup s -> NoDup (setAdd k s).
Proof.
  intros Hs. unfold setAdd. destruct (setHas k s) eqn:E; [exact Hs|].
  apply NoDup_app; [exact Hs | repeat constructor; intros [] | ].
  intros x Hx [<-|[]]. apply setHas_In in Hx. congruence.
Qed.

Lemma fold_setAdd_NoDup (l acc : list string) :
  NoDup acc -> NoDup (fold_left (fun s k => setAdd k s) l acc).
Proof.
  revert acc. induction l as [|k l IH]; intros acc Hacc; simpl; [exact Hacc|].
  apply IH, setAdd_NoDup, Hacc.
Qed.

Lemma fold_setAdd_fresh (l acc : list string) :
  NoDup (acc ++ l) -> fold_left (fun s k => setAdd k s) l acc = acc ++ l.
Proof.
  revert acc. induction l as [|k l IH]; intros acc Hnd; simpl.
  - rewrite app_nil_r. reflexivity.
  - assert (Hk : setHas k acc = false).
    { destruct (setHas k acc) eqn:E; [|reflexivity].
      apply setHas_In in E. apply NoDup_remove_2 in Hnd.
      exfalso. apply Hnd. apply in_or_app. left. exact E. }
    assert (Hadd : setAdd k acc = acc ++ [k]) by (unfold setAdd; rewrite Hk; reflexivity).
    rewrite Hadd.
    rewrite IH; rewrite <- app_assoc; [reflexivity | exact Hnd].
Qed.

Lemma setOfList_NoDup (l : list string) : NoDup l -> setOfList l = l.
Proof. intros H. apply (fold_setAdd_fresh l []). exact H. Qed.

Lemma map_fst_mapSet {V : Type} (k : string) (v : V) (m : list (string * V)) :
  map fst (mapSet k v m) = setAdd k (map fst m).
Proof.
  unfold setAdd. induction m as [|[k' v'] m IH]; simpl; [reflexivity|].
  destruct (String.eqb k k') eqn:E; simpl; [reflexivity|].
  rewrite IH. destruct (setHas k (map fst m)); reflexivity.
Qed.

Lemma Forall_mapSet {V : Type} (P : string * V -> Prop) (k : string) (v : V)
      (m : list (string * V)) :
  Forall P m -> P (k, v) -> Forall P (mapSet k v m).
Proof.
  intros Hm Hkv. induction Hm as [|[k' v'] m Hx Hm IH]; simpl.
  - constructor; [exact Hkv | constructor].
  - destruct (String.eqb k k') eqn:E.
    + apply String.eqb_eq in E. subst k'. constructor; assumption.
    + constructor; assumption.
Qed.

Lemma assoc_In {V : Type} (k : string) (v : V) (m : list (string * V)) :
  assoc k m = Some v -> In (k, v) m.
Proof.
  induction m as [|[k' v'] m IH]; simpl; [discriminate|].
  destruct (String.eqb k k') eqn:E.
  - apply String.eqb_eq in E. subst k'. intros H. injection H as ->. left. reflexivity.
  - intros H. right. apply IH, H.
Qed.

Lemma foldRecord_modelMap (st : ParseState) (record : JsValue) :
  st_modelMap (foldRecord' st record) =
  match normalizeUsage (usageRawOf record) with
  | Some u =>
    let modelBucket :=
      getOr (assoc (modelKeyOfRecord record) (st_modelMap st))
            (mkModelBucket (stringField (messageOf record) record "provider")
                           (stringField (messageOf record) record "model") 0 createTotals) in
    mapSet (modelKeyOfRecord record)
           (mkModelBucket (mb_provider modelBucket) (mb_model modelBucket)
                          (mb_count modelBucket + 1)
                          (applyEntryCost record (applyUsageTotals (mb_totals modelBucket) u)))
           (st_modelMap st)
  | None => st_modelMap st
  end.
Proof. reflexivity. Qed.

Lemma foldRecord_modelMap_keys (st : ParseState) (record : JsValue) :
  keyedByModel (st_modelMap st) ->
  keyedByModel (st_modelMap (foldRecord' st record))
  /\ map fst (st_modelMap (foldRecord' st record))
     = if isSome (normalizeUsage (usageRawOf record))
       then setAdd (modelKeyOfRecord record) (map fst (st_modelMap st))
       else map fst (st_modelMap st).
Proof.
  intros Hkeyed. rewrite foldRecord_modelMap.
  destruct (normalizeUsage (usageRawOf record)) as [u|]; simpl; [|split; [exact Hkeyed | reflexivity]].
  split; [|apply map_fst_mapSet].
  apply Forall_mapSet; [exact Hkeyed|]. simpl.
  destruct (assoc (modelKeyOfRecord record) (st_modelMap st)) as [b|] eqn:E; simpl.
  - apply assoc_In in E. unfold keyedByModel in Hkeyed. rewrite Forall_forall in Hkeyed.
    apply (Hkeyed _ E).
  - reflexivity.
Qed.

Lemma usageKeys_cons (range : Range) (rawLine : string) (lines : list string) :
  usageKeys' range (rawLine :: lines) =
  map modelKeyOfRecord
      (List.filter (fun r => isSome (normalizeUsage (usageRawOf r))) (recordOfLine' range rawLine))
  ++ usageKeys' range lines.
Proof.
  unfold usageKeys, recordsOf. simpl. rewrite filter_app, map_app. reflexivity.
Qed.

Lemma modelMap_fold (range : Range) (lines : list string) (st : ParseState) :
  keyedByModel (st_modelMap st) ->
  keyedByModel (st_modelMap (fold_left (processLine' range) lines st))
  /\ map fst (st_modelMap (fold_left (processLine' range) lines st))
     = fold_left (fun s k => setAdd k s) (usageKeys' range lines) (map fst (st_modelMap st)).
Proof.
  revert st. induction lines as [|rawLine lines IH]; intros st Hkeyed; simpl.
  - split; [exact Hkeyed | reflexivity].
  - rewrite usageKeys_cons, fold_left_app.
    destruct (recordOfLine_cases range rawLine) as [Hnone|(record & Hrec & _)].
    + rewrite (processLine_skip _ _ _ Hnone), Hnone. simpl. apply IH, Hkeyed.
    + rewrite (processLine_record _ _ _ _ Hrec), Hrec.
      destruct (foldRecord_modelMap_keys st record Hkeyed) as [Hk Hkeys].
      destruct (IH _ Hk) as [IH1 IH2]. split; [exact IH1|].
      rewrite IH2, Hkeys. simpl.
      destruct (isSome (normalizeUsage (usageRawOf record))); reflexivity.
Qed.

Lemma keyed_values (m : list (string * ModelBucket)) :
  keyedByModel m ->
  map (fun b => modelKeyOf (mb_provider b) (mb_model b)) (mapValues m) = map fst m.
Proof.
  induction 1 as [|[k b] m Hx _ IH]; simpl; [reflexivity|].
  simpl in Hx. rewrite Hx. f_equal. exact IH.
Qed.

Lemma uniqueModels_parse (params : ParseParams) (lines : list string) :
  s_uniqueModels (parseSessionFile' params lines)
  = List.length (setOfList (usageKeys' (range params) lines)).
Proof.
  unfold parseSessionFile, finishSession. cbn [s_uniqueModels].
  unfold parseLines.
  destruct (modelMap_fold (range params) lines initialState) as [Hkeyed Hkeys];
    [constructor|].
  set (m := st_modelMap (fold_left (processLine' (range params)) lines initialState)) in *.
  simpl in Hkeys. fold (setOfList (usageKeys' (range params) lines)) in Hkeys.
  set (keyOf := fun b : ModelBucket => modelKeyOf (mb_provider b) (mb_model b)).
  set (sorted := Array_sort (fun a b => sortByCostThenTokens (mb_totals a) (mb_totals b))
                            (mapValues m)).
  assert (Hperm : Permutation (map keyOf sorted) (map fst m)).
  { rewrite <- (keyed_values m Hkeyed). apply Permutation_map, Array_sort_perm. }
  assert (Hnd : NoDup (map fst m)).
  { rewrite Hkeys. apply (fold_setAdd_NoDup _ []). constructor. }
  rewrite setOfList_NoDup.
  - rewrite (Permutation_length Hperm), Hkeys. reflexivity.
  - eapply Permutation_NoDup; [apply Permutation_sym, Hperm | exact Hnd].
Qed.

(** C5 (amended): the model-switch counter of a session is the number of
    positions at which an assistant turn carries a non-unknown model
    identity that differs from the most recent non-unknown identity of the
    assistant turns before it; the unique-model count is the number of
    distinct model identities among the records that yield a usage tuple.
    For assistant turns modeled A, A, B, B, A the counter is 2, and the
    unique-model count is 2 when the records that carry usage are these
    five turns. *)
Theorem modelSwitches_counts_changes (params : ParseParams) (lines : list string) :
  s_modelSwitches (parseSessionFile' params lines)
  = switchPositions (assistantKeys' (range params) lines)
  /\ s_uniqueModels (parseSessionFile' params lines)
     = List.length (setOfList (usageKeys' (range params) lines))
  /\ forall A B : string,
       A <> B -> known A = true -> known B = true ->
       assistantKeys' (range params) lines = [A; A; B; B; A] ->
       s_modelSwitches (parseSessionFile' params lines) = 2%nat
       /\ (usageKeys' (range params) lines = [A; A; B; B; A] ->
           s_uniqueModels (parseSessionFile' params lines) = 2%nat).
Proof.
  split; [apply modelSwitches_parse|].
  split; [apply uniqueModels_parse|].
  intros A B Hne HA HB Hturns.
  assert (EAB : String.eqb A B = false) by (apply String.eqb_neq; exact Hne).
  assert (EBA : String.eqb B A = false) by (apply String.eqb_neq; congruence).
  split.
  - rewrite modelSwitches_parse, Hturns, <- switchesFrom_switchPositions. simpl.
    rewrite HA, HB, !String.eqb_refl, EAB, EBA. reflexivity.
  - intros Husage. rewrite uniqueModels_parse, Husage.
    unfold setOfList, setAdd. simpl.
    repeat (rewrite ?String.eqb_refl, ?EAB, ?EBA; simpl). reflexivity.
Qed.

(** *** Timeline, waterfall and totals *)

Lemma foldRecord_timeline (st : ParseState) (record : JsValue) :
  (timelineEligible Date_parse record = true ->
   exists ev, st_timeline (foldRecord' st record) = st_timeline st ++ [ev]
              /\ Some (e_timestamp ev) = timestampOf Date_parse record
              /\ Some (e_role ev) = roleOfRecord record)
  /\ (timelineEligible Date_parse record = false ->
      st_timeline (foldRecord' st record) = st_timeline st).
Proof.
  unfold timelineEligible, timestampOf, roleOfRecord, foldRecord. cbn [st_timeline].
  destruct (parseTimestampMs Date_parse record (messageOf record)) as [ts|];
    destruct (roleOf (messageOf record)) as [r|]; cbn [isSome andb];
    split; intros H; try discriminate H; try reflexivity.
  eexists. split; [reflexivity|]. split; reflexivity.
Qed.



Lemma recordsOf_cons (range : Range) (rawLine : string) (lines : list string) :
  recordsOf' range (rawLine :: lines) = recordOfLine' range rawLine ++ recordsOf' range lines.
Proof. reflexivity. Qed.


Lemma applyEntryCost_tokens (record : JsValue) (t : Totals) :
  t_input (applyEntryCost record t) = t_input t
  /\ t_output (applyEntryCost record t) = t_output t
  /\ t_cacheRead (applyEntryCost record t) = t_cacheRead t
  /\ t_cacheWrite (applyEntryCost record t) = t_cacheWrite t
  /\ totalTokens (applyEntryCost record t) = totalTokens t.
Proof.
  unfold applyEntryCost, applyCostTotal.
  destruct (extractCostBreakdown (usageRawOf record)); [repeat split|].
  destruct (rawCostTotalOf record (messageOf record)) as [raw|]; [|repeat split].
  destruct (Qle_bool 0 raw); repeat split.
Qed.

Lemma applyEntryCost_cost (record : JsValue) (t : Totals) :
  totalCost (applyEntryCost record t) == totalCost t + costContribution record.
Proof.
  unfold applyEntryCost, applyCostTotal, costContribution.
  destruct (extractCostBreakdown (usageRawOf record)); [reflexivity|].
  destruct (rawCostTotalOf record (messageOf record)) as [raw|]; simpl; [|lra].
  destruct (Qle_bool 0 raw); simpl; lra.
Qed.



(** *** Daily token counts *)

Lemma normalizeUsage_total_nonneg (raw : JsValue) (u : Usage) :
  normalizeUsage raw = Some u -> 0 <= u_total u.
Proof.
  unfold normalizeUsage. destruct (asRecord raw); [|discriminate].
  match goal with |- (if ?c then _ else _) = _ -> _ => destruct c end; [discriminate|].
  intros H. injection H as <-. apply Math_max_nonneg.
Qed.

Lemma tokens_dayEntryCost (record : JsValue) (b : option DayBucket) :
  tokensNonNegative b -> tokensNonNegative (dayEntryCost record b).
Proof.
  unfold dayEntryCost.
  destruct (extractCostBreakdown (usageRawOf record)); [destruct b; auto|].
  destruct (rawCostTotalOf record (messageOf record)); destruct b; auto.
Qed.

Lemma tokens_applyDay (f : DayBucket -> DayBucket) (b : option DayBucket) :
  (forall d, 0 <= d_tokens d -> 0 <= d_tokens (f d)) ->
  tokensNonNegative b -> tokensNonNegative (applyDay f b).
Proof. intros Hf Hb. destruct b as [d|]; simpl; auto. Qed.

Ltac day_steps :=
  repeat first
    [ apply tokens_dayEntryCost
    | apply tokens_applyDay; [intros ? ?; simpl; (assumption || lra) |]
    | match goal with
      | |- tokensNonNegative (if ?c then _ else _) => destruct c
      end ].

Lemma foldRecord_dailyMap (st : ParseState) (record : JsValue) :
  dailyNonNegative st ->
  exists ob,
    st_dailyMap (foldRecord' st record)
    = match ob with
      | Some b => mapSet (d_date b) b (st_dailyMap st)
      | None => st_dailyMap st
      end
    /\ tokensNonNegative ob.
Proof.
  intros Hinv. unfold foldRecord. cbn [st_dailyMap].
  eexists. split; [reflexivity|].
  assert (Hbase : forall k, 0 <= d_tokens (getOr (assoc k (st_dailyMap st)) (mkDay k 0 0 0 0 0))).
  { intros k. destruct (assoc k (st_dailyMap st)) as [b|] eqn:E; simpl; [|lra].
    apply assoc_In in E. unfold dailyNonNegative in Hinv. rewrite Forall_forall in Hinv.
    apply (Hinv _ E). }
  destruct (normalizeUsage (usageRawOf record)) as [u|] eqn:Eu;
    [apply normalizeUsage_total_nonneg in Eu|];
    day_steps;
    (destruct (dayKeyOf getUTCFullYear getUTCMonth getUTCDate
                        (parseTimestampMs Date_parse record (messageOf record))) as [k|];
     simpl; [apply Hbase | exact I]).
Qed.

Lemma foldRecord_daily_nonneg (st : ParseState) (record : JsValue) :
  dailyNonNegative st -> dailyNonNegative (foldRecord' st record).
Proof.
  intros Hinv. destruct (foldRecord_dailyMap st record Hinv) as (ob & Heq & Hob).
  unfold dailyNonNegative. rewrite Heq. destruct ob as [b|]; [|exact Hinv].
  apply Forall_mapSet; [exact Hinv | exact Hob].
Qed.

Lemma parseLines_daily_nonneg (range : Range) (lines : list string) (st : ParseState) :
  dailyNonNegative st -> dailyNonNegative (fold_left (processLine' range) lines st).
Proof.
  revert st. induction lines as [|rawLine lines IH]; intros st Hinv; simpl; [exact Hinv|].
  apply IH.
  destruct (recordOfLine_cases range rawLine) as [Hnone|(record & Hrec & _)].
  - rewrite (processLine_skip _ _ _ Hnone). exact Hinv.
  - rewrite (processLine_record _ _ _ _ Hrec). apply foldRecord_daily_nonneg, Hinv.
Qed.

(** Every day of a parsed session has a non-negative token count. *)
Lemma parse_daily_nonneg (params : ParseParams) (lines : list string) :
  sessionDailyNonNegative (parseSessionFile' params lines).
Proof.
  unfold sessionDailyNonNegative, parseSessionFile, finishSession. cbn [s_daily].
  eapply Permutation_Forall; [apply Permutation_sym, Array_sort_perm|].
  apply Forall_map. unfold mapValues. apply Forall_map.
  assert (H : dailyNonNegative (parseLines' (range params) lines)).
  { apply parseLines_daily_nonneg. constructor. }
  eapply Forall_impl; [|exact H]. intros [k b] Hb. exact Hb.
Qed.
End ParserFacts.

Lemma malformed_line_skipped_witness :
  sampleParse (String_trim lineBroken) = None
  /\ sampleSession ([lineUser; lineA] ++ lineBroken :: [lineB])
     = sampleSession ([lineUser; lineA] ++ [lineB]).
Proof.
  split; [reflexivity|].
  apply (malformed_line_skipped sampleParse sampleDate sampleYear sampleMonth sampleDay
           sampleParams [lineUser; lineA] [lineB] lineBroken).
  reflexivity.
Defined.

Lemma missing_cost_entry_witness :
  missingCostEntries (s_totals (sampleSession ([lineUser; lineA] ++ [lineBare])))
  = S (missingCostEntries (s_totals (sampleSession [lineUser; lineA])))
  /\ totalCost (s_totals (sampleSession ([lineUser; lineA] ++ [lineBare])))
     = totalCost (s_totals (sampleSession [lineUser; lineA])).
Proof.
  refine (proj2 (missing_cost_entry sampleParse sampleDate sampleYear sampleMonth sampleDay
                   lineBare (Some bareUsage)
                   (mkUsage 7 0 0 0 7) allTime _ _ _) sampleParams [lineUser; lineA] _).
  - reflexivity.
  - reflexivity.
  - split; reflexivity.
  - reflexivity.
Defined.

(** C5, as stated, fails for the unique-model count: models are counted
    over the records that carry usage, so five assistant turns modeled
    A, A, B, B, A without usage blocks give 2 switches and 0 unique
    models. *)
Lemma uniqueModels_needs_usage :
  assistantKeys sampleParse sampleDate allTime fiveBareTurns
  = ["unknown::A"; "unknown::A"; "unknown::B"; "unknown::B"; "unknown::A"]
  /\ s_modelSwitches (sampleSession fiveBareTurns) = 2%nat
  /\ s_uniqueModels (sampleSession fiveBareTurns) = 0%nat
  /\ s_uniqueModels (sampleSession fiveBareTurns) <> 2%nat.
Proof.
  repeat split; try reflexivity. vm_compute. discriminate.
Qed.

Lemma modelSwitches_counts_changes_witness :
  s_modelSwitches (sampleSession fiveTurns) = 2%nat
  /\ s_uniqueModels (sampleSession fiveTurns) = 2%nat.
Proof.
  destruct (proj2 (proj2 (modelSwitches_counts_changes sampleParse sampleDate sampleYear
                            sampleMonth sampleDay sampleParams fiveTurns))
                  "unknown::A" "unknown::B")
    as [Hswitches Hunique];
    [discriminate | reflexivity | reflexivity | reflexivity |].
  split; [exact Hswitches | apply Hunique; reflexivity].
Defined.


(** ** Daily token counts of the fleet *)

Lemma addDay_nonneg (m : list (string * DailyAcc)) (day : Daily) :
  Forall (fun kv : string * DailyAcc => 0 <= da_tokens (snd kv)) m ->
  0 <= tokens day ->
  Forall (fun kv : string * DailyAcc => 0 <= da_tokens (snd kv)) (addDay m day).
Proof.
  intros Hm Hday. unfold addDay. apply Forall_mapSet; [exact Hm|]. simpl.
  destruct (assoc (date day) m) as [acc|] eqn:E; simpl; [|lra].
  apply assoc_In in E. rewrite Forall_forall in Hm. specialize (Hm _ E). simpl in Hm. lra.
Qed.

Lemma fold_addDay_nonneg (days : list Daily) (m : list (string * DailyAcc)) :
  Forall (fun kv : string * DailyAcc => 0 <= da_tokens (snd kv)) m ->
  Forall (fun d => 0 <= tokens d) days ->
  Forall (fun kv : string * DailyAcc => 0 <= da_tokens (snd kv)) (fold_left addDay days m).
Proof.
  intros Hm Hdays. revert m Hm.
  induction Hdays as [|day days Hday _ IH]; intros m Hm; simpl; [exact Hm|].
  apply IH, addDay_nonneg; assumption.
Qed.

Lemma fold_aggregateStep_nonneg (sessions : list SessionSummary) (acc : FleetAcc) :
  Forall (fun kv : string * DailyAcc => 0 <= da_tokens (snd kv)) (fa_dailyMap acc) ->
  Forall sessionDailyNonNegative sessions ->
  Forall (fun kv : string * DailyAcc => 0 <= da_tokens (snd kv))
         (fa_dailyMap (fold_left aggregateStep sessions acc)).
Proof.
  intros Hacc Hs. revert acc Hacc.
  induction Hs as [|s sessions Hs _ IH]; intros acc Hacc; simpl; [exact Hacc|].
  apply IH. simpl. apply fold_addDay_nonneg; assumption.
Qed.

(** The daily series of the fleet has non-negative token counts when the
    sessions' days have. *)
Lemma aggregate_daily_nonneg (sessions : list SessionSummary) (filter : Filter) :
  Forall sessionDailyNonNegative sessions ->
  Forall (fun d => 0 <= fd_tokens d) (ag_daily (aggregates (aggregateSessions sessions filter))).
Proof.
  intros Hs. unfold aggregateSessions. cbn [aggregates ag_daily].
  eapply Permutation_Forall; [apply Permutation_sym, Array_sort_perm|].
  apply Forall_map. unfold mapValues. apply Forall_map.
  assert (H : Forall (fun kv : string * DailyAcc => 0 <= da_tokens (snd kv))
                     (fa_dailyMap (fold_left aggregateStep
                                             (List.filter (keep filter) sessions) emptyFleet))).
  { apply fold_aggregateStep_nonneg; [constructor|].
    rewrite Forall_forall in *. intros s Hin. apply filter_In in Hin as [Hin _]. auto. }
  eapply Forall_impl; [|exact H]. intros [k d] Hd. exact Hd.
Qed.

(** ** Date order *)

Lemma localeCompare_before (a b : string) :
  before localeCompare a b <-> dateNotAfter a b.
Proof.
  unfold before, localeCompare, dateNotAfter.
  destruct (String.compare a b); split; intros H; try discriminate; try lra; try congruence.
Qed.

Lemma dateNotAfter_total (a b : string) : dateNotAfter a b \/ dateNotAfter b a.
Proof.
  unfold dateNotAfter. rewrite (String.compare_antisym b a).
  destruct (String.compare a b); simpl; [left | left | right]; discriminate.
Qed.

Lemma dateNotAfter_trans (a b c : string) :
  dateNotAfter a b -> dateNotAfter b c -> dateNotAfter a c.
Proof.
  unfold dateNotAfter. intros Hab Hbc.
  destruct (String.compare a b) eqn:Eab; [| |congruence].
  - apply String.compare_eq_iff in Eab. subst b. exact Hbc.
  - destruct (String.compare b c) eqn:Ebc; [| |congruence].
    + apply String.compare_eq_iff in Ebc. subst c. rewrite Eab. discriminate.
    + assert (H : String.compare a c = Lt).
      { apply OrderedTypeEx.String_as_OT.cmp_lt.
        eapply OrderedTypeEx.String_as_OT.lt_trans;
          apply OrderedTypeEx.String_as_OT.cmp_lt; eassumption. }
      rewrite H. discriminate.
Qed.

Lemma sorted_by_date {A : Type} (key : A -> string) (l : list A) :
  StronglySorted (fun a b => dateNotAfter (key a) (key b))
                 (Array_sort (fun a b => localeCompare (key a) (key b)) l).
Proof.
  eapply StronglySorted_impl; [|apply Array_sort_sorted].
  - intros a b H. apply localeCompare_before. exact H.
  - intros x y. unfold before.
    destruct (dateNotAfter_total (key x) (key y)) as [H|H];
      [left | right]; apply (proj2 (localeCompare_before _ _)) in H; exact H.
  - intros x y z Hxy Hyz. apply (localeCompare_before (key x) (key z)).
    eapply dateNotAfter_trans; apply localeCompare_before; eassumption.
Qed.

(** Distinct keys in non-strict order are in strict order. *)
Lemma sorted_distinct_strict {A : Type} (key : A -> string) (l : list A) :
  StronglySorted (fun a b => dateNotAfter (key a) (key b)) l ->
  NoDup (map key l) ->
  StronglySorted (fun a b => dateBefore (key a) (key b)) l.
Proof.
  induction 1 as [|x l Hs IH Hall]; intros Hnd; constructor.
  - apply IH. inversion Hnd; assumption.
  - inversion Hnd as [|? ? Hnotin _]; subst.
    rewrite Forall_forall in *. intros y Hy. specialize (Hall y Hy).
    unfold dateNotAfter, dateBefore in *.
    destruct (String.compare (key x) (key y)) eqn:E; [|reflexivity|congruence].
    apply String.compare_eq_iff in E. exfalso. apply Hnotin. rewrite E.
    apply in_map, Hy.
Qed.

Lemma dateBefore_asym (a b : string) : dateBefore a b -> dateBefore b a -> False.
Proof.
  unfold dateBefore. intros H1 H2. rewrite String.compare_antisym, H1 in H2. discriminate.
Qed.

(** A list in strictly ascending order of date has no date twice, and is
    the only arrangement of its members in that order. *)
Lemma strict_sorted_NoDup {A : Type} (key : A -> string) (l : list A) :
  StronglySorted (fun a b => dateBefore (key a) (key b)) l -> NoDup (map key l).
Proof.
  induction 1 as [|x l Hs IH Hall]; simpl; constructor; [|exact IH].
  intros Hin. apply in_map_iff in Hin as (y & Hy & Hin).
  rewrite Forall_forall in Hall. specialize (Hall y Hin). rewrite Hy in Hall.
  exact (dateBefore_asym _ _ Hall Hall).
Qed.

Lemma strict_sorted_unique {A : Type} (key : A -> string) (l1 l2 : list A) :
  StronglySorted (fun a b => dateBefore (key a) (key b)) l1 ->
  StronglySorted (fun a b => dateBefore (key a) (key b)) l2 ->
  Permutation l1 l2 -> l1 = l2.
Proof.
  intros H1. revert l2. induction H1 as [|x l1 Hs1 IH Hall1]; intros l2 H2 Hperm.
  - apply Permutation_nil in Hperm. symmetry. exact Hperm.
  - destruct H2 as [|y l2 Hs2 Hall2].
    + apply Permutation_sym, Permutation_nil in Hperm. discriminate.
    + assert (Hxy : x = y).
      { assert (Hx : In x (y :: l2)) by (eapply Permutation_in; [exact Hperm | left; reflexivity]).
        assert (Hy : In y (x :: l1))
          by (eapply Permutation_in; [apply Permutation_sym, Hperm | left; reflexivity]).
        destruct Hx as [Hx|Hx]; [symmetry; exact Hx|].
        destruct Hy as [Hy|Hy]; [exact Hy|].
        rewrite Forall_forall in Hall1, Hall2.
        exfalso. exact (dateBefore_asym _ _ (Hall1 y Hy) (Hall2 x Hx)). }
      subst y. f_equal. apply IH; [exact Hs2|].
      eapply Permutation_cons_inv. exact Hperm.
Qed.

(** ** Token spikes *)

Lemma last_index {A : Type} (l : list A) (x : A) :
  nth_error (l ++ [x]) (List.length (l ++ [x]) - 1) = Some x.
Proof.
  rewrite length_app. simpl.
  replace (List.length l + 1 - 1)%nat with (List.length l) by lia.
  rewrite nth_error_app2 by lia. rewrite Nat.sub_diag. reflexivity.
Qed.

Lemma sumQ_pos (l : list Q) : Forall (fun x => 0 < x) l -> l <> [] -> 0 < sumQ l.
Proof.
  induction 1 as [|x l Hx Hall IH]; intros Hne; [congruence|].
  rewrite sumQ_cons. destruct l as [|y l'].
  - unfold sumQ. simpl. lra.
  - assert (0 < sumQ (y :: l')) by (apply IH; discriminate). lra.
Qed.

Lemma lenQ_pos {A : Type} (l : list A) : l <> [] -> 0 < lenQ l.
Proof.
  intros Hne. unfold lenQ. apply (natQ_pos (List.length l)).
  destruct l; [congruence | simpl; lia].
Qed.

Lemma mean_pos (l : list Q) : Forall (fun x => 0 < x) l -> l <> [] -> 0 < mean l.
Proof.
  intros Hall Hne. unfold mean.
  apply Qlt_shift_div_l; [apply lenQ_pos, Hne|].
  pose proof (sumQ_pos l Hall Hne). lra.
Qed.

Lemma calcMean_mean (l : list Q) : l <> [] -> calcMean l = mean l.
Proof. destruct l; [congruence | reflexivity]. Qed.

(** On non-negative counts, the positive ones are the nonzero ones. *)
Lemma positive_nonzero (l : list Q) :
  Forall (fun x => 0 <= x) l ->
  List.filter (fun n => Qlt_bool 0 n) l = List.filter nonzero l
  /\ Forall (fun x => 0 < x) (List.filter nonzero l).
Proof.
  induction 1 as [|x l Hx Hall [IH1 IH2]]; simpl; [split; [reflexivity | constructor]|].
  change (nonzero x) with (negb (Qeq_bool x 0)). destruct (Qeq_bool x 0) eqn:E; simpl.
  - apply Qeq_bool_iff in E.
    assert (Hn : Qlt_bool 0 x = false).
    { destruct (Qlt_bool 0 x) eqn:E'; [|reflexivity]. apply Qlt_bool_iff in E'. lra. }
    rewrite Hn. split; assumption.
  - apply Qeq_bool_false in E.
    assert (Hp : 0 < x).
    { apply Qnot_le_lt. intros Hle. apply E. lra. }
    assert (Hn : Qlt_bool 0 x = true) by (apply Qlt_bool_iff; exact Hp).
    rewrite Hn, IH1. split; [reflexivity | constructor; assumption].
Qed.

(** [tokenSpikes] once the date-ordered series is split into its most
    recent day and the days before it. *)
Lemma tokenSpikes_split (daily prevDays : list FleetDaily) (lastDay : FleetDaily) :
  Array_sort byDate daily = prevDays ++ [lastDay] ->
  Forall (fun d => 0 <= fd_tokens d) daily ->
  tokenSpikes daily =
  if (4 <=? List.length daily)%nat && (3 <=? List.length (baselineDays prevDays))%nat
     && Qlt_bool 5000 (fd_tokens lastDay)
     && Qle_bool 2.3 (fd_tokens lastDay / mean (baselineDays prevDays))
  then [ {| sp_date := fd_date lastDay;
            sp_tokens := fd_tokens lastDay;
            sp_baselineTokens := mean (baselineDays prevDays);
            sp_ratio := fd_tokens lastDay / mean (baselineDays prevDays) |} ]
  else [].
Proof.
  intros Hsplit Hnonneg. unfold tokenSpikes.
  destruct (4 <=? List.length daily)%nat; cbn [andb]; [|reflexivity].
  cbv zeta. rewrite Hsplit, last_index, removelast_last.
  assert (Hprev : Forall (fun x => 0 <= x) (map fd_tokens prevDays)).
  { apply Forall_map.
    assert (Hall : Forall (fun d => 0 <= fd_tokens d) (prevDays ++ [lastDay])).
    { rewrite <- Hsplit. eapply Permutation_Forall; [|exact Hnonneg].
      apply Permutation_sym, Array_sort_perm. }
    apply Forall_app in Hall. tauto. }
  destruct (positive_nonzero _ Hprev) as [Hfilter Hpos].
  rewrite Hfilter. fold (baselineDays prevDays) in *.
  destruct (3 <=? List.length (baselineDays prevDays))%nat eqn:E3; cbn [andb]; [|reflexivity].
  assert (Hne : baselineDays prevDays <> []).
  { apply Nat.leb_le in E3. destruct (baselineDays prevDays); [simpl in E3; lia | discriminate]. }
  rewrite calcMean_mean by exact Hne.
  assert (Hb : Qlt_bool 0 (mean (baselineDays prevDays)) = true)
    by (apply Qlt_bool_iff, mean_pos; assumption).
  rewrite Hb. reflexivity.
Qed.

Lemma split_last {A : Type} (l : list A) :
  l <> [] -> exists prev last, l = prev ++ [last].
Proof.
  intros Hne. destruct (exists_last Hne) as (prev & last & ->). eauto.
Qed.

(** C4: on a daily series of token counts, given in any order, the days
    are taken in ascending order of date, so that the last one is the
    most recent day, and a spike is reported exactly when the series has
    at least 4 days, at least 3 of the days before the most recent one
    have nonzero tokens, and the most recent day has more than 5000 tokens
    and at least 2.3 times the mean of those nonzero days; the report
    carries that day, that mean as the baseline and that ratio.  For days
    of distinct dates, as the aggregator's are, this is the rule on the
    one arrangement of the days in ascending order of date.  Token counts
    are non-negative: every daily series the aggregator builds from parsed
    sessions is.  For 1000, 1100, 900, 1050, 6000 the last day is reported
    with baseline 1012.5 and a ratio that rounds to 5.93; for 1000, 1000,
    1000, 1000, 1800 nothing is reported. *)
Theorem tokenSpikes_exactly :
  (forall daily : list FleetDaily,
     Forall (fun d => 0 <= fd_tokens d) daily ->
     Permutation (Array_sort byDate daily) daily
     /\ StronglySorted (fun a b => dateNotAfter (fd_date a) (fd_date b))
                       (Array_sort byDate daily)
     /\ (tokenSpikes daily <> [] <-> SpikeFires (Array_sort byDate daily))
     /\ (forall spike, In spike (tokenSpikes daily) ->
           tokenSpikes daily = [spike] /\ SpikeReport (Array_sort byDate daily) spike)
     /\ (forall ordered : list FleetDaily,
           Permutation ordered daily ->
           StronglySorted (fun a b => dateBefore (fd_date a) (fd_date b)) ordered ->
           (tokenSpikes daily <> [] <-> SpikeFires ordered)
           /\ (forall spike, In spike (tokenSpikes daily) ->
                 tokenSpikes daily = [spike] /\ SpikeReport ordered spike)))
  /\ (forall (JSON_parse : string -> option Json) (Date_parse : string -> option Q)
             (getUTCFullYear getUTCMonth getUTCDate : Q -> Z)
             (files : list (ParseParams * list string)) (filter : Filter),
        Forall (fun d => 0 <= fd_tokens d)
               (ag_daily (aggregates (aggregateSessions
                  (map (fun file =>
                          parseSessionFile JSON_parse Date_parse getUTCFullYear getUTCMonth
                                           getUTCDate (fst file) (snd file)) files)
                  filter))))
  /\ (exists spike,
        tokenSpikes spikeWeek = [spike]
        /\ sp_date spike = "2024-03-05"
        /\ sp_tokens spike == 6000
        /\ sp_baselineTokens spike == 1012.5
        /\ 5.925 <= sp_ratio spike /\ sp_ratio spike < 5.935)
  /\ tokenSpikes calmWeek = [].
Proof.
  split; [|split; [|split]].
  2:{ intros JSON_parse Date_parse getUTCFullYear getUTCMonth getUTCDate files filter.
      apply aggregate_daily_nonneg. apply Forall_map. apply Forall_forall.
      intros file _. apply parse_daily_nonneg. }
  - intros daily Hnonneg.
    assert (Hperm : Permutation (Array_sort byDate daily) daily) by apply Array_sort_perm.
    assert (Hsorted : StronglySorted (fun a b => dateNotAfter (fd_date a) (fd_date b))
                                     (Array_sort byDate daily))
      by apply (sorted_by_date fd_date).
    assert (Hmain :
      (tokenSpikes daily <> [] <-> SpikeFires (Array_sort byDate daily))
      /\ (forall spike, In spike (tokenSpikes daily) ->
            tokenSpikes daily = [spike] /\ SpikeReport (Array_sort byDate daily) spike)).
    { clear Hperm Hsorted. destruct daily as [|d0 daily'].
      { split; [|intros spike []].
        split; [intros H; exfalso; apply H; reflexivity|].
        intros (p & l & H & _). simpl in H. destruct p; discriminate. }
      remember (d0 :: daily') as daily eqn:Hd.
      assert (Hne : Array_sort byDate daily <> []).
      { intros H. apply (f_equal (@List.length _)) in H.
        rewrite Array_sort_length in H. subst daily. discriminate. }
      clear Hd.
      destruct (split_last _ Hne) as (prevDays & lastDay & Hsplit).
      pose proof (tokenSpikes_split daily prevDays lastDay Hsplit Hnonneg) as Hts.
      destruct ((4 <=? List.length daily)%nat && (3 <=? List.length (baselineDays prevDays))%nat
                && Qlt_bool 5000 (fd_tokens lastDay)
                && Qle_bool 2.3 (fd_tokens lastDay / mean (baselineDays prevDays))) eqn:Hc.
      + apply andb_true_iff in Hc as [Hc H4]. apply andb_true_iff in Hc as [Hc H3].
        apply andb_true_iff in Hc as [H1 H2].
        apply Nat.leb_le in H1, H2. apply Qlt_bool_iff in H3. apply Qle_bool_iff in H4.
        rewrite Hts. split.
        * split; [|discriminate]. intros _. exists prevDays, lastDay.
          rewrite Hsplit at 1. rewrite Array_sort_length. repeat split; assumption.
        * intros spike [<-|[]]. split; [reflexivity|].
          exists prevDays, lastDay. simpl. repeat split; try reflexivity. exact Hsplit.
      + rewrite Hts. split; [|intros spike []].
        split; [intros H; exfalso; apply H; reflexivity|].
        intros (p & l & Hpl & G1 & G2 & G3 & G4).
        rewrite Hsplit in Hpl. apply app_inj_tail in Hpl as [<- <-].
        rewrite Array_sort_length in G1.
        apply Nat.leb_le in G1, G2. apply Qlt_bool_iff in G3. apply Qle_bool_iff in G4.
        rewrite G1, G2, G3, G4 in Hc. discriminate. }
    split; [exact Hperm|]. split; [exact Hsorted|].
    split; [apply Hmain|]. split; [apply Hmain|].
    intros ordered Hordered Hstrict.
    assert (Hnd : NoDup (map fd_date (Array_sort byDate daily))).
    { eapply Permutation_NoDup; [|apply (strict_sorted_NoDup fd_date ordered Hstrict)].
      apply Permutation_map.
      eapply Permutation_trans; [exact Hordered | apply Permutation_sym, Hperm]. }
    assert (Hsame : ordered = Array_sort byDate daily).
    { apply (strict_sorted_unique fd_date); [exact Hstrict | |].
      - apply sorted_distinct_strict; assumption.
      - eapply Permutation_trans; [exact Hordered | apply Permutation_sym, Hperm]. }
    rewrite Hsame. exact Hmain.
  - eexists. split; [vm_compute; reflexivity|]. simpl.
    repeat split; vm_compute; congruence.
  - vm_compute. reflexivity.
Qed.

Lemma tokenSpikes_exactly_witness :
  Forall (fun d => 0 <= fd_tokens d) spikeWeek
  /\ Permutation spikeWeek spikeWeek
  /\ StronglySorted (fun a b => dateBefore (fd_date a) (fd_date b)) spikeWeek
  /\ (tokenSpikes spikeWeek <> [] <-> SpikeFires spikeWeek).
Proof.
  assert (H : Forall (fun d => 0 <= fd_tokens d) spikeWeek)
    by (repeat constructor; vm_compute; discriminate).
  assert (Hsorted : StronglySorted (fun a b => dateBefore (fd_date a) (fd_date b)) spikeWeek)
    by (repeat constructor).
  split; [exact H|]. split; [apply Permutation_refl|]. split; [exact Hsorted|].
  exact (proj1 (proj2 (proj2 (proj2 (proj2 (proj1 tokenSpikes_exactly spikeWeek H))))
                      spikeWeek (Permutation_refl _) Hsorted)).
Defined.


(** * Further properties *)

(** ** Leaves of the normalizer *)

(** X1: the normalizer accepts a value exactly when it is a record with at
    least one positive count; an accepted tuple is never all zero. *)
Theorem normalizeUsage_accepts (raw : JsValue) :
  (normalizeUsage raw <> None <-> asRecord raw <> None /\ somePositive (asRecord raw))
  /\ (forall u, normalizeUsage raw = Some u ->
        0 < u_total u \/ 0 < u_input u \/ 0 < u_output u \/ 0 < u_cacheRead u
        \/ 0 < u_cacheWrite u).
Proof.
  unfold normalizeUsage, somePositive.
  destruct (asRecord raw) as [r|] eqn:Hr.
  2:{ split; [|discriminate]. split; [congruence | intros [H _]; congruence]. }
  set (record := Some r).
  destruct (Qle_bool (usageTotal record) 0) eqn:Et;
    destruct (Qle_bool (usageInput record) 0) eqn:Ei;
    destruct (Qle_bool (usageOutput record) 0) eqn:Eo;
    destruct (Qle_bool (usageCacheRead record) 0) eqn:Er;
    destruct (Qle_bool (usageCacheWrite record) 0) eqn:Ew; cbn [andb];
    repeat match goal with
           | H : Qle_bool _ 0 = true |- _ => apply Qle_bool_iff in H
           | H : Qle_bool _ 0 = false |- _ => apply Qle_bool_false in H
           end.
  1:{ split; [|discriminate]. split; [congruence|].
      intros [_ [H|[H|[H|[H|H]]]]]; lra. }
  all: split;
    [ split; [intros _; split; [discriminate | tauto] | discriminate]
    | intros u Hu; injection Hu as <-; simpl;
      repeat match goal with
             | H : 0 < ?x |- context [Math_max 0 ?x] =>
               rewrite (Math_max_0_of_nonneg x) by lra
             end; tauto ].
Qed.

Lemma toolBlock_errors (acc : ToolDetails) (part : Json) :
  (errors acc <= results acc)%nat -> (errors (toolBlock acc part) <= results (toolBlock acc part))%nat.
Proof.
  intros H. unfold toolBlock. destruct (asRecord (Some part)); [|exact H].
  destruct (isType (Some part) "tool_result"); cbn [errors results]; [|exact H].
  destruct ((Some part).["is_error"]) as [[| [|] | | | |]|]; lia.
Qed.

Lemma fold_toolBlock_errors (content : list Json) (acc : ToolDetails) :
  (errors acc <= results acc)%nat ->
  (errors (fold_left toolBlock content acc) <= results (fold_left toolBlock content acc))%nat.
Proof.
  revert acc. induction content as [|part content IH]; intros acc H; simpl; [exact H|].
  apply IH, toolBlock_errors, H.
Qed.

(** X2: a message never has more tool errors than tool results, so the
    [tools.results > 0] guard around the error count drops no error. *)
Theorem extractToolDetails_errors (message : JsValue) :
  (errors (extractToolDetails message) <= results (extractToolDetails message))%nat
  /\ ((0 < errors (extractToolDetails message))%nat ->
      (0 <? results (extractToolDetails message))%nat = true).
Proof.
  assert (H : (errors (extractToolDetails message) <= results (extractToolDetails message))%nat).
  { unfold extractToolDetails. cbn [errors results].
    assert (Hc : (errors match message.["content"] with
                         | Some (JArr content) => fold_left toolBlock content (mkTools [] 0 0)
                         | _ => mkTools [] 0 0
                         end
                  <= results match message.["content"] with
                             | Some (JArr content) => fold_left toolBlock content (mkTools [] 0 0)
                             | _ => mkTools [] 0 0
                             end)%nat).
    { destruct (message.["content"]) as [[| | | |content|]|]; simpl; try lia.
      apply fold_toolBlock_errors. simpl. lia. }
    destruct (roleIs message "toolResult"); lia. }
  split; [exact H|]. intros Hpos. apply Nat.ltb_lt. lia.
Qed.

(** ** Latency statistics *)

Lemma sorted_nth_le (s : list Q) :
  StronglySorted Qle s ->
  forall i j, (i <= j)%nat -> (j < List.length s)%nat -> nth i s 0 <= nth j s 0.
Proof.
  induction 1 as [|x s Hs IH Hall]; intros i j Hij Hj; simpl in Hj; [lia|].
  destruct i as [|i], j as [|j]; simpl; try lia.
  - apply Qle_refl.
  - rewrite Forall_forall in Hall. apply Hall. apply nth_In. lia.
  - apply IH; lia.
Qed.

Lemma sumQ_bounds (l : list Q) (lo hi : Q) :
  Forall (fun x => lo <= x /\ x <= hi) l ->
  lenQ l * lo <= sumQ l /\ sumQ l <= lenQ l * hi.
Proof.
  induction 1 as [|x l [Hlo Hhi] _ [IH1 IH2]].
  - unfold lenQ, sumQ. simpl. change (inject_Z 0) with 0. lra.
  - rewrite sumQ_cons.
    assert (E : lenQ (x :: l) == 1 + lenQ l).
    { unfold lenQ. simpl List.length. rewrite Nat2Z.inj_succ, <- Z.add_1_l, inject_Z_plus.
      reflexivity. }
    rewrite E. split; nra.
Qed.

Lemma mean_bounds (l : list Q) (lo hi : Q) :
  l <> [] -> Forall (fun x => lo <= x /\ x <= hi) l ->
  lo <= sumQ l / lenQ l /\ sumQ l / lenQ l <= hi.
Proof.
  intros Hne Hall. destruct (sumQ_bounds l lo hi Hall) as [H1 H2].
  pose proof (lenQ_pos l Hne) as Hpos.
  split.
  - apply Qle_shift_div_l; [exact Hpos | lra].
  - apply Qle_shift_div_r; [exact Hpos | lra].
Qed.

(** X3: the latency stats of a non-empty sample list count the samples;
    their min, p95 and max are samples of the list, with
    min <= p95 <= max, and every sample lies between min and max; an empty
    list has no stats.  (Nothing is said of the average, which the code
    rounds.) *)
Theorem computeLatencyStats_ordered (values : list Q) :
  (computeLatencyStats values = None <-> values = [])
  /\ forall stats, computeLatencyStats values = Some stats ->
       l_count stats = List.length values
       /\ In (l_minMs stats) values /\ In (l_p95Ms stats) values /\ In (l_maxMs stats) values
       /\ l_minMs stats <= l_p95Ms stats /\ l_p95Ms stats <= l_maxMs stats
       /\ Forall (fun x => l_minMs stats <= x /\ x <= l_maxMs stats) values.
Proof.
  split.
  { destruct values; simpl; split; congruence. }
  intros stats Hs.
  destruct values as [|v0 values']; [discriminate|].
  remember (v0 :: values') as values eqn:Hv.
  assert (Hne : values <> []) by (subst; discriminate).
  assert (Hlen : (0 < List.length values)%nat) by (subst; simpl; lia).
  assert (Hcode : computeLatencyStats values
                  = Some {| l_count := List.length (Array_sort numAsc values);
                            l_avgMs := sumQ (Array_sort numAsc values)
                                       / lenQ (Array_sort numAsc values);
                            l_p95Ms := nth (p95Index (List.length (Array_sort numAsc values)))
                                           (Array_sort numAsc values) 0;
                            l_minMs := nth 0 (Array_sort numAsc values) 0;
                            l_maxMs := nth (List.length (Array_sort numAsc values) - 1)
                                           (Array_sort numAsc values) 0 |})
    by (subst; reflexivity).
  rewrite Hcode in Hs. injection Hs as <-. clear Hcode. simpl.
  set (sorted := Array_sort numAsc values).
  assert (Hsl : List.length sorted = List.length values) by apply Array_sort_length.
  pose proof (sorted_numAsc values) as Hsorted. fold sorted in Hsorted.
  assert (Hall : Forall (fun x => nth 0 sorted 0 <= x /\ x <= nth (List.length sorted - 1) sorted 0)
                        sorted).
  { apply Forall_forall. intros x Hx. apply (In_nth _ _ 0) in Hx as (i & Hi & <-).
    split; apply sorted_nth_le; try assumption; lia. }
  assert (Hp : (p95Index (List.length sorted) < List.length sorted)%nat).
  { unfold p95Index. lia. }
  assert (Hsample : forall i, (i < List.length sorted)%nat -> In (nth i sorted 0) values).
  { intros i Hi. eapply Permutation_in; [apply Array_sort_perm|].
    apply nth_In. exact Hi. }
  split; [exact Hsl|].
  split; [apply Hsample; lia|].
  split; [apply Hsample; exact Hp|].
  split; [apply Hsample; lia|].
  split; [apply sorted_nth_le; try assumption; lia|].
  split; [apply sorted_nth_le; try assumption; lia|].
  eapply Permutation_Forall; [apply Array_sort_perm | exact Hall].
Qed.

(** X4: [calcMean] of no values is 0 (nothing is divided by zero), of a
    single value is that value, and of values none of which is negative is
    not negative.  (These hold however the sum and the quotient are
    rounded.) *)
Theorem calcMean_nonneg :
  calcMean [] = 0
  /\ (forall x : Q, calcMean [x] == x)
  /\ forall values : list Q, Forall (fun x => 0 <= x) values -> 0 <= calcMean values.
Proof.
  split; [reflexivity|]. split.
  - intros x. unfold calcMean, sumQ, lenQ. simpl. field.
  - intros values Hall. destruct values as [|v values']; [simpl; lra|].
    remember (v :: values') as values eqn:Hv.
    assert (Hne : values <> []) by (subst; discriminate).
    rewrite (calcMean_mean values Hne). unfold mean.
    assert (Hboth : Forall (fun x => 0 <= x /\ x <= sumQ values + 1) values).
    { clear Hv Hne. induction Hall as [|x l Hx Hl IH]; constructor.
      - rewrite sumQ_cons. split; [exact Hx|].
        assert (Hs : 0 <= sumQ l).
        { clear IH. induction Hl as [|y l' Hy _ IH']; [unfold sumQ; simpl; lra|].
          rewrite sumQ_cons. lra. }
        lra.
      - eapply Forall_impl; [|exact IH]. intros a [H1 H2]. rewrite sumQ_cons.
        split; [exact H1 | lra]. }
    apply (mean_bounds values 0 (sumQ values + 1) Hne Hboth).
Qed.

Lemma calcMean_nonneg_witness :
  Forall (fun x => 0 <= x) [1; 2; 4] /\ 0 <= calcMean [1; 2; 4].
Proof.
  assert (H : Forall (fun x => 0 <= x) [1; 2; 4])
    by (repeat constructor; vm_compute; discriminate).
  split; [exact H | exact (proj2 (proj2 calcMean_nonneg) [1; 2; 4] H)].
Defined.

Lemma normalizeUsage_accepts_witness :
  normalizeUsage usageWithoutTotal <> None.
Proof.
  apply (proj2 (proj1 (normalizeUsage_accepts usageWithoutTotal))).
  split; [discriminate | left; vm_compute; reflexivity].
Defined.

Lemma extractToolDetails_errors_witness :
  (0 <? results (extractToolDetails failedToolResult))%nat = true.
Proof.
  apply (proj2 (extractToolDetails_errors failedToolResult)). vm_compute. lia.
Defined.

Lemma computeLatencyStats_ordered_witness :
  exists stats, computeLatencyStats [30; 10; 20] = Some stats
                /\ l_minMs stats <= l_p95Ms stats /\ l_p95Ms stats <= l_maxMs stats.
Proof.
  eexists. split; [reflexivity|].
  destruct (proj2 (computeLatencyStats_ordered [30; 10; 20]) _ eq_refl)
    as (_ & _ & _ & _ & H1 & H2 & _).
  split; [exact H1 | exact H2].
Defined.

(** ** Command-line arguments *)

Lemma substring_all (s : string) : substring 0 (String.length s) s = s.
Proof. induction s as [|c s IH]; simpl; [reflexivity | rewrite IH; reflexivity]. Qed.

Lemma prefix_split (p s : string) :
  prefix p s = true ->
  s = (p ++ substring (String.length p) (String.length s - String.length p) s)%string.
Proof.
  revert s. induction p as [|a p IH]; intros s H.
  - cbn [String.length append]. rewrite Nat.sub_0_r, substring_all. reflexivity.
  - destruct s as [|b s]; cbn [prefix] in H; [discriminate|].
    destruct (ascii_dec a b) as [<-|]; [|discriminate].
    cbn [String.length append substring Nat.sub]. f_equal. apply IH, H.
Qed.

Lemma startsWith_dashes (token : string) :
  startsWith token "--" = true -> token = ("--" ++ slice2 token)%string.
Proof. intros H. apply (prefix_split "--" token H). Qed.

Lemma prefix_append (p s : string) : prefix p (p ++ s) = true.
Proof.
  induction p as [|a p IH]; cbn [prefix append]; [destruct s; reflexivity|].
  destruct (ascii_dec a a) as [_|H]; [exact IH | congruence].
Qed.

Lemma dashes_startsWith (k : string) : startsWith ("--" ++ k) "--" = true.
Proof. apply prefix_append. Qed.

Lemma slice2_dashes (k : string) : slice2 ("--" ++ k) = k.
Proof. unfold slice2. simpl. rewrite Nat.sub_0_r. apply substring_all. Qed.

Lemma assoc_mapSet {V : Type} (k k' : string) (v : V) (m : list (string * V)) :
  assoc k (mapSet k' v m) = if String.eqb k k' then Some v else assoc k m.
Proof.
  induction m as [|[k0 v0] m IH]; simpl.
  - destruct (String.eqb k k'); reflexivity.
  - destruct (String.eqb k' k0) eqn:E0; simpl.
    + apply String.eqb_eq in E0. subst k0. destruct (String.eqb k k'); reflexivity.
    + rewrite IH. destruct (String.eqb k k') eqn:E; [|reflexivity].
      apply String.eqb_eq in E. subst k'. rewrite E0. reflexivity.
Qed.

Lemma assoc_setOption (k key : string) (v : ArgValue) (m : list (string * ArgValue)) :
  assoc k (setOption key v m)
  = if String.eqb key "__proto__" then assoc k m
    else if String.eqb k key then Some v else assoc k m.
Proof.
  unfold setOption. destruct (String.eqb key "__proto__"); [reflexivity|].
  apply assoc_mapSet.
Qed.

Lemma parseArgsFrom_keys (n : nat) :
  forall (argv : list string) (out : list (string * ArgValue)) (k : string),
    (List.length argv <= n)%nat ->
    (assoc k (parseArgsFrom argv out) <> None
     <-> assoc k out <> None \/ (In ("--" ++ k)%string argv /\ k <> "__proto__")).
Proof.
  induction n as [|n IH]; intros argv out k Hlen.
  - destruct argv; [|simpl in Hlen; lia]. simpl. tauto.
  - destruct argv as [|token rest]; [simpl; tauto|]. simpl in Hlen.
    cbn [parseArgsFrom].
    destruct (startsWith token "--") eqn:Etok; cbn [negb].
    + pose proof (startsWith_dashes token Etok) as Htok.
      assert (Hkey : forall m : list (string * ArgValue), forall v,
                 (assoc k (setOption (slice2 token) v m) <> None
                  <-> assoc k m <> None
                      \/ (token = ("--" ++ k)%string /\ k <> "__proto__"))).
      { intros m v. rewrite assoc_setOption.
        destruct (String.eqb (slice2 token) "__proto__") eqn:Ep.
        - apply String.eqb_eq in Ep. split; [tauto|]. intros [H|[H Hk]]; [exact H|].
          exfalso. apply Hk. rewrite <- Ep, H. symmetry. apply slice2_dashes.
        - apply String.eqb_neq in Ep. destruct (String.eqb k (slice2 token)) eqn:E.
          + apply String.eqb_eq in E.
            split; [intros _; right; split; congruence | discriminate].
          + apply String.eqb_neq in E. split; [tauto|]. intros [H|[H _]]; [exact H|].
            exfalso. apply E. rewrite H. symmetry. apply slice2_dashes. }
      destruct rest as [|next rest'].
      * rewrite Hkey. simpl. tauto.
      * destruct (isEmpty next || startsWith next "--") eqn:Enext.
        -- rewrite IH by (simpl in *; lia). rewrite Hkey. simpl. tauto.
        -- rewrite IH by (simpl in *; lia). rewrite Hkey.
           apply orb_false_iff in Enext as [_ Enext].
           assert (next <> ("--" ++ k)%string).
           { intros E. rewrite E, dashes_startsWith in Enext. discriminate. }
           simpl. tauto.
    + rewrite IH by lia.
      assert (token <> ("--" ++ k)%string).
      { intros E. rewrite E, dashes_startsWith in Etok. discriminate. }
      simpl. tauto.
Qed.

Lemma parseArgsFrom_values (n : nat) :
  forall (argv : list string) (out : list (string * ArgValue)) (k s : string),
    (List.length argv <= n)%nat ->
    assoc k (parseArgsFrom argv out) = Some (ArgStr s) ->
    assoc k out = Some (ArgStr s)
    \/ exists i, nth_error argv i = Some ("--" ++ k)%string
                 /\ nth_error argv (S i) = Some s
                 /\ isEmpty s = false /\ startsWith s "--" = false.
Proof.
  induction n as [|n IH]; intros argv out k s Hlen Hget.
  - destruct argv; [|simpl in Hlen; lia]. left. exact Hget.
  - destruct argv as [|token rest]; [left; exact Hget|]. simpl in Hlen.
    cbn [parseArgsFrom] in Hget.
    assert (Hshift : forall (tl : list string) (d : nat) (pre : list string),
               token :: rest = pre ++ tl -> List.length pre = d ->
               (exists i, nth_error tl i = Some ("--" ++ k)%string
                          /\ nth_error tl (S i) = Some s
                          /\ isEmpty s = false /\ startsWith s "--" = false) ->
               exists i, nth_error (token :: rest) i = Some ("--" ++ k)%string
                         /\ nth_error (token :: rest) (S i) = Some s
                         /\ isEmpty s = false /\ startsWith s "--" = false).
    { intros tl d pre E Hd (i & H1 & H2 & H3 & H4). exists (d + i)%nat. rewrite E.
      replace (S (d + i)) with (d + S i)%nat by lia. subst d.
      rewrite !nth_error_app2 by lia.
      replace (List.length pre + i - List.length pre)%nat with i by lia.
      replace (List.length pre + S i - List.length pre)%nat with (S i) by lia.
      auto. }
    destruct (startsWith token "--") eqn:Etok; cbn [negb] in Hget.
    + pose proof (startsWith_dashes token Etok) as Htok.
      destruct rest as [|next rest'].
      * rewrite assoc_setOption in Hget.
        destruct (String.eqb (slice2 token) "__proto__"); [left; exact Hget|].
        destruct (String.eqb k (slice2 token)); [discriminate | left; exact Hget].
      * destruct (isEmpty next || startsWith next "--") eqn:Enext.
        -- apply IH in Hget; [|simpl in *; lia].
           destruct Hget as [Hget|Hget].
           ++ rewrite assoc_setOption in Hget.
              destruct (String.eqb (slice2 token) "__proto__"); [left; exact Hget|].
              destruct (String.eqb k (slice2 token)); [discriminate | left; exact Hget].
           ++ right. apply (Hshift (next :: rest') 1%nat [token]); auto.
        -- apply orb_false_iff in Enext as [Eempty Edash].
           apply IH in Hget; [|simpl in *; lia].
           destruct Hget as [Hget|Hget].
           ++ rewrite assoc_setOption in Hget.
              destruct (String.eqb (slice2 token) "__proto__"); [left; exact Hget|].
              destruct (String.eqb k (slice2 token)) eqn:E.
              ** apply String.eqb_eq in E. injection Hget as <-.
                 right. exists 0%nat. simpl. rewrite Htok, E. auto.
              ** left. exact Hget.
           ++ right. apply (Hshift rest' 2%nat [token; next]); auto.
    + apply IH in Hget; [|lia].
      destruct Hget as [Hget|Hget]; [left; exact Hget|].
      right. apply (Hshift rest 1%nat [token]); auto.
Qed.

(** X5: the own keys of the options object are exactly the keys named by
    the tokens that start with two dashes, [__proto__] excepted, which
    never becomes a key; a key holds a string only when that string is the
    token right after the flag, is not empty and is not itself a flag. *)
Theorem parseArgs_keys_and_values (argv : list string) (k : string) :
  (assoc k (parseArgs argv) <> None
   <-> In ("--" ++ k)%string argv /\ k <> "__proto__")
  /\ assoc "__proto__" (parseArgs argv) = None
  /\ forall s, assoc k (parseArgs argv) = Some (ArgStr s) ->
       exists i, nth_error argv i = Some ("--" ++ k)%string
                 /\ nth_error argv (S i) = Some s
                 /\ isEmpty s = false /\ startsWith s "--" = false.
Proof.
  unfold parseArgs. split; [|split].
  - rewrite (parseArgsFrom_keys (List.length argv)) by lia. simpl. tauto.
  - destruct (assoc "__proto__" (parseArgsFrom argv [])) eqn:E; [|reflexivity].
    assert (H : assoc "__proto__" (parseArgsFrom argv []) <> None) by congruence.
    apply (parseArgsFrom_keys (List.length argv)) in H; [|lia].
    simpl in H. exfalso. destruct H as [H|[_ H]]; apply H; reflexivity.
  - intros s Hs.
    destruct (parseArgsFrom_values (List.length argv) argv [] k s (Nat.le_refl _) Hs)
      as [H|H]; [discriminate H | exact H].
Qed.

Lemma parseArgs_keys_and_values_witness :
  exists i, nth_error ["--days"; "7"; "--pretty"] i = Some ("--" ++ "days")%string
            /\ nth_error ["--days"; "7"; "--pretty"] (S i) = Some "7".
Proof.
  destruct (proj2 (proj2 (parseArgs_keys_and_values ["--days"; "7"; "--pretty"] "days"))
                  "7" eq_refl)
    as (i & H1 & H2 & _).
  exists i. split; assumption.
Defined.

(** ** Keywords *)

Lemma blankOther_cases (c : ascii) :
  isWhite (blankOther c) = false -> isWordChar (blankOther c) = true.
Proof.
  unfold blankOther. destruct (isWordChar c) eqn:Ew; simpl; [intros _; exact Ew|].
  destruct (isWhite c) eqn:Es; simpl; [congruence|].
  intros H. vm_compute in H. discriminate.
Qed.

Lemma splitRuns_pieces (P : ascii -> Prop) (cs : list ascii) :
  Forall (fun c => isWhite c = false -> P c) cs ->
  forall (cur : list ascii) (inRun : bool),
    Forall P cur -> Forall (Forall P) (splitRuns cs cur inRun).
Proof.
  induction 1 as [|c cs Hc _ IH]; intros cur inRun Hcur; simpl.
  - constructor; [apply Forall_rev, Hcur | constructor].
  - destruct (isWhite c) eqn:E.
    + destruct inRun.
      * apply IH, Hcur.
      * constructor; [apply Forall_rev, Hcur | apply IH; constructor].
    + apply IH. constructor; [apply Hc; reflexivity | exact Hcur].
Qed.

Lemma dropWhite_Forall (P : ascii -> Prop) (l : list ascii) :
  Forall P l -> Forall P (dropWhite l).
Proof.
  induction 1 as [|c l Hc Hl IH]; simpl; [constructor|].
  destruct (isWhite c); [exact IH | constructor; assumption].
Qed.

Lemma String_trim_Forall (P : ascii -> Prop) (s : string) :
  Forall P (list_ascii_of_string s) -> Forall P (list_ascii_of_string (String_trim s)).
Proof.
  intros H. unfold String_trim. rewrite list_ascii_of_string_of_list_ascii.
  apply Forall_rev, dropWhite_Forall, Forall_rev, dropWhite_Forall, H.
Qed.

Lemma setHas_iff_In (k : string) (s : list string) : setHas k s = true <-> In k s.
Proof.
  induction s as [|k' s IH]; simpl.
  - split; [discriminate | intros []].
  - rewrite orb_true_iff, IH, String.eqb_eq.
    split; intros [H|H]; [left | right | left | right]; auto.
Qed.

(** X6: every keyword the tokenizer returns has at least four characters,
    all of them lower-case letters or digits, and is not on the
    blacklist. *)
Theorem tokenizeWords_words (input : string) :
  Forall (fun w => (4 <= String.length w)%nat /\ allWordChars w /\ ~ In w WORD_BLACKLIST)
         (tokenizeWords input).
Proof.
  unfold tokenizeWords. apply Forall_forall. intros w Hw.
  apply filter_In in Hw as [Hin Hkeep].
  apply andb_true_iff in Hkeep as [Hlen Hblack].
  split; [apply Nat.leb_le, Hlen|].
  split.
  - apply in_map_iff in Hin as (piece & <- & Hpiece).
    apply String_trim_Forall.
    unfold splitWhite in Hpiece. apply in_map_iff in Hpiece as (cs & <- & Hcs).
    rewrite list_ascii_of_string_of_list_ascii.
    rewrite list_ascii_of_string_of_list_ascii in Hcs.
    assert (Hall : Forall (Forall (fun c => isWordChar c = true))
                     (splitRuns (map blankOther (list_ascii_of_string (String_toLowerCase input)))
                                [] false)).
    { apply splitRuns_pieces; [|constructor].
      apply Forall_map, Forall_forall. intros c _. apply blankOther_cases. }
    rewrite Forall_forall in Hall. apply Hall, Hcs.
  - intros Hbl. apply negb_true_iff in Hblack.
    apply setHas_iff_In in Hbl. congruence.
Qed.

(** ** Invariants of a parsed session *)

Lemma fold_add_list_sum (l : list nat) (a : nat) :
  fold_left Nat.add l a = (a + list_sum l)%nat.
Proof.
  revert a. induction l as [|x l IH]; intros a; simpl; [lia|]. rewrite IH. lia.
Qed.

Lemma setAdd_keeps_NoDup (k : string) (s : list string) : NoDup s -> NoDup (setAdd k s).
Proof.
  intros Hs. unfold setAdd. destruct (setHas k s) eqn:E; [exact Hs|].
  apply NoDup_app; [exact Hs | constructor; [intros [] | constructor] | ].
  intros x Hx [Hk|[]]. subst x. apply setHas_iff_In in Hx. congruence.
Qed.

Lemma mapSet_keys_NoDup {V : Type} (k : string) (v : V) (m : list (string * V)) :
  NoDup (map fst m) -> NoDup (map fst (mapSet k v m)).
Proof. intros H. rewrite map_fst_mapSet. apply setAdd_keeps_NoDup, H. Qed.

Lemma bumpTool_sum (m : list (string * nat)) (name : string) :
  list_sum (mapValues (bumpTool m name)) = S (list_sum (mapValues m)).
Proof.
  unfold bumpTool, mapValues.
  induction m as [|[k n] m IH]; simpl; [reflexivity|].
  destruct (String.eqb name k) eqn:E; simpl; [lia|].
  rewrite IH. lia.
Qed.

Lemma fold_bumpTool (names0 : list string) (m : list (string * nat)) :
  list_sum (mapValues (fold_left bumpTool names0 m))
  = (list_sum (mapValues m) + List.length names0)%nat
  /\ (NoDup (map fst m) -> NoDup (map fst (fold_left bumpTool names0 m))).
Proof.
  revert m. induction names0 as [|name names0 IH]; intros m; simpl.
  - split; [lia | auto].
  - destruct (IH (bumpTool m name)) as [IH1 IH2]. split.
    + rewrite IH1, bumpTool_sum. lia.
    + intros H. apply IH2. unfold bumpTool. apply mapSet_keys_NoDup, H.
Qed.

Lemma sumQ_app (l1 l2 : list Q) : sumQ (l1 ++ l2) == sumQ l1 + sumQ l2.
Proof.
  induction l1 as [|x l1 IH]; simpl.
  - unfold sumQ at 2. simpl. lra.
  - rewrite !sumQ_cons, IH. lra.
Qed.

Lemma sumQ_perm (l l' : list Q) : Permutation l l' -> sumQ l == sumQ l'.
Proof.
  induction 1 as [|x l l' _ IH|x y l|l l' l'' _ IH1 _ IH2].
  - reflexivity.
  - rewrite !sumQ_cons, IH. reflexivity.
  - rewrite !sumQ_cons. lra.
  - rewrite IH1. exact IH2.
Qed.

Lemma list_sum_perm (l l' : list nat) : Permutation l l' -> list_sum l = list_sum l'.
Proof. induction 1; simpl; lia. Qed.

(** Writing a key of a map changes the sum of a quantity over the values
    by the quantity of the new value minus that of the value it stands
    for. *)
Lemma sum_mapSet {V : Type} (g : V -> Q) (k : string) (v d : V) (m : list (string * V)) :
  g d == 0 ->
  sumQ (map g (mapValues (mapSet k v m)))
  == sumQ (map g (mapValues m)) + g v - g (getOr (assoc k m) d).
Proof.
  intros Hd. unfold mapValues. induction m as [|[k0 v0] m IH]; simpl.
  - rewrite sumQ_cons. unfold sumQ. simpl. lra.
  - destruct (String.eqb k k0); simpl.
    + rewrite !sumQ_cons. lra.
    + rewrite !sumQ_cons, IH. lra.
Qed.

Lemma list_sum_mapSet {V : Type} (g : V -> nat) (k : string) (v d : V) (m : list (string * V)) :
  g d = 0%nat ->
  (list_sum (map g (mapValues (mapSet k v m))) + g (getOr (assoc k m) d)
   = list_sum (map g (mapValues m)) + g v)%nat.
Proof.
  intros Hd. unfold mapValues. induction m as [|[k0 v0] m IH]; simpl.
  - lia.
  - destruct (String.eqb k k0); simpl; lia.
Qed.

Lemma extractCostBreakdown_nonneg (usageRaw : JsValue) (b : CostBreakdown) :
  extractCostBreakdown usageRaw = Some b -> 0 <= c_total b.
Proof.
  unfold extractCostBreakdown.
  destruct (asRecord (asRecord usageRaw).["cost"]); [|discriminate].
  match goal with |- context [toFinite ?x] => destruct (toFinite x) as [t|] end;
    [|discriminate].
  destruct (Qle_bool 0 t) eqn:E; [|discriminate].
  intros H. injection H as <-. simpl. apply Qle_bool_iff, E.
Qed.

Lemma costContribution_nonneg (record : JsValue) : 0 <= costContribution record.
Proof.
  unfold costContribution.
  destruct (extractCostBreakdown (usageRawOf record)) as [b|] eqn:E.
  - eapply extractCostBreakdown_nonneg, E.
  - destruct (rawCostTotalOf record (messageOf record)) as [t|]; [|lra].
    destruct (Qle_bool 0 t) eqn:Et; [apply Qle_bool_iff, Et | lra].
Qed.

Lemma normalizeUsage_nonneg (raw : JsValue) (u : Usage) :
  normalizeUsage raw = Some u ->
  0 <= u_input u /\ 0 <= u_output u /\ 0 <= u_cacheRead u /\ 0 <= u_cacheWrite u
  /\ 0 <= u_total u.
Proof.
  unfold normalizeUsage. destruct (asRecord raw); [|discriminate].
  match goal with |- (if ?c then _ else _) = _ -> _ => destruct c end; [discriminate|].
  intros H. injection H as <-. simpl. repeat split; apply Math_max_nonneg.
Qed.

(** The loop body on one [Totals] object, field by field. *)
Lemma entry_totals_step (record : JsValue) (u : Usage) (t : Totals) :
  let t' := applyEntryCost record (applyUsageTotals t u) in
  t_input t' = t_input t + u_input u
  /\ t_output t' = t_output t + u_output u
  /\ t_cacheRead t' = t_cacheRead t + u_cacheRead u
  /\ t_cacheWrite t' = t_cacheWrite t + u_cacheWrite u
  /\ totalTokens t' = totalTokens t + u_total u
  /\ totalCost t' == totalCost t + costContribution record
  /\ missingCostEntries t'
     = (missingCostEntries t
        + if negb (isSome (extractCostBreakdown (usageRawOf record)))
             && negb match rawCostTotalOf record (messageOf record) with
                     | Some c => Qle_bool 0 c
                     | None => false
                     end
          then 1 else 0)%nat.
Proof.
  cbv zeta.
  destruct (applyEntryCost_tokens record (applyUsageTotals t u)) as (E1 & E2 & E3 & E4 & E5).
  rewrite E1, E2, E3, E4, E5, applyEntryCost_cost. simpl.
  repeat split; try reflexivity.
  unfold applyEntryCost, applyCostTotal.
  destruct (extractCostBreakdown (usageRawOf record)); simpl; [lia|].
  destruct (rawCostTotalOf record (messageOf record)) as [c|]; simpl; [|lia].
  destruct (Qle_bool 0 c); simpl; lia.
Qed.

Lemma StronglySorted_app_inv {A : Type} (R : A -> A -> Prop) (l1 l2 : list A) :
  StronglySorted R (l1 ++ l2) ->
  StronglySorted R l2 /\ forall a b, In a l1 -> In b l2 -> R a b.
Proof.
  induction l1 as [|x l1 IH]; simpl; intros H.
  - split; [exact H | intros a b []].
  - inversion H as [|? ? Hs Hall]; subst. destruct (IH Hs) as [IH1 IH2].
    split; [exact IH1|]. intros a b [<-|Ha] Hb.
    + rewrite Forall_forall in Hall. apply Hall, in_or_app. right. exact Hb.
    + apply IH2; assumption.
Qed.

Lemma tailLimit_suffix {A : Type} (limit : Q) (l : list A) :
  exists older, l = older ++ tailLimit limit l.
Proof.
  unfold tailLimit. destruct (Qle_bool (lenQ l) limit).
  - exists []. reflexivity.
  - eexists. symmetry. apply firstn_skipn.
Qed.

Lemma tailLimit_bound {A : Type} (limit : Q) (l : list A) :
  0 <= limit -> lenQ (tailLimit limit l) < limit + 1.
Proof.
  intros Hlimit. unfold tailLimit. destruct (Qle_bool (lenQ l) limit) eqn:E.
  - apply Qle_bool_iff in E. lra.
  - apply Qle_bool_false in E.
    set (x := lenQ l - limit) in *.
    assert (Hxd : x == lenQ l - limit) by reflexivity.
    assert (Hx : 0 < x) by (unfold x; lra).
    pose proof (Qfloor_le x) as Hfl. pose proof (Qlt_floor x) as Hfu.
    assert (H0 : (0 <= Qfloor x)%Z).
    { rewrite <- (Qfloor_Z 0). apply Qfloor_resp_le. change (inject_Z 0) with 0. lra. }
    assert (Hk : (Qfloor x <= Z.of_nat (List.length l))%Z).
    { rewrite Zle_Qle. clearbody x. unfold lenQ in *. lra. }
    unfold lenQ. rewrite length_skipn.
    rewrite Nat2Z.inj_sub by lia. rewrite Z2Nat.id by exact H0.
    unfold Zminus. rewrite inject_Z_plus, inject_Z_opp.
    rewrite inject_Z_plus in Hfu. change (inject_Z 1) with 1 in Hfu.
    clearbody x. unfold lenQ in *. lra.
Qed.

Lemma lenQ_nat_le {A : Type} (l : list A) (n : nat) :
  lenQ l < natQ n + 1 -> (List.length l <= n)%nat.
Proof.
  unfold lenQ, natQ. intros H.
  assert (H' : inject_Z (Z.of_nat (List.length l)) < inject_Z (Z.of_nat n + 1)).
  { rewrite inject_Z_plus. exact H. }
  rewrite <- Zlt_Qlt in H'. lia.
Qed.

Lemma Math_max_0_of_nonneg_eq (b : Q) : 0 <= b -> Math_max 0 b == b.
Proof. intros H. rewrite Math_max_0_of_nonneg by exact H. reflexivity. Qed.

Lemma pushPreview_length (preview : list PreviewItem) (item : PreviewItem) :
  (List.length preview <= 8)%nat -> (List.length (pushPreview preview item) <= 8)%nat.
Proof.
  intros H. unfold pushPreview.
  destruct (8 <? List.length (preview ++ [item]))%nat eqn:E.
  - destruct preview; simpl in *; rewrite ?length_app in *; simpl in *; lia.
  - apply Nat.ltb_ge in E. exact E.
Qed.

Lemma setAdd_In (x k : string) (s : list string) : In x (setAdd k s) <-> x = k \/ In x s.
Proof.
  unfold setAdd. destruct (setHas k s) eqn:E.
  - apply setHas_iff_In in E. split; [right; assumption|]. intros [->|H]; assumption.
  - rewrite in_app_iff. simpl. split.
    + intros [H|[H|[]]]; [right | left]; auto.
    + intros [H|H]; [right; left | left]; auto.
Qed.

Lemma In_mapSet {V : Type} (k : string) (v : V) (m : list (string * V)) (kv : string * V) :
  In kv (mapSet k v m) -> kv = (k, v) \/ In kv m.
Proof.
  induction m as [|[k' v'] m IH]; simpl.
  - intros [H|[]]. left. symmetry. exact H.
  - destruct (String.eqb k k') eqn:E; simpl.
    + apply String.eqb_eq in E. subst k'. intros [H|H]; [left; symmetry | right; right]; auto.
    + intros [H|H]; [right; left; exact H|]. destruct (IH H); [left | right; right]; auto.
Qed.

Section SessionFacts.
Variable JSON_parse : string -> option Json.
Variable Date_parse : string -> option Q.
Variables getUTCFullYear getUTCMonth getUTCDate : Q -> Z.

Local Abbreviation foldRecord' :=
  (foldRecord Date_parse getUTCFullYear getUTCMonth getUTCDate).
Local Abbreviation processLine' :=
  (processLine JSON_parse Date_parse getUTCFullYear getUTCMonth getUTCDate).
Local Abbreviation parseLines' :=
  (parseLines JSON_parse Date_parse getUTCFullYear getUTCMonth getUTCDate).
Local Abbreviation parseSessionFile' :=
  (parseSessionFile JSON_parse Date_parse getUTCFullYear getUTCMonth getUTCDate).
Local Abbreviation recordsOf' := (recordsOf JSON_parse Date_parse).

(** What holds initially and is kept by the loop body on every record
    that reaches it holds at the end of the loop. *)
Lemma parseLines_invariant (P : ParseState -> Prop) (range0 : Range) :
  P initialState ->
  (forall st record,
     P st -> processed Date_parse range0 record = true -> P (foldRecord' st record)) ->
  forall lines, P (parseLines' range0 lines).
Proof.
  intros Hinit Hstep lines. unfold parseLines.
  generalize initialState Hinit. induction lines as [|rawLine lines IH]; intros st Hst.
  - exact Hst.
  - simpl. apply IH.
    destruct (recordOfLine_cases JSON_parse Date_parse range0 rawLine)
      as [Hnone|(record & Hrec & Hproc)].
    + rewrite (processLine_skip _ _ _ _ _ _ _ _ Hnone). exact Hst.
    + rewrite (processLine_record _ _ _ _ _ _ _ _ _ Hrec). apply Hstep; assumption.
Qed.

Lemma foldRecord_counts (st : ParseState) (record : JsValue) :
  st_messageCounts (foldRecord' st record)
  = countError (stopReasonIsError (stopReasonOf record (messageOf record)))
      (countTools (extractToolDetails (messageOf record))
         (countMessage (roleOfRecord record) (st_messageCounts st))).
Proof. reflexivity. Qed.

Lemma foldRecord_toolMap (st : ParseState) (record : JsValue) :
  st_toolMap (foldRecord' st record)
  = fold_left bumpTool (names (extractToolDetails (messageOf record))) (st_toolMap st).
Proof. reflexivity. Qed.

Lemma counts_step (role : option Role) (t : ToolDetails) (isErr : bool) (mc : MessageCounts) :
  let mc' := countError isErr (countTools t (countMessage role mc)) in
  m_total mc' = (m_total mc + if isUserOrAssistant role then 1 else 0)%nat
  /\ m_user mc' = (m_user mc + if isRole role user then 1 else 0)%nat
  /\ m_assistant mc' = (m_assistant mc + if isRole role assistant then 1 else 0)%nat
  /\ m_toolCalls mc' = (m_toolCalls mc + List.length (names t))%nat.
Proof.
  unfold countError, countTools, countMessage.
  destruct role as [[| | |]|]; destruct isErr;
    destruct (0 <? List.length (names t))%nat eqn:En;
    destruct (0 <? results t)%nat; simpl;
    try apply Nat.ltb_ge in En; repeat split; lia.
Qed.

(** X7: in every session summary the message total is the number of user
    and assistant messages, the tool table has one row per tool name, and
    its counts add up to [totalCalls], which is the [toolCalls] counter. *)
Theorem session_counts_consistent (params : ParseParams) (lines : list string) :
  let s := parseSessionFile' params lines in
  m_total (s_messageCounts s) = (m_user (s_messageCounts s) + m_assistant (s_messageCounts s))%nat
  /\ totalCalls (s_toolUsage s) = m_toolCalls (s_messageCounts s)
  /\ list_sum (map tr_count (tools (s_toolUsage s))) = totalCalls (s_toolUsage s)
  /\ uniqueTools (s_toolUsage s) = List.length (tools (s_toolUsage s))
  /\ NoDup (map tr_name (tools (s_toolUsage s))).
Proof.
  cbv zeta. unfold parseSessionFile, finishSession.
  cbn [s_messageCounts s_toolUsage totalCalls tools uniqueTools].
  pose proof (parseLines_invariant
                (fun st => m_total (st_messageCounts st)
                           = (m_user (st_messageCounts st) + m_assistant (st_messageCounts st))%nat
                           /\ list_sum (mapValues (st_toolMap st)) = m_toolCalls (st_messageCounts st)
                           /\ NoDup (map fst (st_toolMap st)))
                (range params)) as Hinv.
  destruct (Hinv (conj eq_refl (conj eq_refl (NoDup_nil _)))) with (lines := lines)
    as (Htotal & Hsum & Hnd).
  { intros st record (H1 & H2 & H3) _.
    rewrite foldRecord_counts, foldRecord_toolMap.
    destruct (counts_step (roleOfRecord record) (extractToolDetails (messageOf record))
                (stopReasonIsError (stopReasonOf record (messageOf record)))
                (st_messageCounts st)) as (E1 & E2 & E3 & E4).
    destruct (fold_bumpTool (names (extractToolDetails (messageOf record))) (st_toolMap st))
      as [F1 F2].
    rewrite E1, E2, E3, E4, F1. split; [|split; [lia | apply F2, H3]].
    destruct (roleOfRecord record) as [[| | |]|]; simpl; lia. }
  set (st := parseLines' (range params) lines) in *.
  set (rows := map (fun kv : string * nat => mkToolRow (fst kv) (snd kv)) (st_toolMap st)).
  set (sorted := Array_sort _ rows).
  assert (Hperm : Permutation sorted rows) by apply Array_sort_perm.
  assert (Hcounts : map tr_count rows = mapValues (st_toolMap st)).
  { unfold rows, mapValues. rewrite map_map. reflexivity. }
  assert (Hnames : map tr_name rows = map fst (st_toolMap st)).
  { unfold rows. rewrite map_map. reflexivity. }
  split; [exact Htotal|].
  split; [rewrite fold_add_list_sum; simpl; exact Hsum|].
  split.
  { rewrite fold_add_list_sum. simpl. rewrite <- Hcounts.
    clear -Hperm. induction Hperm; simpl; lia. }
  split.
  { rewrite (Permutation_length Hperm). unfold rows. rewrite length_map. reflexivity. }
  eapply Permutation_NoDup; [apply Permutation_map, Permutation_sym, Hperm|].
  rewrite Hnames. exact Hnd.
Qed.
(** X8: the token counts and the total cost of a session summary are
    never negative, whatever the transcript holds. *)
Theorem session_totals_nonneg (params : ParseParams) (lines : list string) :
  tokenFieldsNonNegative (s_totals (parseSessionFile' params lines)).
Proof.
  unfold parseSessionFile, finishSession. cbn [s_totals].
  apply (parseLines_invariant (fun st => tokenFieldsNonNegative (st_totals st))).
  - unfold tokenFieldsNonNegative. simpl. repeat split; lra.
  - intros st record Hst _. rewrite foldRecord_totals.
    destruct (normalizeUsage (usageRawOf record)) as [u|] eqn:Eu; [|exact Hst].
    destruct (entry_totals_step record u (st_totals st)) as (E1 & E2 & E3 & E4 & E5 & E6 & _).
    destruct (normalizeUsage_nonneg _ _ Eu) as (U1 & U2 & U3 & U4 & U5).
    pose proof (costContribution_nonneg record) as Hc.
    unfold tokenFieldsNonNegative in *.
    destruct Hst as (H1 & H2 & H3 & H4 & H5 & H6).
    rewrite E1, E2, E3, E4, E5, E6. repeat split; lra.
Qed.

Lemma totals_fold (range0 : Range) (lines : list string) (st : ParseState) :
  totalTokens (st_totals (fold_left (processLine' range0) lines st))
  == totalTokens (st_totals st) + sumQ (map recordTokens (recordsOf' range0 lines))
  /\ totalCost (st_totals (fold_left (processLine' range0) lines st))
     == totalCost (st_totals st) + sumQ (map recordCost (recordsOf' range0 lines))
  /\ missingCostEntries (st_totals (fold_left (processLine' range0) lines st))
     = (missingCostEntries (st_totals st)
        + List.length (List.filter missesCost (recordsOf' range0 lines)))%nat.
Proof.
  revert st. induction lines as [|rawLine lines IH]; intros st.
  - unfold recordsOf, sumQ. simpl. repeat split; try lra; try lia.
  - cbn [fold_left]. rewrite recordsOf_cons, !map_app, filter_app, length_app, !sumQ_app.
    destruct (IH (processLine' range0 st rawLine)) as (I1 & I2 & I3).
    rewrite I1, I2, I3. clear I1 I2 I3 IH.
    destruct (recordOfLine_cases JSON_parse Date_parse range0 rawLine)
      as [Hnone|(record & Hrec & _)].
    + rewrite (processLine_skip _ _ _ _ _ _ _ _ Hnone), Hnone.
      unfold sumQ. simpl. repeat split; try lra; try lia.
    + rewrite (processLine_record _ _ _ _ _ _ _ _ _ Hrec), Hrec, foldRecord_totals.
      generalize (sumQ (map recordTokens (recordsOf' range0 lines))).
      generalize (sumQ (map recordCost (recordsOf' range0 lines))).
      generalize (List.length (List.filter missesCost (recordsOf' range0 lines))).
      intros restM restC restT.
      cbn [map List.filter]. rewrite !sumQ_cons. change (sumQ []) with 0.
      unfold recordTokens, recordCost, missesCost, usageOfRecord.
      destruct (normalizeUsage (usageRawOf record)) as [u|]; cbn [isSome andb].
      * destruct (entry_totals_step record u (st_totals st)) as (_ & _ & _ & _ & E5 & E6 & E7).
        rewrite E5, E6, E7.
        destruct (negb (isSome (extractCostBreakdown (usageRawOf record)))
                  && negb match rawCostTotalOf record (messageOf record) with
                          | Some c => Qle_bool 0 c
                          | None => false
                          end); simpl; repeat split; try lra; try lia.
      * simpl. repeat split; try lra; try lia.
Qed.

(** X9: the totals of a session are sums over the records that reach the
    loop body: total tokens is the sum of the records' usage totals, total
    cost the sum of what each record's cost information gives, and
    [missingCostEntries] the number of usage records without usable cost. *)
Theorem session_totals_are_sums (params : ParseParams) (lines : list string) :
  totalTokens (s_totals (parseSessionFile' params lines))
  == sumQ (map recordTokens (recordsOf' (range params) lines))
  /\ totalCost (s_totals (parseSessionFile' params lines))
     == sumQ (map recordCost (recordsOf' (range params) lines))
  /\ missingCostEntries (s_totals (parseSessionFile' params lines))
     = List.length (List.filter missesCost (recordsOf' (range params) lines)).
Proof.
  unfold parseSessionFile, finishSession, parseLines. cbn [s_totals].
  destruct (totals_fold (range params) lines initialState) as (H1 & H2 & H3).
  rewrite H1, H2, H3. simpl. repeat split; try lra.
Qed.

Lemma sumQ_ge_member (l : list Q) (x : Q) :
  Forall (fun y => 0 <= y) l -> In x l -> x <= sumQ l.
Proof.
  intros Hall. induction Hall as [|y l Hy Hl IH]; intros Hin; [contradiction|].
  rewrite sumQ_cons.
  assert (Hs : 0 <= sumQ l).
  { clear IH Hin. induction Hl as [|z l' Hz _ IH']; [unfold sumQ; simpl; lra|].
    rewrite sumQ_cons. lra. }
  destruct Hin as [<-|Hin]; [lra|]. specialize (IH Hin). lra.
Qed.

(** X10: the per-model breakdown of a session adds up to the session
    totals in tokens and in missing cost entries, and no model row has a
    negative cost or a cost above the session's total cost.  (The costs
    of the rows are not said to add up to the total: the code adds them
    up in another order, and rounds.) *)
Theorem modelUsage_adds_up (params : ParseParams) (lines : list string) :
  let s := parseSessionFile' params lines in
  sumQ (map (fun m => totalTokens (mb_totals m)) (s_modelUsage s)) == totalTokens (s_totals s)
  /\ list_sum (map (fun m => missingCostEntries (mb_totals m)) (s_modelUsage s))
     = missingCostEntries (s_totals s)
  /\ Forall (fun m => 0 <= totalCost (mb_totals m)
                      /\ totalCost (mb_totals m) <= totalCost (s_totals s))
            (s_modelUsage s).
Proof.
  cbv zeta. unfold parseSessionFile, finishSession. cbn [s_modelUsage s_totals].
  pose proof (parseLines_invariant
    (fun st =>
       sumQ (map (fun m => totalTokens (mb_totals m)) (mapValues (st_modelMap st)))
       == totalTokens (st_totals st)
       /\ sumQ (map (fun m => totalCost (mb_totals m)) (mapValues (st_modelMap st)))
          == totalCost (st_totals st)
       /\ list_sum (map (fun m => missingCostEntries (mb_totals m)) (mapValues (st_modelMap st)))
          = missingCostEntries (st_totals st)
       /\ Forall (fun kv : string * ModelBucket => 0 <= totalCost (mb_totals (snd kv)))
                 (st_modelMap st))
    (range params)) as Hinv.
  destruct Hinv with (lines := lines) as (H1 & H2 & H3 & H4).
  { unfold sumQ. simpl. repeat split; try reflexivity. constructor. }
  { intros st record (H1 & H2 & H3 & H4) _.
    rewrite foldRecord_totals, foldRecord_modelMap.
    destruct (normalizeUsage (usageRawOf record)) as [u|]; [|repeat split; assumption].
    cbv zeta.
    set (fresh := mkModelBucket (stringField (messageOf record) record "provider")
                                (stringField (messageOf record) record "model") 0 createTotals).
    set (old := getOr (assoc (modelKeyOfRecord record) (st_modelMap st)) fresh).
    destruct (entry_totals_step record u (mb_totals old)) as (_ & _ & _ & _ & B5 & B6 & B7).
    destruct (entry_totals_step record u (st_totals st)) as (_ & _ & _ & _ & E5 & E6 & E7).
    split; [|split; [|split]].
    - rewrite (sum_mapSet (fun m => totalTokens (mb_totals m)) _ _ fresh) by reflexivity.
      fold old. cbn [mb_totals]. rewrite B5, E5, H1. lra.
    - rewrite (sum_mapSet (fun m => totalCost (mb_totals m)) _ _ fresh) by reflexivity.
      fold old. cbn [mb_totals]. rewrite B6, E6, H2. lra.
    - pose proof (list_sum_mapSet (fun m => missingCostEntries (mb_totals m))
                    (modelKeyOfRecord record)
                    (mkModelBucket (mb_provider old) (mb_model old) (mb_count old + 1)
                       (applyEntryCost record (applyUsageTotals (mb_totals old) u)))
                    fresh (st_modelMap st) eq_refl) as Hs.
      fold old in Hs. cbn [mb_totals] in Hs. rewrite B7 in Hs. rewrite E7. lia.
    - apply Forall_mapSet; [exact H4|]. cbn [snd mb_totals]. rewrite B6.
      pose proof (costContribution_nonneg record) as Hc.
      assert (Hold : 0 <= totalCost (mb_totals old)).
      { unfold old. destruct (assoc (modelKeyOfRecord record) (st_modelMap st)) as [b|] eqn:Eb.
        - apply assoc_In in Eb. rewrite Forall_forall in H4. apply (H4 _ Eb).
        - cbn. lra. }
      lra. }
  set (st := parseLines' (range params) lines) in *.
  set (sorted := Array_sort _ (mapValues (st_modelMap st))).
  assert (Hperm : Permutation sorted (mapValues (st_modelMap st))) by apply Array_sort_perm.
  assert (Hnonneg : Forall (fun y => 0 <= y)
                           (map (fun m => totalCost (mb_totals m)) (mapValues (st_modelMap st)))).
  { unfold mapValues. rewrite map_map. apply Forall_map. exact H4. }
  split; [|split].
  - rewrite <- H1. apply sumQ_perm, Permutation_map, Hperm.
  - rewrite <- H3. apply list_sum_perm, Permutation_map, Hperm.
  - eapply Permutation_Forall; [apply Permutation_sym, Hperm|].
    apply Forall_forall. intros m Hm.
    assert (Hin : In (totalCost (mb_totals m))
                     (map (fun m => totalCost (mb_totals m)) (mapValues (st_modelMap st))))
      by (apply in_map_iff; exists m; split; [reflexivity | exact Hm]).
    split.
    + rewrite Forall_forall in Hnonneg. apply Hnonneg, Hin.
    + rewrite <- H2. apply sumQ_ge_member; assumption.
Qed.

Lemma processed_in_window (range0 : Range) (record : JsValue) (ts : Q) :
  processed Date_parse range0 record = true ->
  timestampOf Date_parse record = Some ts -> inWindow range0 ts = true.
Proof.
  unfold processed, timestampOf, inRange. destruct (asRecord record); [|discriminate].
  intros H E. rewrite E in H. exact H.
Qed.

(** X11: the timeline of a session summary is in ascending order of
    timestamp, holds only events inside the requested window, keeps the
    most recent events (every dropped event is no later than every kept
    one) and, for a limit of n events, has at most n entries. *)
Theorem session_timeline_bounded (params : ParseParams) (lines : list string) :
  let s := parseSessionFile' params lines in
  StronglySorted earlierEvent (s_timeline s)
  /\ Forall (fun e => inWindow (range params) (e_timestamp e) = true) (s_timeline s)
  /\ (exists older,
        Permutation (older ++ s_timeline s) (st_timeline (parseLines' (range params) lines))
        /\ forall o e, In o older -> In e (s_timeline s) -> earlierEvent o e)
  /\ (0 <= timelineLimit params -> lenQ (s_timeline s) < timelineLimit params + 1)
  /\ (forall n : nat, timelineLimit params == natQ n -> (List.length (s_timeline s) <= n)%nat).
Proof.
  cbv zeta. unfold parseSessionFile, finishSession. cbn [s_timeline].
  set (st := parseLines' (range params) lines).
  set (sorted := Array_sort (fun a b => e_timestamp a - e_timestamp b) (st_timeline st)).
  assert (Hsorted : StronglySorted earlierEvent sorted).
  { eapply StronglySorted_impl; [|apply Array_sort_sorted].
    - intros a b. unfold before, earlierEvent. lra.
    - intros x y. destruct (Qlt_le_dec (e_timestamp x) (e_timestamp y)); [left|right]; lra.
    - intros x y z. lra. }
  destruct (tailLimit_suffix (timelineLimit params) sorted) as (older & Hsplit).
  rewrite Hsplit in Hsorted. apply StronglySorted_app_inv in Hsorted as [Htail Hcross].
  assert (Hwin : Forall (fun e => inWindow (range params) (e_timestamp e) = true)
                        (st_timeline st)).
  { apply (parseLines_invariant
             (fun st => Forall (fun e => inWindow (range params) (e_timestamp e) = true)
                               (st_timeline st))); [constructor|].
    intros st0 record Hst Hproc.
    destruct (foldRecord_timeline Date_parse getUTCFullYear getUTCMonth getUTCDate st0 record)
      as [Hyes Hno].
    destruct (timelineEligible Date_parse record) eqn:E.
    - destruct (Hyes eq_refl) as (ev & -> & Hts & _).
      apply Forall_app. split; [exact Hst|]. constructor; [|constructor].
      eapply processed_in_window; [exact Hproc | symmetry; exact Hts].
    - rewrite (Hno eq_refl). exact Hst. }
  assert (Hperm : Permutation (older ++ tailLimit (timelineLimit params) sorted) (st_timeline st)).
  { rewrite <- Hsplit. apply Array_sort_perm. }
  split; [exact Htail|].
  split.
  { eapply Permutation_Forall in Hwin; [|apply Permutation_sym, Hperm].
    apply Forall_app in Hwin. tauto. }
  split; [exists older; split; assumption|].
  split; [apply tailLimit_bound|].
  intros n Hn. apply lenQ_nat_le. rewrite <- Hn. apply tailLimit_bound.
  rewrite Hn. unfold natQ. change 0 with (inject_Z 0). rewrite <- Zle_Qle. lia.
Qed.

Lemma foldRecord_waterfall_spans (range0 : Range) (st : ParseState) (record : JsValue) :
  processed Date_parse range0 record = true ->
  Forall (spanWellFormed range0) (st_waterfall st) ->
  Forall (spanWellFormed range0) (st_waterfall (foldRecord' st record)).
Proof.
  intros Hproc Hst. unfold foldRecord. cbn [st_waterfall].
  destruct (parseTimestampMs Date_parse record (messageOf record)) as [ts|] eqn:Ets;
    [|exact Hst].
  assert (Hwin : inWindow range0 ts = true)
    by (eapply processed_in_window; [exact Hproc | exact Ets]).
  match goal with
  | |- Forall _ match ?last with Some _ => _ | None => _ end => destruct last as [lu|]
  end; [|exact Hst].
  destruct (isRole (roleOf (messageOf record)) assistant); [|exact Hst].
  apply Forall_app. split; [exact Hst|]. constructor; [|constructor].
  unfold spanWellFormed. cbn [w_startTs w_endTs w_latencyMs].
  destruct (Math_min_cases lu ts) as [[H1 ->]|[H1 ->]];
    destruct (Math_max_cases 0 (ts - lu)) as [[H2 ->]|[H2 ->]];
    repeat split; try lra; exact Hwin.
Qed.

(** X12: every span of a session's waterfall runs forward in time, has a
    non-negative latency equal to its length and ends inside the requested
    window; the spans are in ascending order of start time and, for a
    limit of n, at most n are kept. *)
Theorem session_waterfall_spans (params : ParseParams) (lines : list string) :
  let s := parseSessionFile' params lines in
  Forall (spanWellFormed (range params)) (s_waterfall s)
  /\ StronglySorted earlierSpan (s_waterfall s)
  /\ (forall n : nat, timelineLimit params == natQ n -> (List.length (s_waterfall s) <= n)%nat).
Proof.
  cbv zeta. unfold parseSessionFile, finishSession. cbn [s_waterfall].
  set (st := parseLines' (range params) lines).
  set (sorted := Array_sort (fun a b => w_startTs a - w_startTs b) (st_waterfall st)).
  assert (Hsorted : StronglySorted earlierSpan sorted).
  { eapply StronglySorted_impl; [|apply Array_sort_sorted].
    - intros a b. unfold before, earlierSpan. lra.
    - intros x y. destruct (Qlt_le_dec (w_startTs x) (w_startTs y)); [left|right]; lra.
    - intros x y z. lra. }
  destruct (tailLimit_suffix (timelineLimit params) sorted) as (older & Hsplit).
  rewrite Hsplit in Hsorted. apply StronglySorted_app_inv in Hsorted as [Htail _].
  assert (Hok : Forall (spanWellFormed (range params)) (st_waterfall st)).
  { apply (parseLines_invariant
             (fun st => Forall (spanWellFormed (range params)) (st_waterfall st)));
      [constructor|].
    intros st0 record Hst Hproc. apply foldRecord_waterfall_spans; assumption. }
  split.
  { assert (Hall : Forall (spanWellFormed (range params)) sorted).
    { eapply Permutation_Forall; [apply Permutation_sym, Array_sort_perm | exact Hok]. }
    rewrite Hsplit in Hall. apply Forall_app in Hall. tauto. }
  split; [exact Htail|].
  intros n Hn. apply lenQ_nat_le. rewrite <- Hn. apply tailLimit_bound.
  rewrite Hn. unfold natQ. change 0 with (inject_Z 0). rewrite <- Zle_Qle. lia.
Qed.

Lemma foldRecord_activity (st : ParseState) (record : JsValue) :
  st_firstActivity (foldRecord' st record)
  = match timestampOf Date_parse record with
    | Some ts => Some (match st_firstActivity st with
                       | None => ts
                       | Some f => Math_min f ts
                       end)
    | None => st_firstActivity st
    end
  /\ st_lastActivity (foldRecord' st record)
     = match timestampOf Date_parse record with
       | Some ts => Some (match st_lastActivity st with
                          | None => ts
                          | Some l => Math_max l ts
                          end)
       | None => st_lastActivity st
       end.
Proof. split; reflexivity. Qed.

(** X13: a session has a first and a last activity together or not at
    all; when it has them the first is not after the last, the duration is
    their difference, and every timeline event lies between them; when it
    has none, the timeline is empty. *)
Theorem session_activity_span (params : ParseParams) (lines : list string) :
  let s := parseSessionFile' params lines in
  match s_firstActivity s, s_lastActivity s with
  | Some f, Some l =>
    f <= l
    /\ (exists d, s_durationMs s = Some d /\ d == l - f)
    /\ Forall (fun e => f <= e_timestamp e /\ e_timestamp e <= l) (s_timeline s)
  | None, None => s_durationMs s = None /\ s_timeline s = []
  | _, _ => False
  end.
Proof.
  cbv zeta. unfold parseSessionFile, finishSession.
  cbn [s_firstActivity s_lastActivity s_durationMs s_timeline].
  pose proof (parseLines_invariant
    (fun st => match st_firstActivity st, st_lastActivity st with
               | Some f, Some l =>
                 f <= l /\ Forall (fun e => f <= e_timestamp e /\ e_timestamp e <= l)
                                  (st_timeline st)
               | None, None => st_timeline st = []
               | _, _ => False
               end) (range params)) as Hinv.
  specialize (Hinv eq_refl).
  assert (Hstate : match st_firstActivity (parseLines' (range params) lines),
                         st_lastActivity (parseLines' (range params) lines) with
                   | Some f, Some l =>
                     f <= l /\ Forall (fun e => f <= e_timestamp e /\ e_timestamp e <= l)
                                      (st_timeline (parseLines' (range params) lines))
                   | None, None => st_timeline (parseLines' (range params) lines) = []
                   | _, _ => False
                   end).
  { apply Hinv. clear Hinv. intros st record Hst _.
    destruct (foldRecord_activity st record) as [-> ->].
    destruct (foldRecord_timeline Date_parse getUTCFullYear getUTCMonth getUTCDate st record)
      as [Hyes Hno].
    unfold timelineEligible in Hyes, Hno.
    destruct (timestampOf Date_parse record) as [ts|] eqn:Ets.
    - assert (Hnew : forall f l, f <= ts -> ts <= l ->
                 Forall (fun e => f <= e_timestamp e /\ e_timestamp e <= l) (st_timeline st) ->
                 Forall (fun e => f <= e_timestamp e /\ e_timestamp e <= l)
                        (st_timeline (foldRecord' st record))).
      { intros f l Hf Hl Hold. destruct (isSome (roleOfRecord record)) eqn:Er.
        - destruct (Hyes eq_refl) as (ev & -> & Hev & _). injection Hev as Hev.
          apply Forall_app. split; [exact Hold|]. constructor; [|constructor].
          rewrite Hev. split; assumption.
        - rewrite (Hno eq_refl). exact Hold. }
      destruct (st_firstActivity st) as [f|], (st_lastActivity st) as [l|]; try contradiction.
      + destruct Hst as [Hfl Hall].
        destruct (Math_min_cases f ts) as [[H1 ->]|[H1 ->]];
          destruct (Math_max_cases l ts) as [[H2 ->]|[H2 ->]];
          (split; [lra|]); apply Hnew; try lra;
          (eapply Forall_impl; [|exact Hall]); intros e [? ?]; split; lra.
      + split; [lra|]. apply Hnew; try lra. rewrite Hst. constructor.
    - cbn [isSome andb] in Hno. rewrite (Hno eq_refl). exact Hst. }
  set (st := parseLines' (range params) lines) in *.
  destruct (st_firstActivity st) as [f|], (st_lastActivity st) as [l|]; try contradiction.
  - destruct Hstate as [Hfl Hall]. split; [exact Hfl|]. split.
    + eexists. split; [reflexivity|]. apply Math_max_0_of_nonneg_eq. lra.
    + destruct (tailLimit_suffix (timelineLimit params)
                  (Array_sort (fun a b => e_timestamp a - e_timestamp b) (st_timeline st)))
        as (older & Hsplit).
      assert (Hs : Forall (fun e => f <= e_timestamp e /\ e_timestamp e <= l)
                          (Array_sort (fun a b => e_timestamp a - e_timestamp b)
                                      (st_timeline st))).
      { eapply Permutation_Forall; [apply Permutation_sym, Array_sort_perm | exact Hall]. }
      rewrite Hsplit in Hs. apply Forall_app in Hs. tauto.
  - split; [reflexivity|]. rewrite Hstate. unfold tailLimit. simpl.
    destruct (Qle_bool (lenQ (@nil TimelineEvent)) (timelineLimit params)); [reflexivity|].
    apply skipn_nil.
Qed.

Lemma foldRecord_preview (st : ParseState) (record : JsValue) :
  (List.length (st_preview st) <= 8)%nat ->
  (List.length (st_preview (foldRecord' st record)) <= 8)%nat.
Proof.
  intros H. unfold foldRecord. cbn [st_preview].
  destruct (roleOf (messageOf record)); [|exact H].
  match goal with |- context [if ?c then _ else _] => destruct c end; [exact H|].
  apply pushPreview_length, H.
Qed.

Lemma foldRecord_latencyValues (st : ParseState) (record : JsValue) :
  st_latencyValues (foldRecord' st record) = st_latencyValues st
  \/ (isRole (roleOfRecord record) assistant = true
      /\ exists d, st_latencyValues (foldRecord' st record) = st_latencyValues st ++ [d]).
Proof.
  unfold foldRecord, roleOfRecord. cbn [st_latencyValues].
  match goal with
  | |- context [match ?dur with Some _ => _ | None => _ end = _] => destruct dur as [d|]
  end; [|left; reflexivity].
  destruct (isRole (roleOf (messageOf record)) assistant);
    [right; split; [reflexivity | eexists; reflexivity] | left; reflexivity].
Qed.

(** X14: the preview of a session never holds more than 8 items, and the
    session's latency samples are at most as many as its assistant
    messages. *)
Theorem session_preview_and_latency (params : ParseParams) (lines : list string) :
  let s := parseSessionFile' params lines in
  (List.length (s_preview s) <= 8)%nat
  /\ forall stats, s_latency s = Some stats ->
       (0 < l_count stats)%nat /\ (l_count stats <= m_assistant (s_messageCounts s))%nat.
Proof.
  cbv zeta. unfold parseSessionFile, finishSession.
  cbn [s_preview s_latency s_messageCounts].
  split.
  - apply (parseLines_invariant (fun st => (List.length (st_preview st) <= 8)%nat));
      [simpl; lia|].
    intros st record Hst _. apply foldRecord_preview, Hst.
  - assert (H : (List.length (st_latencyValues (parseLines' (range params) lines))
                 <= m_assistant (st_messageCounts (parseLines' (range params) lines)))%nat).
    { apply (parseLines_invariant
               (fun st => (List.length (st_latencyValues st)
                           <= m_assistant (st_messageCounts st))%nat)); [simpl; lia|].
      intros st record Hst _. rewrite foldRecord_counts.
      destruct (counts_step (roleOfRecord record) (extractToolDetails (messageOf record))
                  (stopReasonIsError (stopReasonOf record (messageOf record)))
                  (st_messageCounts st)) as (_ & _ & E3 & _).
      rewrite E3.
      destruct (foldRecord_latencyValues st record) as [->|(Hrole & d & ->)]; [lia|].
      rewrite Hrole, length_app. simpl. lia. }
    set (values := st_latencyValues (parseLines' (range params) lines)) in *.
    intros stats Hs. destruct values as [|v values'] eqn:Ev; [discriminate|].
    rewrite <- Ev in *. 
    assert (Hc : l_count stats = List.length values).
    { assert (E : computeLatencyStats values
                  = Some {| l_count := List.length (Array_sort numAsc values);
                            l_avgMs := sumQ (Array_sort numAsc values)
                                       / lenQ (Array_sort numAsc values);
                            l_p95Ms := nth (p95Index (List.length (Array_sort numAsc values)))
                                           (Array_sort numAsc values) 0;
                            l_minMs := nth 0 (Array_sort numAsc values) 0;
                            l_maxMs := nth (List.length (Array_sort numAsc values) - 1)
                                           (Array_sort numAsc values) 0 |})
        by (rewrite Ev; reflexivity).
      rewrite E in Hs. injection Hs as <-. simpl. apply Array_sort_length. }
    rewrite Hc. split; [rewrite Ev; simpl; lia | exact H].
Qed.
Lemma foldRecord_activityDates (st : ParseState) (record : JsValue) :
  st_activityDates (foldRecord' st record)
  = match timestampOf Date_parse record with
    | Some ts => setAdd (dayKeyFromMs getUTCFullYear getUTCMonth getUTCDate ts)
                        (st_activityDates st)
    | None => st_activityDates st
    end.
Proof. reflexivity. Qed.

(** What one record does to the day buckets: nothing when it has no day
    key, otherwise the bucket of its day is stored with the record's
    tokens and message added. *)
Lemma foldRecord_dailyMap_step (st : ParseState) (record : JsValue) :
  dailyKeyed st ->
  match dayKeyOf getUTCFullYear getUTCMonth getUTCDate (timestampOf Date_parse record) with
  | None => st_dailyMap (foldRecord' st record) = st_dailyMap st
  | Some k =>
    exists b,
      st_dailyMap (foldRecord' st record) = mapSet k b (st_dailyMap st)
      /\ d_date b = k
      /\ d_tokens b
         == d_tokens (getOr (assoc k (st_dailyMap st)) (mkDay k 0 0 0 0 0))
            + recordTokens record
      /\ d_messages b
         = (d_messages (getOr (assoc k (st_dailyMap st)) (mkDay k 0 0 0 0 0))
            + if isUserOrAssistant (roleOfRecord record) then 1 else 0)%nat
  end.
Proof.
  intros Hkeyed.
  unfold foldRecord, recordTokens, usageOfRecord, roleOfRecord, timestampOf, dayEntryCost.
  cbn [st_dailyMap].
  destruct (dayKeyOf getUTCFullYear getUTCMonth getUTCDate
                     (parseTimestampMs Date_parse record (messageOf record))) as [k|].
  - assert (Hbase : d_date (getOr (assoc k (st_dailyMap st)) (mkDay k 0 0 0 0 0)) = k).
    { destruct (assoc k (st_dailyMap st)) as [b|] eqn:E; [|reflexivity].
      apply assoc_In in E. unfold dailyKeyed in Hkeyed. rewrite Forall_forall in Hkeyed.
      apply (Hkeyed _ E). }
    set (b0 := getOr (assoc k (st_dailyMap st)) (mkDay k 0 0 0 0 0)) in *.
    destruct (isUserOrAssistant (roleOf (messageOf record)));
      destruct (0 <? List.length (names (extractToolDetails (messageOf record))))%nat;
      destruct (0 <? results (extractToolDetails (messageOf record)))%nat;
      destruct (stopReasonIsError (stopReasonOf record (messageOf record)));
      destruct (normalizeUsage (usageRawOf record)) as [u|];
      try destruct (extractCostBreakdown (usageRawOf record));
      try destruct (rawCostTotalOf record (messageOf record));
      cbn [applyDay option_map dayAddMessages dayAddToolCalls dayAddErrors dayAddTokens
           dayAddCost d_date d_tokens d_messages];
      rewrite Hbase;
      (eexists; split; [reflexivity|]);
      unfold dayAddMessages, dayAddToolCalls, dayAddErrors, dayAddTokens, dayAddCost;
      cbn [d_date d_tokens d_messages];
      (split; [exact Hbase|]); split; try lra; try lia.
  - destruct (isUserOrAssistant (roleOf (messageOf record)));
      destruct (0 <? List.length (names (extractToolDetails (messageOf record))))%nat;
      destruct (0 <? results (extractToolDetails (messageOf record)))%nat;
      destruct (stopReasonIsError (stopReasonOf record (messageOf record)));
      destruct (normalizeUsage (usageRawOf record)) as [u|];
      try destruct (extractCostBreakdown (usageRawOf record));
      try destruct (rawCostTotalOf record (messageOf record));
      reflexivity.
Qed.

Lemma dayKeyOf_Some (timestampMs : option Q) (k : string) :
  dayKeyOf getUTCFullYear getUTCMonth getUTCDate timestampMs = Some k ->
  exists ts, timestampMs = Some ts
             /\ k = dayKeyFromMs getUTCFullYear getUTCMonth getUTCDate ts
             /\ k <> EmptyString.
Proof.
  unfold dayKeyOf. destruct timestampMs as [ts|]; [|discriminate].
  destruct (isEmpty (dayKeyFromMs getUTCFullYear getUTCMonth getUTCDate ts)) eqn:E;
    [discriminate|].
  intros H. injection H as <-. exists ts. repeat split.
  intros Hk. rewrite Hk in E. discriminate.
Qed.

Lemma foldRecord_dailyInvariant (st : ParseState) (record : JsValue) :
  dailyInvariant st -> dailyInvariant (foldRecord' st record).
Proof.
  intros (Hkeyed & Hnd & Hnda & Hin & Htok & Hmsg).
  pose proof (foldRecord_dailyMap_step st record Hkeyed) as Hstep.
  assert (Htot : totalTokens (st_totals (foldRecord' st record))
                 == totalTokens (st_totals st) + recordTokens record
                 /\ 0 <= recordTokens record).
  { rewrite foldRecord_totals. unfold recordTokens, usageOfRecord.
    destruct (normalizeUsage (usageRawOf record)) as [u|] eqn:Eu; [|split; lra].
    destruct (entry_totals_step record u (st_totals st)) as (_ & _ & _ & _ & E5 & _).
    rewrite E5. apply normalizeUsage_total_nonneg in Eu. split; lra. }
  destruct Htot as [Htot Hpos].
  assert (Hcnt : m_total (st_messageCounts (foldRecord' st record))
                 = (m_total (st_messageCounts st)
                    + if isUserOrAssistant (roleOfRecord record) then 1 else 0)%nat).
  { rewrite foldRecord_counts. apply counts_step. }
  assert (Hdates : forall x, In x (st_activityDates st) ->
                             In x (st_activityDates (foldRecord' st record))).
  { intros x Hx. rewrite foldRecord_activityDates.
    destruct (timestampOf Date_parse record); [apply setAdd_In; right|]; exact Hx. }
  assert (Hnda' : NoDup (st_activityDates (foldRecord' st record))).
  { rewrite foldRecord_activityDates.
    destruct (timestampOf Date_parse record); [apply setAdd_keeps_NoDup|]; exact Hnda. }
  unfold dailyInvariant, dailyKeyed.
  destruct (dayKeyOf getUTCFullYear getUTCMonth getUTCDate (timestampOf Date_parse record))
    as [k|] eqn:Ek.
  - destruct Hstep as (b & -> & Hdate & Htokens & Hmessages).
    destruct (dayKeyOf_Some _ _ Ek) as (ts & Ets & Hk & Hne).
    split; [apply Forall_mapSet; [exact Hkeyed | exact Hdate]|].
    split; [apply mapSet_keys_NoDup, Hnd|].
    split; [exact Hnda'|].
    split.
    { apply Forall_mapSet.
      - eapply Forall_impl; [|exact Hin]. intros kv [H1 H2]. split; [apply Hdates, H1 | exact H2].
      - split; [|exact Hne]. cbn [fst]. rewrite foldRecord_activityDates, Ets.
        apply setAdd_In. left. exact Hk. }
    split.
    { rewrite (sum_mapSet d_tokens k b (mkDay k 0 0 0 0 0)) by reflexivity.
      rewrite Htokens, Htot. lra. }
    pose proof (list_sum_mapSet d_messages k b (mkDay k 0 0 0 0 0) (st_dailyMap st) eq_refl)
      as Hsum.
    rewrite Hcnt. lia.
  - rewrite Hstep.
    split; [exact Hkeyed|]. split; [exact Hnd|]. split; [exact Hnda'|].
    split.
    { eapply Forall_impl; [|exact Hin]. intros kv [H1 H2]. split; [apply Hdates, H1 | exact H2]. }
    split; [rewrite Htot; lra|]. rewrite Hcnt. lia.
Qed.

Lemma parseLines_dailyInvariant (range0 : Range) (lines : list string) :
  dailyInvariant (parseLines' range0 lines).
Proof.
  apply parseLines_invariant.
  - unfold dailyInvariant, dailyKeyed. simpl. unfold sumQ. simpl.
    repeat split; try constructor; try lra; try lia.
  - intros st record Hst _. apply foldRecord_dailyInvariant, Hst.
Qed.

Lemma daily_dates (st : ParseState) :
  dailyKeyed st ->
  map date
      (map (fun day =>
              mkDaily (d_date day) (d_tokens day) (d_cost day) (d_messages day)
                      (d_toolCalls day) (d_errors day)
                      (computeLatencyStats
                         (getOr (assoc (d_date day) (st_dailyLatencies st)) [])))
           (mapValues (st_dailyMap st)))
  = map fst (st_dailyMap st).
Proof.
  unfold dailyKeyed, mapValues. rewrite !map_map. cbn [date].
  induction 1 as [|kv m Hx _ IH]; simpl; [reflexivity|]. rewrite Hx, IH. reflexivity.
Qed.

(** X15: the day rows of a session summary are in strictly ascending
    order of date (so no date occurs twice), as are its activity dates;
    every day row has a non-empty date that is among the activity dates. *)
Theorem session_daily_dates (params : ParseParams) (lines : list string) :
  let s := parseSessionFile' params lines in
  StronglySorted (fun a b => dateBefore (date a) (date b)) (s_daily s)
  /\ StronglySorted dateBefore (s_activityDates s)
  /\ Forall (fun day => In (date day) (s_activityDates s) /\ date day <> EmptyString)
            (s_daily s).
Proof.
  cbv zeta. unfold parseSessionFile, finishSession. cbn [s_daily s_activityDates].
  destruct (parseLines_dailyInvariant (range params) lines)
    as (Hkeyed & Hnd & Hnda & Hin & _).
  set (st := parseLines' (range params) lines) in *.
  set (rows := map _ (mapValues (st_dailyMap st))).
  assert (Hrows : map date rows = map fst (st_dailyMap st)) by (apply daily_dates, Hkeyed).
  split.
  { apply sorted_distinct_strict; [apply sorted_by_date|].
    eapply Permutation_NoDup;
      [apply Permutation_map, Permutation_sym, Array_sort_perm|].
    rewrite Hrows. exact Hnd. }
  split.
  { apply (sorted_distinct_strict (fun x => x)).
    - apply (sorted_by_date (fun x : string => x)).
    - rewrite map_id. eapply Permutation_NoDup; [apply Permutation_sym, Array_sort_perm|].
      exact Hnda. }
  eapply Permutation_Forall; [apply Permutation_sym, Array_sort_perm|].
  apply Forall_forall. intros day Hday.
  assert (Hd : In (date day) (map fst (st_dailyMap st)))
    by (rewrite <- Hrows; apply in_map, Hday).
  apply in_map_iff in Hd as (kv & Hkv & Hmem).
  rewrite Forall_forall in Hin. destruct (Hin kv Hmem) as [H1 H2].
  rewrite <- Hkv. split; [|exact H2].
  eapply Permutation_in; [apply Permutation_sym, Array_sort_perm | exact H1].
Qed.

(** X16: the tokens of the day rows of a session add up to no more than
    the session's total tokens, and their messages to no more than its
    message total (records without a timestamp count for the session and
    for no day). *)
Theorem session_daily_within_totals (params : ParseParams) (lines : list string) :
  let s := parseSessionFile' params lines in
  sumQ (map tokens (s_daily s)) <= totalTokens (s_totals s)
  /\ (list_sum (map messages (s_daily s)) <= m_total (s_messageCounts s))%nat.
Proof.
  cbv zeta. unfold parseSessionFile, finishSession.
  cbn [s_daily s_totals s_messageCounts].
  destruct (parseLines_dailyInvariant (range params) lines)
    as (_ & _ & _ & _ & Htok & Hmsg).
  set (st := parseLines' (range params) lines) in *.
  split.
  - rewrite (sumQ_perm _ _ (Permutation_map tokens (Array_sort_perm _ _))).
    rewrite map_map. cbn [tokens]. exact Htok.
  - rewrite (list_sum_perm _ _ (Permutation_map messages (Array_sort_perm _ _))).
    rewrite map_map. cbn [messages]. exact Hmsg.
Qed.
End SessionFacts.

(** ** Fleet totals and tables *)

Lemma In_assoc {V : Type} (k : string) (v : V) (m : list (string * V)) :
  NoDup (map fst m) -> In (k, v) m -> assoc k m = Some v.
Proof.
  induction m as [|[k' v'] m IH]; simpl; intros Hnd Hin; [contradiction|].
  inversion Hnd as [|? ? Hnotin Hnd']; subst.
  destruct (String.eqb k k') eqn:E.
  - apply String.eqb_eq in E. subst k'. destruct Hin as [H|H].
    + injection H as ->. reflexivity.
    + exfalso. apply Hnotin. apply (in_map fst) in H. exact H.
  - destruct Hin as [H|H].
    + injection H as -> _. rewrite String.eqb_refl in E. discriminate.
    + apply IH; assumption.
Qed.

Lemma sumOver_app {S : Type} (f : S -> Q) (l1 l2 : list S) :
  sumOver f (l1 ++ l2) == sumOver f l1 + sumOver f l2.
Proof. unfold sumOver. rewrite map_app. apply sumQ_app. Qed.

Lemma sumOver_one {S : Type} (f : S -> Q) (s : S) : sumOver f [s] == f s.
Proof. unfold sumOver, sumQ. simpl. lra. Qed.

Lemma sumOver_cons {S : Type} (f : S -> Q) (s : S) (l : list S) :
  sumOver f (s :: l) == f s + sumOver f l.
Proof. unfold sumOver. simpl. apply sumQ_cons. Qed.

Lemma countOver_app {S : Type} (f : S -> nat) (l1 l2 : list S) :
  countOver f (l1 ++ l2) = (countOver f l1 + countOver f l2)%nat.
Proof. unfold countOver. rewrite map_app. apply list_sum_app. Qed.

Lemma countOver_cons {S : Type} (f : S -> nat) (s : S) (l : list S) :
  countOver f (s :: l) = (f s + countOver f l)%nat.
Proof. reflexivity. Qed.

Lemma countOver_one {S : Type} (f : S -> nat) (s : S) : countOver f [s] = f s.
Proof. unfold countOver. simpl. lia. Qed.

Lemma withKey_app {S : Type} (key : S -> string) (k : string) (l1 l2 : list S) :
  withKey key k (l1 ++ l2) = withKey key k l1 ++ withKey key k l2.
Proof. apply filter_app. Qed.

Lemma withKey_same {S : Type} (key : S -> string) (k : string) (l : list S) :
  Forall (fun x => key x = k) (withKey key k l).
Proof.
  apply Forall_forall. intros x Hx. apply filter_In in Hx as [_ Hx].
  apply String.eqb_eq, Hx.
Qed.

(** A map filled by "fetch the row of the key or start one, update it,
    store it" groups what it is fed by key. *)
Section GroupBy.
Context {S R0 R : Type}.
Variable key : S -> string.
Variable init : S -> R0.
Variable upd : R0 -> S -> R0.
Variable step : list (string * R0) -> S -> list (string * R0).
Hypothesis step_eq :
  forall m s, step m s = mapSet (key s) (upd (getOr (assoc (key s) m) (init s)) s) m.
Variable mk : string -> R0 -> R.
Variable rowKey : R -> string.
Variable P : R -> list S -> Prop.
Hypothesis P_first :
  forall s, rowKey (mk (key s) (upd (init s) s)) = key s
            /\ P (mk (key s) (upd (init s) s)) [s].
Hypothesis P_next :
  forall r l s,
    l <> [] -> Forall (fun x => key x = key s) l ->
    rowKey (mk (key s) r) = key s -> P (mk (key s) r) l ->
    rowKey (mk (key s) (upd r s)) = key s /\ P (mk (key s) (upd r s)) (l ++ [s]).

Lemma group_fold (l : list S) :
  NoDup (map fst (fold_left step l []))
  /\ (forall k r, assoc k (fold_left step l []) = Some r ->
                  withKey key k l <> []
                  /\ rowKey (mk k r) = k /\ P (mk k r) (withKey key k l))
  /\ (forall s, In s l -> exists r, assoc (key s) (fold_left step l []) = Some r).
Proof.
  induction l as [|s l IH] using rev_ind.
  - simpl. split; [constructor|]. split; [discriminate | intros s []].
  - destruct IH as (Hnd & Hrows & Hall).
    rewrite fold_left_app. cbn [fold_left]. rewrite step_eq.
    set (m := fold_left step l []) in *.
    split; [apply mapSet_keys_NoDup, Hnd|].
    split.
    + intros k r. rewrite assoc_mapSet, withKey_app. unfold withKey at 2 4. cbn [List.filter].
      destruct (String.eqb k (key s)) eqn:E.
      * apply String.eqb_eq in E. subst k. rewrite String.eqb_refl.
        intros H. injection H as <-.
        split; [intros H; apply app_eq_nil in H as [_ H]; discriminate|].
        destruct (assoc (key s) m) as [r0|] eqn:Ea; cbn [getOr].
        -- destruct (Hrows _ _ Ea) as (Hne & Hk & Hp).
           apply P_next; [exact Hne | apply withKey_same | exact Hk | exact Hp].
        -- assert (Hnone : withKey key (key s) l = []).
           { destruct (withKey key (key s) l) as [|x rest] eqn:Ew; [reflexivity|].
             assert (Hx : In x (withKey key (key s) l)) by (rewrite Ew; left; reflexivity).
             apply filter_In in Hx as [Hx Hkx]. apply String.eqb_eq in Hkx.
             destruct (Hall _ Hx) as (r & Hr). rewrite Hkx in Hr. congruence. }
           rewrite Hnone. apply P_first.
      * rewrite String.eqb_sym, E, app_nil_r. apply Hrows.
    + intros s' Hs'. rewrite assoc_mapSet.
      destruct (String.eqb (key s') (key s)) eqn:E; [eexists; reflexivity|].
      apply in_app_or in Hs' as [Hs'|[<-|[]]]; [apply Hall, Hs'|].
      rewrite String.eqb_refl in E. discriminate.
Qed.

Lemma group_rows (l : list S) (rows : list R) :
  Permutation rows (map (fun kv => mk (fst kv) (snd kv)) (fold_left step l [])) ->
  GroupedBy key rowKey P l rows.
Proof.
  intros Hperm. destruct (group_fold l) as (Hnd & Hrows & Hall).
  set (m := fold_left step l []) in *.
  assert (Hkeys : map rowKey (map (fun kv => mk (fst kv) (snd kv)) m) = map fst m).
  { rewrite map_map. apply map_ext_in. intros [k r] Hin. cbn [fst snd].
    apply (In_assoc _ _ _ Hnd) in Hin. apply Hrows in Hin. tauto. }
  split.
  { eapply Permutation_NoDup; [apply Permutation_map, Permutation_sym, Hperm|].
    rewrite Hkeys. exact Hnd. }
  split.
  { intros s Hs. destruct (Hall s Hs) as (r & Hr).
    exists (mk (key s) r). split; [|apply Hrows, Hr].
    eapply Permutation_in; [apply Permutation_sym, Hperm|].
    apply assoc_In in Hr. apply (in_map (fun kv => mk (fst kv) (snd kv))) in Hr. exact Hr. }
  apply Forall_forall. intros r Hr.
  eapply Permutation_in in Hr; [|exact Hperm].
  apply in_map_iff in Hr as ([k r0] & <- & Hin). cbn [fst snd].
  apply (In_assoc _ _ _ Hnd) in Hin. destruct (Hrows _ _ Hin) as (Hne & Hk & Hp).
  rewrite Hk. split; assumption.
Qed.
End GroupBy.

Lemma fleet_fold_maps (l : list SessionSummary) (acc : FleetAcc) :
  fa_toolsMap (fold_left aggregateStep l acc)
  = fold_left addTool (allTools l) (fa_toolsMap acc)
  /\ fa_byModelMap (fold_left aggregateStep l acc)
     = fold_left addModel (allBuckets l) (fa_byModelMap acc)
  /\ fa_byProviderMap (fold_left aggregateStep l acc)
     = fold_left addProvider (allBuckets l) (fa_byProviderMap acc)
  /\ fa_byAgentMap (fold_left aggregateStep l acc) = fold_left addAgent l (fa_byAgentMap acc)
  /\ fa_byChannelMap (fold_left aggregateStep l acc)
     = fold_left addChannel l (fa_byChannelMap acc)
  /\ fa_dailyMap (fold_left aggregateStep l acc)
     = fold_left addDay (allDays l) (fa_dailyMap acc).
Proof.
  revert acc. induction l as [|s l IH]; intros acc; [repeat split|].
  cbn [fold_left]. destruct (IH (aggregateStep acc s)) as (E1 & E2 & E3 & E4 & E5 & E6).
  rewrite E1, E2, E3, E4, E5, E6. unfold allTools, allBuckets, allDays.
  cbn [flat_map aggregateStep fa_toolsMap fa_byModelMap fa_byProviderMap fa_byAgentMap
       fa_byChannelMap fa_dailyMap].
  rewrite !fold_left_app. repeat split.
Qed.

Lemma fleet_fold_totals (l : list SessionSummary) (acc : FleetAcc) :
  let t := fa_totals (fold_left aggregateStep l acc) in
  let c := fa_messages (fold_left aggregateStep l acc) in
  t_input t == t_input (fa_totals acc) + sumOver (fun s => t_input (s_totals s)) l
  /\ t_output t == t_output (fa_totals acc) + sumOver (fun s => t_output (s_totals s)) l
  /\ totalTokens t == totalTokens (fa_totals acc) + sumOver (fun s => totalTokens (s_totals s)) l
  /\ totalCost t == totalCost (fa_totals acc) + sumOver (fun s => totalCost (s_totals s)) l
  /\ missingCostEntries t
     = (missingCostEntries (fa_totals acc)
        + countOver (fun s => missingCostEntries (s_totals s)) l)%nat
  /\ m_total c = (m_total (fa_messages acc) + countOver (fun s => m_total (s_messageCounts s)) l)%nat
  /\ m_toolCalls c
     = (m_toolCalls (fa_messages acc) + countOver (fun s => m_toolCalls (s_messageCounts s)) l)%nat
  /\ m_errors c
     = (m_errors (fa_messages acc) + countOver (fun s => m_errors (s_messageCounts s)) l)%nat.
Proof.
  cbv zeta. revert acc. induction l as [|s l IH]; intros acc.
  - unfold sumOver, countOver, sumQ. simpl. repeat split; try lra; try lia.
  - cbn [fold_left]. destruct (IH (aggregateStep acc s)) as (E1 & E2 & E3 & E4 & E5 & E6 & E7 & E8).
    rewrite E1, E2, E3, E4, E5, E6, E7, E8, !sumOver_cons, !countOver_cons.
    cbn [aggregateStep fa_totals fa_messages mergeTotals mergeCounts t_input t_output
         totalTokens totalCost missingCostEntries m_total m_toolCalls m_errors].
    repeat split; try lra; try lia.
Qed.

(** X17: the fleet totals are the sums of the totals of the sessions that
    pass the filter, and the fleet message counters the sums of theirs. *)
Theorem fleet_totals_are_sums (sessions : list SessionSummary) (filter : Filter) :
  let fleet := aggregateSessions sessions filter in
  let chosen := filtered fleet in
  t_input (ag_totals fleet) == sumOver (fun s => t_input (s_totals s)) chosen
  /\ t_output (ag_totals fleet) == sumOver (fun s => t_output (s_totals s)) chosen
  /\ totalTokens (ag_totals fleet) == sumOver (fun s => totalTokens (s_totals s)) chosen
  /\ totalCost (ag_totals fleet) == sumOver (fun s => totalCost (s_totals s)) chosen
  /\ missingCostEntries (ag_totals fleet)
     = countOver (fun s => missingCostEntries (s_totals s)) chosen
  /\ m_total (ag_messages fleet) = countOver (fun s => m_total (s_messageCounts s)) chosen
  /\ m_toolCalls (ag_messages fleet) = countOver (fun s => m_toolCalls (s_messageCounts s)) chosen
  /\ m_errors (ag_messages fleet) = countOver (fun s => m_errors (s_messageCounts s)) chosen.
Proof.
  cbv zeta. unfold aggregateSessions. cbn [ag_totals ag_messages filtered].
  destruct (fleet_fold_totals (List.filter (keep filter) sessions) emptyFleet)
    as (E1 & E2 & E3 & E4 & E5 & E6 & E7 & E8).
  rewrite E1, E2, E3, E4, E5, E6, E7, E8. simpl. repeat split; try lra; try lia.
Qed.

(** X18: the fleet tools table has one row per tool name that occurs in
    the tool tables of the chosen sessions, no name twice, and the count
    of a row is the sum of the counts of that name over those tables. *)
Theorem fleet_tools_table (sessions : list SessionSummary) (filter : Filter) :
  let fleet := aggregateSessions sessions filter in
  GroupedBy tr_name tr_name
            (fun row group => tr_count row = countOver tr_count group)
            (allTools (filtered fleet)) (ag_tools (aggregates fleet)).
Proof.
  cbv zeta. unfold aggregateSessions. cbn [ag_tools aggregates filtered].
  destruct (fleet_fold_maps (List.filter (keep filter) sessions) emptyFleet) as (-> & _).
  cbn [emptyFleet fa_toolsMap].
  apply (group_rows tr_name (fun _ => 0%nat) (fun n t => (n + tr_count t)%nat) addTool
                    (fun m t => eq_refl) mkToolRow).
  - intros t. cbn [tr_name tr_count]. rewrite countOver_one. split; [reflexivity | lia].
  - intros n l t _ _ _. cbn [tr_name tr_count]. intros ->.
    rewrite countOver_app, countOver_one. split; reflexivity.
  - apply Array_sort_perm.
Qed.

(** X19: the by-agent table has one row per agent of the chosen sessions,
    no agent twice; a row counts the sessions of its agent and its totals
    are the sums of theirs. *)
Theorem fleet_agent_table (sessions : list SessionSummary) (filter : Filter) :
  let fleet := aggregateSessions sessions filter in
  GroupedBy s_agentId ar_agentId
            (fun row group =>
               ar_sessions row = List.length group
               /\ totalTokens (ar_totals row) == sumOver (fun s => totalTokens (s_totals s)) group
               /\ totalCost (ar_totals row) == sumOver (fun s => totalCost (s_totals s)) group)
            (filtered fleet) (byAgent (aggregates fleet)).
Proof.
  cbv zeta. unfold aggregateSessions. cbn [byAgent aggregates filtered].
  destruct (fleet_fold_maps (List.filter (keep filter) sessions) emptyFleet)
    as (_ & _ & _ & -> & _).
  cbn [emptyFleet fa_byAgentMap].
  apply (group_rows s_agentId (fun s => mkAgentRow (s_agentId s) 0 createTotals)
                    (fun row s => mkAgentRow (ar_agentId row) (ar_sessions row + 1)
                                             (mergeTotals (ar_totals row) (s_totals s)))
                    addAgent (fun m s => eq_refl) (fun _ row => row)).
  - intros s. cbn [ar_agentId ar_sessions ar_totals mergeTotals totalTokens totalCost
                   createTotals]. rewrite !sumOver_one.
    repeat split; try reflexivity; lra.
  - intros row l s _ _ Hk (Hn & Ht & Hc).
    cbn [ar_agentId ar_sessions ar_totals mergeTotals totalTokens totalCost].
    rewrite !sumOver_app, !sumOver_one, length_app, Hn, Ht, Hc. cbn [List.length].
    repeat split; try assumption; try reflexivity.
  - unfold mapValues. apply Array_sort_perm.
Qed.

(** X20: the by-channel table has one row per channel of the chosen
    sessions (a session without a channel counts for "unknown"), no
    channel twice; a row counts the sessions of its channel and its totals
    are the sums of theirs. *)
Theorem fleet_channel_table (sessions : list SessionSummary) (filter : Filter) :
  let fleet := aggregateSessions sessions filter in
  GroupedBy channelKey cr_channel
            (fun row group =>
               cr_sessions row = List.length group
               /\ totalTokens (cr_totals row) == sumOver (fun s => totalTokens (s_totals s)) group
               /\ totalCost (cr_totals row) == sumOver (fun s => totalCost (s_totals s)) group)
            (filtered fleet) (byChannel (aggregates fleet)).
Proof.
  cbv zeta. unfold aggregateSessions. cbn [byChannel aggregates filtered].
  destruct (fleet_fold_maps (List.filter (keep filter) sessions) emptyFleet)
    as (_ & _ & _ & _ & -> & _).
  cbn [emptyFleet fa_byChannelMap].
  apply (group_rows channelKey (fun s => mkChannelRow (channelKey s) 0 createTotals)
                    (fun row s => mkChannelRow (cr_channel row) (cr_sessions row + 1)
                                               (mergeTotals (cr_totals row) (s_totals s)))
                    addChannel (fun m s => eq_refl) (fun _ row => row)).
  - intros s. cbn [cr_channel cr_sessions cr_totals mergeTotals totalTokens totalCost
                   createTotals]. rewrite !sumOver_one.
    repeat split; try reflexivity; lra.
  - intros row l s _ _ Hk (Hn & Ht & Hc).
    cbn [cr_channel cr_sessions cr_totals mergeTotals totalTokens totalCost].
    rewrite !sumOver_app, !sumOver_one, length_app, Hn, Ht, Hc. cbn [List.length].
    repeat split; try assumption; try reflexivity.
  - unfold mapValues. apply Array_sort_perm.
Qed.

(** X21: the by-model and by-provider tables have one row per model key,
    resp. provider, of the model rows of the chosen sessions, none twice;
    a row's [sessions] is the number of those model rows, its [count] the
    sum of their counts and its tokens the sum of theirs. *)
Theorem fleet_model_tables (sessions : list SessionSummary) (filter : Filter) :
  let fleet := aggregateSessions sessions filter in
  GroupedBy bucketKey (fun row => modelKeyOf (mr_provider row) (mr_model row))
            (fun row group =>
               mr_sessions row = List.length group
               /\ mr_count row = countOver mb_count group
               /\ totalTokens (mr_totals row)
                  == sumOver (fun b => totalTokens (mb_totals b)) group)
            (allBuckets (filtered fleet)) (byModel (aggregates fleet))
  /\ GroupedBy providerKey (fun row => getOr (pr_provider row) "unknown")
               (fun row group =>
                  pr_sessions row = List.length group
                  /\ pr_count row = countOver mb_count group
                  /\ totalTokens (pr_totals row)
                     == sumOver (fun b => totalTokens (mb_totals b)) group)
               (allBuckets (filtered fleet)) (byProvider (aggregates fleet)).
Proof.
  cbv zeta. unfold aggregateSessions. cbn [byModel byProvider aggregates filtered].
  destruct (fleet_fold_maps (List.filter (keep filter) sessions) emptyFleet)
    as (_ & -> & -> & _).
  cbn [emptyFleet fa_byModelMap fa_byProviderMap]. split.
  - apply (group_rows bucketKey
             (fun b => mkModelRow (mb_provider b) (mb_model b) 0 0 createTotals)
             (fun row b => mkModelRow (mr_provider row) (mr_model row)
                                      (mr_count row + mb_count b) (mr_sessions row + 1)
                                      (mergeTotals (mr_totals row) (mb_totals b)))
             addModel (fun m b => eq_refl) (fun _ row => row)).
    + intros b. cbn [mr_provider mr_model mr_count mr_sessions mr_totals mergeTotals
                     totalTokens createTotals]. rewrite sumOver_one, countOver_one.
      repeat split; try reflexivity; lra.
    + intros row l b _ _ Hk (Hn & Hc & Ht).
      cbn [mr_provider mr_model mr_count mr_sessions mr_totals mergeTotals totalTokens].
      rewrite sumOver_app, sumOver_one, countOver_app, countOver_one, length_app, Hn, Hc, Ht.
      cbn [List.length]. repeat split; try assumption; try reflexivity.
    + unfold mapValues. apply Array_sort_perm.
  - apply (group_rows providerKey
             (fun b => mkProviderRow (mb_provider b) 0 0 createTotals)
             (fun row b => mkProviderRow (pr_provider row)
                                         (pr_count row + mb_count b) (pr_sessions row + 1)
                                         (mergeTotals (pr_totals row) (mb_totals b)))
             addProvider (fun m b => eq_refl) (fun _ row => row)).
    + intros b. cbn [pr_provider pr_count pr_sessions pr_totals mergeTotals
                     totalTokens createTotals]. rewrite sumOver_one, countOver_one.
      repeat split; try reflexivity; lra.
    + intros row l b _ _ Hk (Hn & Hc & Ht).
      cbn [pr_provider pr_count pr_sessions pr_totals mergeTotals totalTokens].
      rewrite sumOver_app, sumOver_one, countOver_app, countOver_one, length_app, Hn, Hc, Ht.
      cbn [List.length]. repeat split; try assumption; try reflexivity.
    + unfold mapValues. apply Array_sort_perm.
Qed.

(** X22: the fleet day rows are in strictly ascending order of date, one
    per date of the day rows of the chosen sessions; the tokens, cost and
    counters of a row are the sums over the session day rows of its
    date. *)
Theorem fleet_daily_rows (sessions : list SessionSummary) (filter : Filter) :
  let fleet := aggregateSessions sessions filter in
  StronglySorted (fun a b => dateBefore (fd_date a) (fd_date b)) (ag_daily (aggregates fleet))
  /\ GroupedBy date fd_date
               (fun row group =>
                  fd_tokens row == sumOver tokens group
                  /\ fd_cost row == sumOver cost group
                  /\ fd_messages row = countOver messages group
                  /\ fd_toolCalls row = countOver toolCalls group
                  /\ fd_errors row = countOver dayErrors group)
               (allDays (filtered fleet)) (ag_daily (aggregates fleet)).
Proof.
  cbv zeta. unfold aggregateSessions. cbn [ag_daily aggregates filtered].
  destruct (fleet_fold_maps (List.filter (keep filter) sessions) emptyFleet)
    as (_ & _ & _ & _ & _ & ->).
  cbn [emptyFleet fa_dailyMap].
  set (days := allDays (List.filter (keep filter) sessions)).
  set (rows := Array_sort _ _).
  assert (Hgroup :
    GroupedBy date fd_date
              (fun row group =>
                 fd_tokens row == sumOver tokens group
                 /\ fd_cost row == sumOver cost group
                 /\ fd_messages row = countOver messages group
                 /\ fd_toolCalls row = countOver toolCalls group
                 /\ fd_errors row = countOver dayErrors group)
              days rows).
  { apply (group_rows date
             (fun day => mkDailyAcc (date day) 0 0 0 0 0 emptyLatency)
             (fun daily day =>
                mkDailyAcc (da_date daily) (da_tokens daily + tokens day)
                           (da_cost daily + cost day) (da_messages daily + messages day)
                           (da_toolCalls daily + toolCalls day)
                           (da_errors daily + dayErrors day)
                           (foldLatency (da_latency daily) (latency day)))
             addDay (fun m day => eq_refl)
             (fun _ day => mkFleetDaily (da_date day) (da_tokens day) (da_cost day)
                                        (da_messages day) (da_toolCalls day) (da_errors day)
                                        (latencyResult (da_latency day)))).
    - intros day.
      cbn [fd_date fd_tokens fd_cost fd_messages fd_toolCalls fd_errors
           da_date da_tokens da_cost da_messages da_toolCalls da_errors].
      rewrite !sumOver_one, !countOver_one. repeat split; try reflexivity; lra.
    - intros daily l day _ _.
      cbn [fd_date fd_tokens fd_cost fd_messages fd_toolCalls fd_errors
           da_date da_tokens da_cost da_messages da_toolCalls da_errors].
      intros Hk (H1 & H2 & H3 & H4 & H5).
      rewrite !sumOver_app, !sumOver_one, !countOver_app, !countOver_one, H1, H2, H3, H4, H5.
      repeat split; try assumption; try reflexivity.
    - unfold rows, mapValues. rewrite map_map. apply Array_sort_perm. }
  split; [|exact Hgroup].
  apply sorted_distinct_strict; [apply sorted_by_date | apply Hgroup].
Qed.

Lemma Qle_minus_iff_nat (a b : nat) : (a <= b)%nat <-> inject_Z (Z.of_nat a) - inject_Z (Z.of_nat b) <= 0.
Proof.
  split; intros H.
  - assert (H' : inject_Z (Z.of_nat a) <= inject_Z (Z.of_nat b)) by (rewrite <- Zle_Qle; lia).
    lra.
  - assert (H' : inject_Z (Z.of_nat a) <= inject_Z (Z.of_nat b)) by lra.
    rewrite <- Zle_Qle in H'. lia.
Qed.

(** ** Memory statistics *)

Lemma In_firstn_in {A : Type} (n : nat) (l : list A) (x : A) : In x (firstn n l) -> In x l.
Proof. intros H. rewrite <- (firstn_skipn n l). apply in_or_app. left. exact H. Qed.

Lemma StronglySorted_firstn {A : Type} (R : A -> A -> Prop) (n : nat) (l : list A) :
  StronglySorted R l -> StronglySorted R (firstn n l).
Proof.
  intros H. revert n. induction H as [|x l Hs IH Hall]; intros [|n]; simpl; try constructor.
  - apply IH.
  - rewrite Forall_forall in *. intros y Hy. apply Hall. eapply In_firstn_in, Hy.
Qed.

Lemma NoDup_firstn {A : Type} (n : nat) (l : list A) : NoDup l -> NoDup (firstn n l).
Proof.
  intros H. rewrite <- (firstn_skipn n l) in H. apply NoDup_app_remove_r in H. exact H.
Qed.

Lemma sliceTo_bound {A : Type} (n : Q) (l : list A) : 0 <= n -> lenQ (sliceTo n l) <= n.
Proof.
  intros Hn. unfold sliceTo, lenQ.
  assert (H0 : (0 <= Qfloor n)%Z).
  { rewrite <- (Qfloor_Z 0). apply Qfloor_resp_le. change (inject_Z 0) with 0. exact Hn. }
  pose proof (Qfloor_le n) as Hfl.
  pose proof (firstn_le_length (Z.to_nat (Qfloor n)) l) as Hlen.
  assert (Hz : (Z.of_nat (List.length (firstn (Z.to_nat (Qfloor n)) l)) <= Qfloor n)%Z) by lia.
  rewrite Zle_Qle in Hz. lra.
Qed.

Section MemoryFacts.
Variable getUTCFullYear getUTCMonth getUTCDate : Q -> Z.
Variable path_basename : string -> string.
Variable path_relative : string -> string -> string.

Local Abbreviation memoryStep' := (memoryStep getUTCFullYear getUTCMonth getUTCDate
                                               path_basename path_relative).
Local Abbreviation collectMemoryStats' :=
  (collectMemoryStats getUTCFullYear getUTCMonth getUTCDate path_basename path_relative).
Local Abbreviation dayStats' := (dayStats getUTCFullYear getUTCMonth getUTCDate).
Local Abbreviation allMemoryTokens' := (allMemoryTokens path_basename).

Lemma inspected_cons (file : MemoryFile) (found : list MemoryFile) :
  inspected (file :: found)
  = match mf_stat file with
    | Some stat => if isMemoryText (mf_path file) then [(file, stat)] else []
    | None => []
    end ++ inspected found.
Proof. reflexivity. Qed.

Lemma memory_fold (workspaceDir : string) (found : list MemoryFile) (acc : MemoryAcc) :
  let acc' := fold_left (memoryStep' workspaceDir)
                        (List.filter (fun file => isMemoryText (mf_path file)) found) acc in
  ma_totalBytes acc'
  = (ma_totalBytes acc + countOver (fun fileStat => fs_size (snd fileStat)) (inspected found))%nat
  /\ ma_byDayMap acc' = fold_left addMemoryDay (dayStats' found) (ma_byDayMap acc)
  /\ ma_keywordMap acc' = fold_left countWord (allMemoryTokens' found) (ma_keywordMap acc)
  /\ map fr_mtimeMs (ma_fileRows acc')
     = map fr_mtimeMs (ma_fileRows acc)
       ++ map (fun fileStat => fs_mtimeMs (snd fileStat)) (inspected found).
Proof.
  cbv zeta. revert acc. induction found as [|file found IH]; intros acc.
  - unfold countOver. simpl. rewrite app_nil_r. repeat split. lia.
  - unfold dayStats, allMemoryTokens in *. rewrite inspected_cons. cbn [List.filter].
    destruct (isMemoryText (mf_path file)) eqn:Etext.
    + cbn [fold_left]. destruct (IH (memoryStep' workspaceDir acc file)) as (E1 & E2 & E3 & E4).
      rewrite E1, E2, E3, E4. clear E1 E2 E3 E4 IH.
      unfold memoryStep. destruct (mf_stat file) as [stat|].
      * cbn [ma_totalBytes ma_byDayMap ma_keywordMap ma_fileRows app map flat_map fst snd
             fold_left].
        rewrite countOver_cons, map_app, fold_left_app, <- app_assoc. cbn [snd map app fr_mtimeMs].
        repeat split. lia.
      * cbn [app]. repeat split.
    + destruct (mf_stat file); cbn [app]; apply IH.
Qed.

(** The oldest and newest modification times along the loop. *)
Lemma memory_fold_bounds (workspaceDir : string) (files : list MemoryFile) (acc : MemoryAcc) :
  let times acc := map fr_mtimeMs (ma_fileRows acc) in
  let good acc :=
    match ma_oldestMs acc, ma_newestMs acc with
    | Some oldest, Some newest =>
      In oldest (times acc) /\ In newest (times acc)
      /\ Forall (fun t => oldest <= t /\ t <= newest) (times acc)
    | None, None => times acc = []
    | _, _ => False
    end in
  good acc -> good (fold_left (memoryStep' workspaceDir) files acc).
Proof.
  cbv zeta. revert acc. induction files as [|file files IH]; intros acc Hacc; [exact Hacc|].
  cbn [fold_left]. apply IH. clear IH. unfold memoryStep.
  destruct (mf_stat file) as [stat|]; [|exact Hacc].
  cbn [ma_oldestMs ma_newestMs ma_fileRows]. rewrite map_app. cbn [map fr_mtimeMs].
  set (t := fs_mtimeMs stat). set (ts := map fr_mtimeMs (ma_fileRows acc)) in *.
  assert (Hwiden : forall o n o' n', o' <= o -> n <= n' ->
            Forall (fun x => o <= x /\ x <= n) ts -> Forall (fun x => o' <= x /\ x <= n') ts).
  { intros o n o' n' Ho Hn. apply Forall_impl. intros x [? ?]. split; lra. }
  destruct (ma_oldestMs acc) as [o|], (ma_newestMs acc) as [n|]; try contradiction.
  - destruct Hacc as (Ho & Hn & Hall).
    destruct (Math_min_cases o t) as [[H1 ->]|[H1 ->]];
      destruct (Math_max_cases n t) as [[H2 ->]|[H2 ->]];
      (split; [apply in_or_app; first [left; assumption | right; left; reflexivity]|]);
      (split; [apply in_or_app; first [left; assumption | right; left; reflexivity]|]);
      (apply Forall_app; split;
       [eapply Hwiden; [| |exact Hall]; lra
       | constructor; [|constructor]; split; lra]).
  - rewrite Hacc. simpl. split; [left; reflexivity|]. split; [left; reflexivity|].
    constructor; [split; lra | constructor].
Qed.

(** X23: with a memory directory, [fileCount] is the number of text files
    that could be inspected and [totalBytes] the sum of their sizes; the
    oldest and newest times are absent exactly when there is no such file,
    and otherwise are times of such files that bound all the others; the
    file rows are listed newest first and are at most
    [max(10, memoryLimit)]. *)
Theorem memory_stats_consistent (workspaceDir : string) (found : list MemoryFile)
        (memoryLimit : Q) :
  let stats := collectMemoryStats' workspaceDir true found memoryLimit in
  let times := map (fun fileStat => fs_mtimeMs (snd fileStat)) (inspected found) in
  mem_fileCount stats = List.length (inspected found)
  /\ mem_totalBytes stats = countOver (fun fileStat => fs_size (snd fileStat)) (inspected found)
  /\ match mem_oldestMs stats, mem_newestMs stats with
     | Some oldest, Some newest =>
       In oldest times /\ In newest times
       /\ Forall (fun t => oldest <= t /\ t <= newest) times
     | None, None => inspected found = []
     | _, _ => False
     end
  /\ StronglySorted newerRow (mem_files stats)
  /\ lenQ (mem_files stats) <= Math_max 10 memoryLimit
  /\ (List.length (mem_files stats) <= mem_fileCount stats)%nat.
Proof.
  cbv zeta. unfold collectMemoryStats.
  cbn [negb mem_fileCount mem_totalBytes mem_oldestMs mem_newestMs mem_files].
  destruct (memory_fold workspaceDir found emptyMemory) as (E1 & _ & _ & E4).
  cbn [emptyMemory ma_totalBytes ma_fileRows map app] in E1, E4.
  set (acc := fold_left (memoryStep' workspaceDir)
                        (List.filter (fun file => isMemoryText (mf_path file)) found)
                        emptyMemory) in *.
  split.
  { rewrite Array_sort_length, <- (length_map fr_mtimeMs), E4, length_map. reflexivity. }
  split; [rewrite E1; lia|].
  split.
  { pose proof (memory_fold_bounds workspaceDir
                  (List.filter (fun file => isMemoryText (mf_path file)) found) emptyMemory)
      as Hb.
    cbv beta zeta in Hb. fold acc in Hb. rewrite E4 in Hb.
    specialize (Hb eq_refl).
    destruct (ma_oldestMs acc), (ma_newestMs acc); try exact Hb.
    apply map_eq_nil in Hb. exact Hb. }
  assert (Hsorted : StronglySorted newerRow (Array_sort newestFirst (ma_fileRows acc))).
  { eapply StronglySorted_impl; [|apply Array_sort_sorted].
    - intros a b. unfold before, newestFirst, newerRow. lra.
    - intros x y. unfold newestFirst.
      destruct (Qlt_le_dec (fr_mtimeMs x) (fr_mtimeMs y)); [right | left]; lra.
    - intros x y z. unfold newestFirst. lra. }
  split; [apply StronglySorted_firstn, Hsorted|].
  split.
  { apply sliceTo_bound. pose proof (Math_max_ge_l 10 memoryLimit). lra. }
  unfold sliceTo. rewrite length_firstn. apply Nat.le_min_r.
Qed.

(** X24: the by-day rows of the memory statistics are in strictly
    ascending order of date, one per day on which an inspected text file
    was modified; a row counts the files of its day and adds up their
    sizes. *)
Theorem memory_by_day (workspaceDir : string) (found : list MemoryFile) (memoryLimit : Q) :
  let stats := collectMemoryStats' workspaceDir true found memoryLimit in
  StronglySorted (fun a b => dateBefore (md_date a) (md_date b)) (mem_byDay stats)
  /\ GroupedBy fst md_date
               (fun row group =>
                  md_files row = List.length group
                  /\ md_bytes row = countOver (fun dayStat => fs_size (snd dayStat)) group)
               (dayStats' found) (mem_byDay stats).
Proof.
  cbv zeta. unfold collectMemoryStats. cbn [negb mem_byDay].
  destruct (memory_fold workspaceDir found emptyMemory) as (_ & -> & _).
  cbn [emptyMemory ma_byDayMap].
  set (rows := Array_sort _ _).
  assert (Hgroup :
    GroupedBy fst md_date
              (fun row group =>
                 md_files row = List.length group
                 /\ md_bytes row = countOver (fun dayStat => fs_size (snd dayStat)) group)
              (dayStats' found) rows).
  { apply (group_rows (@fst string FileStat)
             (fun dayStat => mkMemoryDay (fst dayStat) 0 0)
             (fun byDay dayStat => mkMemoryDay (md_date byDay) (md_files byDay + 1)
                                               (md_bytes byDay + fs_size (snd dayStat)))
             addMemoryDay (fun m dayStat => eq_refl) (fun _ row => row)).
    - intros dayStat. cbn [md_date md_files md_bytes]. rewrite countOver_one.
      repeat split.
    - intros byDay l dayStat _ _ Hk (Hn & Hb). cbn [md_date md_files md_bytes].
      rewrite countOver_app, countOver_one, length_app, Hn, Hb. cbn [List.length].
      repeat split. exact Hk.
    - unfold rows, mapValues. apply Array_sort_perm. }
  split; [|exact Hgroup].
  apply sorted_distinct_strict; [apply sorted_by_date | apply Hgroup].
Qed.

(** X25: the keywords of the memory statistics are at most 24 distinct
    words, most frequent first; the count of a keyword is the number of
    its occurrences among the tokens of the inspected files, and a token
    that is not listed occurs no more often than any listed one. *)
Theorem memory_keywords (workspaceDir : string) (found : list MemoryFile) (memoryLimit : Q) :
  let stats := collectMemoryStats' workspaceDir true found memoryLimit in
  let words := allMemoryTokens' found in
  (List.length (mem_keywords stats) <= 24)%nat
  /\ NoDup (map kw_word (mem_keywords stats))
  /\ StronglySorted moreFrequent (mem_keywords stats)
  /\ Forall (fun row => (0 < kw_count row)%nat
                        /\ kw_count row = occurrences (kw_word row) words)
            (mem_keywords stats)
  /\ forall word,
       In word words ->
       In word (map kw_word (mem_keywords stats))
       \/ Forall (fun row => (occurrences word words <= kw_count row)%nat) (mem_keywords stats).
Proof.
  cbv zeta. unfold collectMemoryStats. cbn [negb mem_keywords].
  destruct (memory_fold workspaceDir found emptyMemory) as (_ & _ & -> & _).
  cbn [emptyMemory ma_keywordMap].
  set (words := allMemoryTokens' found).
  set (ranked := Array_sort keywordDesc _).
  assert (Hgroup :
    GroupedBy (fun w : string => w) kw_word
              (fun row group => kw_count row = List.length group) words ranked).
  { apply (group_rows (fun w : string => w) (fun _ => 0%nat) (fun n _ => (n + 1)%nat)
                      countWord (fun m w => eq_refl) mkKeyword).
    - intros w. split; reflexivity.
    - intros n l w _ _ _. cbn [kw_word kw_count]. intros ->.
      rewrite length_app. split; reflexivity.
    - apply Array_sort_perm. }
  destruct Hgroup as (Hnd & Hall & Hrows).
  assert (Hsorted : StronglySorted moreFrequent ranked).
  { eapply StronglySorted_impl; [|apply Array_sort_sorted].
    - intros a b. unfold before, keywordDesc, moreFrequent, natQ.
      rewrite <- Qle_minus_iff_nat. tauto.
    - intros x y. unfold keywordDesc, natQ.
      destruct (Nat.le_ge_cases (kw_count x) (kw_count y)) as [H|H];
        [right | left]; apply Qle_minus_iff_nat; exact H.
    - intros x y z. unfold keywordDesc. lra. }
  split; [apply firstn_le_length|].
  split.
  { rewrite <- firstn_map. apply NoDup_firstn, Hnd. }
  split; [apply StronglySorted_firstn, Hsorted|].
  split.
  { apply Forall_forall. intros row Hrow. apply In_firstn_in in Hrow.
    rewrite Forall_forall in Hrows. destruct (Hrows row Hrow) as [Hne Hc].
    unfold occurrences. rewrite Hc. split; [|reflexivity].
    destruct (withKey (fun w : string => w) (kw_word row) words); [congruence | simpl; lia]. }
  intros word Hword.
  destruct (Hall word Hword) as (row & Hrow & Hkey).
  rewrite <- (firstn_skipn 24 ranked) in Hrow, Hsorted.
  apply in_app_or in Hrow as [Hrow|Hrow].
  - left. rewrite <- Hkey. apply in_map, Hrow.
  - right. apply StronglySorted_app_inv in Hsorted as [_ Hcross].
    apply Forall_forall. intros top Htop.
    specialize (Hcross top row Htop Hrow). unfold moreFrequent in Hcross.
    assert (Hin : In row ranked).
    { rewrite <- (firstn_skipn 24 ranked). apply in_or_app. right. exact Hrow. }
    rewrite Forall_forall in Hrows. destruct (Hrows row Hin) as [_ Hc].
    unfold occurrences. rewrite <- Hkey, <- Hc. exact Hcross.
Qed.
End MemoryFacts.

(** ** Model switching rows *)

Lemma natQ_le (a b : nat) : natQ a <= natQ b <-> (a <= b)%nat.
Proof. unfold natQ. rewrite <- Zle_Qle. lia. Qed.

Lemma natQ_eq (a b : nat) : natQ a == natQ b <-> a = b.
Proof.
  split; [|intros ->; reflexivity].
  intros H. apply Nat.le_antisymm; apply natQ_le; lra.
Qed.

Lemma switchesDesc_spec (a b : SwitchRow) :
  before switchesDesc a b <->
  (sw_switches b < sw_switches a)%nat
  \/ (sw_switches a = sw_switches b /\ (sw_uniqueModels b <= sw_uniqueModels a)%nat).
Proof.
  unfold before, switchesDesc. cbv zeta.
  pose proof (natQ_le (sw_switches b) (sw_switches a)) as Hs.
  pose proof (natQ_le (sw_switches a) (sw_switches b)) as Hs'.
  pose proof (natQ_le (sw_uniqueModels b) (sw_uniqueModels a)) as Hu.
  destruct (Qeq_bool (natQ (sw_switches b) - natQ (sw_switches a)) 0) eqn:E.
  - apply Qeq_bool_iff in E.
    assert (Heq : sw_switches a = sw_switches b) by (apply natQ_eq; lra).
    split.
    + intros H. right. split; [exact Heq|]. apply Hu. lra.
    + intros [H|[_ H]]; [lia|]. apply Hu in H. lra.
  - apply Qeq_bool_false in E.
    assert (Hne : sw_switches a <> sw_switches b).
    { intros Heq. apply E. rewrite Heq. lra. }
    split.
    + intros H. left. assert (sw_switches b <= sw_switches a)%nat by (apply Hs; lra). lia.
    + intros [H|[H _]]; [|contradiction].
      assert (Hle : (sw_switches b <= sw_switches a)%nat) by lia. apply Hs in Hle. lra.
Qed.

(** X26: the model switching rows are those of the sessions that used
    more than one model or switched at least once, ordered by switches,
    then by distinct models, both descending; a row lists at most 8
    models. *)
Theorem modelSwitching_rows (sessions : list SessionSummary) :
  let rows := modelSwitching sessions in
  Permutation rows (map switchRowOf (List.filter switchesModels sessions))
  /\ StronglySorted switchesThenModels rows
  /\ Forall (fun row => ((1 < sw_uniqueModels row)%nat \/ (0 < sw_switches row)%nat)
                        /\ (List.length (sw_models row) <= 8)%nat) rows.
Proof.
  cbv zeta. unfold modelSwitching.
  split; [apply Array_sort_perm|].
  split.
  - eapply StronglySorted_impl; [|apply Array_sort_sorted].
    + intros a b H. apply switchesDesc_spec in H. unfold switchesThenModels. lia.
    + intros x y.
      destruct (Nat.lt_trichotomy (sw_switches x) (sw_switches y)) as [H|[H|H]];
        [right | | left]; try (apply switchesDesc_spec; lia).
      destruct (Nat.le_ge_cases (sw_uniqueModels x) (sw_uniqueModels y));
        [right | left]; apply switchesDesc_spec; lia.
    + intros x y z Hxy Hyz. apply switchesDesc_spec in Hxy, Hyz. apply switchesDesc_spec. lia.
  - eapply Permutation_Forall; [apply Permutation_sym, Array_sort_perm|].
    apply Forall_forall. intros row Hrow.
    apply in_map_iff in Hrow as (session & <- & Hs). apply filter_In in Hs as [_ Hs].
    unfold switchesModels in Hs. apply orb_true_iff in Hs.
    cbn [switchRowOf sw_uniqueModels sw_switches sw_models]. split.
    + destruct Hs as [Hs|Hs]; apply Nat.ltb_lt in Hs; [left | right]; exact Hs.
    + rewrite length_map. apply firstn_le_length.
Qed.

(** ** Alerts *)

Lemma In_if_single {A : Type} (c : bool) (x y : A) :
  In x (if c then [y] else []) <-> c = true /\ x = y.
Proof.
  destruct c; simpl; split.
  - intros [H|[]]. split; [reflexivity | symmetry; exact H].
  - intros [_ ->]. left. reflexivity.
  - intros [].
  - intros [H _]. discriminate.
Qed.

Lemma In_map_const {A B : Type} (x y : B) (l : list A) :
  In x (map (fun _ => y) l) <-> l <> [] /\ x = y.
Proof.
  induction l as [|a l IH]; simpl; split.
  - intros [].
  - intros [H _]. congruence.
  - intros [H|H]; (split; [discriminate|]); [symmetry; exact H | apply IH, H].
  - intros [_ ->]. left. reflexivity.
Qed.

Lemma errorRate_elevated (messages0 : MessageCounts) :
  Qle_bool 5 (errorRate messages0) = true
  <-> (0 < m_total messages0)%nat /\ (m_total messages0 <= 20 * m_errors messages0)%nat.
Proof.
  unfold errorRate. rewrite Qle_bool_iff.
  destruct (0 <? m_total messages0)%nat eqn:E.
  - apply Nat.ltb_lt in E. pose proof (natQ_pos _ E) as Hpos.
    set (t := natQ (m_total messages0)) in *. set (e := natQ (m_errors messages0)).
    assert (Hdiv : e / t * t == e) by (field; lra).
    assert (Hnat : t <= 20 * e <-> (m_total messages0 <= 20 * m_errors messages0)%nat).
    { unfold t, e. rewrite <- natQ_le.
      replace (20 * m_errors messages0)%nat
        with (m_errors messages0 * 20)%nat by lia.
      unfold natQ. rewrite Nat2Z.inj_mul, inject_Z_mult.
      change (inject_Z (Z.of_nat 20)) with 20. split; intros H; lra. }
    rewrite <- Hnat. set (r := e / t) in *. split.
    + intros H. split; [exact E|]. nra.
    + intros [_ H]. destruct (Qlt_le_dec (r * 100) 5) as [Hlt|Hle]; [|exact Hle].
      exfalso. nra.
  - apply Nat.ltb_ge in E. split; [intros H; lra | intros [H _]; lia].
Qed.

Lemma cacheRate_low (totals : Totals) :
  Qlt_bool (cacheRate totals) 5 && Qlt_bool 5000 (totalTokens totals) = true
  <-> 5000 < totalTokens totals /\ 20 * t_cacheRead totals < totalTokens totals.
Proof.
  unfold cacheRate. rewrite andb_true_iff, !Qlt_bool_iff.
  destruct (Qlt_bool 0 (totalTokens totals)) eqn:E.
  - apply Qlt_bool_iff in E.
    set (t := totalTokens totals) in *. set (c := t_cacheRead totals).
    assert (Hdiv : c / t * t == c) by (field; lra).
    set (r := c / t) in *. split.
    + intros [H1 H2]. split; [exact H2|]. nra.
    + intros [H1 H2]. split; [|exact H1].
      destruct (Qlt_le_dec (r * 100) 5) as [Hlt|Hle]; [exact Hlt|]. exfalso. nra.
  - split.
    + intros [_ H]. assert (Hpos : Qlt_bool 0 (totalTokens totals) = true)
        by (apply Qlt_bool_iff; lra). congruence.
    + intros [H _]. assert (Hpos : Qlt_bool 0 (totalTokens totals) = true)
        by (apply Qlt_bool_iff; lra). congruence.
Qed.

Lemma count_occ_const {A : Type} (l : list A) (title : string) :
  count_occ string_dec (map (fun _ => title) l) title = List.length l.
Proof.
  induction l as [|a l IH]; [reflexivity|].
  cbn [map List.length]. rewrite count_occ_cons_eq by reflexivity. rewrite IH. reflexivity.
Qed.

Lemma ranked_flag (k j : nat) (c : bool) (title : string) (tail : list string) :
  alertRank title = j -> (j <= k)%nat ->
  StronglySorted (fun a b => (alertRank a <= alertRank b)%nat) tail
  /\ Forall (fun b => (k <= alertRank b)%nat) tail ->
  StronglySorted (fun a b => (alertRank a <= alertRank b)%nat)
                 ((if c then [title] else []) ++ tail)
  /\ Forall (fun b => (j <= alertRank b)%nat) ((if c then [title] else []) ++ tail).
Proof.
  intros Hj Hjk [Hs Hall].
  assert (Hall' : Forall (fun b => (j <= alertRank b)%nat) tail).
  { eapply Forall_impl; [|exact Hall]. intros b Hb. cbv beta in *. lia. }
  destruct c; cbn [app]; [|split; assumption].
  split; constructor; try assumption; try lia.
  eapply Forall_impl; [|exact Hall']. intros b Hb. cbv beta in *. lia.
Qed.

Lemma ranked_const {A : Type} (k j : nat) (l : list A) (title : string) (tail : list string) :
  alertRank title = j -> (j <= k)%nat ->
  StronglySorted (fun a b => (alertRank a <= alertRank b)%nat) tail
  /\ Forall (fun b => (k <= alertRank b)%nat) tail ->
  StronglySorted (fun a b => (alertRank a <= alertRank b)%nat)
                 (map (fun _ => title) l ++ tail)
  /\ Forall (fun b => (j <= alertRank b)%nat) (map (fun _ => title) l ++ tail).
Proof.
  intros Hj Hjk [Hs Hall].
  assert (Hall' : Forall (fun b => (j <= alertRank b)%nat) tail).
  { eapply Forall_impl; [|exact Hall]. intros b Hb. cbv beta in *. lia. }
  induction l as [|a l [IH1 IH2]]; cbn [map app]; [split; assumption|].
  split; constructor; try assumption; try lia.
  eapply Forall_impl; [|exact IH2]. intros b Hb. cbv beta in *. lia.
Qed.

Section AlertFacts.
Variable toFixed : nat -> Q -> string.
Variable roundLocale : Q -> string.
Variable clock : nat -> Q.

Local Abbreviation buildAlerts' := (buildAlerts toFixed roundLocale clock).

Lemma alert_titles (totals : Totals) (messages0 : MessageCounts)
      (sessions : list SessionSummary) (memory : MemoryStats) (anomalies0 : Anomalies) :
  map a_title (buildAlerts' totals messages0 sessions memory anomalies0)
  = (if Qle_bool 5 (errorRate messages0) then ["Error Rate Elevated"] else [])
    ++ (if Qlt_bool (cacheRate totals) 5 && Qlt_bool 5000 (totalTokens totals)
        then ["Low Cache Read Share"] else [])
    ++ (if (0 <? List.length (staleFrom clock 0 sessions))%nat
        then ["Stale Sessions Present"] else [])
    ++ (if mem_exists memory && (1000 <? mem_fileCount memory)%nat
        then ["Large Memory Corpus"] else [])
    ++ map (fun _ => "Token Spike Detected") (an_tokenSpikes anomalies0)
    ++ (if isSome (an_latencyJitter anomalies0) then ["Latency Jitter Detected"] else [])
    ++ (if (0 <? List.length (an_modelSwitching anomalies0))%nat
        then ["Model Switching Sessions"] else []).
Proof.
  unfold buildAlerts. cbv zeta. rewrite !map_app, map_map.
  destruct (Qle_bool 5 (errorRate messages0));
    destruct (Qlt_bool (cacheRate totals) 5 && Qlt_bool 5000 (totalTokens totals));
    destruct (0 <? List.length (staleFrom clock 0 sessions))%nat;
    destruct (mem_exists memory && (1000 <? mem_fileCount memory)%nat);
    destruct (an_latencyJitter anomalies0);
    destruct (0 <? List.length (an_modelSwitching anomalies0))%nat;
    reflexivity.
Qed.

Lemma staleFrom_spec (sessions : list SessionSummary) (position : nat) (session : SessionSummary) :
  In session (staleFrom clock position sessions)
  <-> exists i, nth_error sessions i = Some session
                /\ isStale (clock (position + i)) session = true.
Proof.
  revert position. induction sessions as [|s rest IH]; intros position; simpl.
  - split; [intros [] | intros ([|i] & H & _); discriminate].
  - split.
    + destruct (isStale (clock position) s) eqn:E.
      * intros [<-|H].
        -- exists 0%nat. rewrite Nat.add_0_r. split; [reflexivity | exact E].
        -- apply IH in H as (i & Hi & Hs). exists (S i).
           rewrite Nat.add_succ_r. split; assumption.
      * intros H. apply IH in H as (i & Hi & Hs). exists (S i).
        rewrite Nat.add_succ_r. split; assumption.
    + intros ([|i] & Hi & Hs).
      * simpl in Hi. injection Hi as ->. rewrite Nat.add_0_r in Hs. rewrite Hs.
        left. reflexivity.
      * simpl in Hi. rewrite Nat.add_succ_r in Hs.
        assert (H : In session (staleFrom clock (S position) rest))
          by (apply IH; exists i; split; assumption).
        destruct (isStale (clock position) s); [right|]; exact H.
Qed.

(** X27: which alerts are raised.  The error-rate alert is raised exactly
    when there are messages and at least one in twenty is an error; the
    cache alert exactly when more than 5000 tokens were used and less than
    a twentieth of them were cache reads; the stale alert exactly when
    some session was last updated (or, lacking that, last active) more
    than 14 days before the clock was read for it; there is one spike
    alert per token spike; and the alerts come in a fixed order. *)
Theorem alerts_raised (totals : Totals) (messages0 : MessageCounts)
        (sessions : list SessionSummary) (memory : MemoryStats) (anomalies0 : Anomalies) :
  let alerts := buildAlerts' totals messages0 sessions memory anomalies0 in
  let raised title := In title (map a_title alerts) in
  (raised "Error Rate Elevated"
   <-> (0 < m_total messages0)%nat /\ (m_total messages0 <= 20 * m_errors messages0)%nat)
  /\ (raised "Low Cache Read Share"
      <-> 5000 < totalTokens totals /\ 20 * t_cacheRead totals < totalTokens totals)
  /\ (raised "Stale Sessions Present"
      <-> exists i session, nth_error sessions i = Some session
                            /\ isStale (clock i) session = true)
  /\ (raised "Large Memory Corpus"
      <-> mem_exists memory = true /\ (1000 < mem_fileCount memory)%nat)
  /\ count_occ string_dec (map a_title alerts) "Token Spike Detected"
     = List.length (an_tokenSpikes anomalies0)
  /\ (raised "Latency Jitter Detected" <-> an_latencyJitter anomalies0 <> None)
  /\ (raised "Model Switching Sessions" <-> an_modelSwitching anomalies0 <> [])
  /\ StronglySorted (fun a b => (alertRank a <= alertRank b)%nat) (map a_title alerts)
  /\ (List.length alerts <= 6 + List.length (an_tokenSpikes anomalies0))%nat.
Proof.
  cbv zeta. rewrite <- (length_map a_title), alert_titles.
  set (c1 := Qle_bool 5 (errorRate messages0)).
  set (c2 := Qlt_bool (cacheRate totals) 5 && Qlt_bool 5000 (totalTokens totals)).
  set (c3 := (0 <? List.length (staleFrom clock 0 sessions))%nat).
  set (c4 := mem_exists memory && (1000 <? mem_fileCount memory)%nat).
  set (c6 := isSome (an_latencyJitter anomalies0)).
  set (c7 := (0 <? List.length (an_modelSwitching anomalies0))%nat).
  set (spikes := an_tokenSpikes anomalies0).
  assert (Hin : forall title,
    In title ((if c1 then ["Error Rate Elevated"] else [])
              ++ (if c2 then ["Low Cache Read Share"] else [])
              ++ (if c3 then ["Stale Sessions Present"] else [])
              ++ (if c4 then ["Large Memory Corpus"] else [])
              ++ map (fun _ => "Token Spike Detected") spikes
              ++ (if c6 then ["Latency Jitter Detected"] else [])
              ++ (if c7 then ["Model Switching Sessions"] else []))
    <-> (c1 = true /\ title = "Error Rate Elevated")
        \/ (c2 = true /\ title = "Low Cache Read Share")
        \/ (c3 = true /\ title = "Stale Sessions Present")
        \/ (c4 = true /\ title = "Large Memory Corpus")
        \/ (spikes <> [] /\ title = "Token Spike Detected")
        \/ (c6 = true /\ title = "Latency Jitter Detected")
        \/ (c7 = true /\ title = "Model Switching Sessions")).
  { intros title. rewrite !in_app_iff, !In_if_single, In_map_const. reflexivity. }
  assert (H1 : c1 = true
               <-> (0 < m_total messages0)%nat
                   /\ (m_total messages0 <= 20 * m_errors messages0)%nat)
    by apply errorRate_elevated.
  assert (H2 : c2 = true
               <-> 5000 < totalTokens totals /\ 20 * t_cacheRead totals < totalTokens totals)
    by apply cacheRate_low.
  assert (H3 : c3 = true
               <-> exists i session, nth_error sessions i = Some session
                                     /\ isStale (clock i) session = true).
  { unfold c3. rewrite Nat.ltb_lt. split.
    - intros H. destruct (staleFrom clock 0 sessions) as [|s rest] eqn:E; [simpl in H; lia|].
      assert (Hs : In s (staleFrom clock 0 sessions)) by (rewrite E; left; reflexivity).
      apply staleFrom_spec in Hs as (i & Hi & Hst). exists i, s. split; assumption.
    - intros (i & s & Hi & Hst).
      assert (Hs : In s (staleFrom clock 0 sessions))
        by (apply staleFrom_spec; exists i; split; assumption).
      destruct (staleFrom clock 0 sessions); [contradiction | simpl; lia]. }
  assert (H4 : c4 = true <-> mem_exists memory = true /\ (1000 < mem_fileCount memory)%nat).
  { unfold c4. rewrite andb_true_iff, Nat.ltb_lt. reflexivity. }
  assert (H6 : c6 = true <-> an_latencyJitter anomalies0 <> None).
  { unfold c6. destruct (an_latencyJitter anomalies0); simpl; split; congruence. }
  assert (H7 : c7 = true <-> an_modelSwitching anomalies0 <> []).
  { unfold c7. rewrite Nat.ltb_lt. destruct (an_modelSwitching anomalies0); simpl;
      split; try congruence; try lia. }
  split; [rewrite Hin, <- H1; intuition (try discriminate)|].
  split; [rewrite Hin, <- H2; intuition (try discriminate)|].
  split; [rewrite Hin, <- H3; intuition (try discriminate)|].
  split; [rewrite Hin, <- H4; intuition (try discriminate)|].
  split.
  { rewrite !count_occ_app.
    rewrite count_occ_const. clear. destruct c1, c2, c3, c4, c6, c7; simpl; lia. }
  split; [rewrite Hin, <- H6; intuition (try discriminate)|].
  split; [rewrite Hin, <- H7; intuition (try discriminate)|].
  split.
  { refine (proj1 (_ : _ /\ Forall (fun b => (0 <= alertRank b)%nat) _)).
    apply (ranked_flag 1 0); [reflexivity | lia|].
    apply (ranked_flag 2 1); [reflexivity | lia|].
    apply (ranked_flag 3 2); [reflexivity | lia|].
    apply (ranked_flag 4 3); [reflexivity | lia|].
    apply (ranked_const 5 4); [reflexivity | lia|].
    apply (ranked_flag 6 5); [reflexivity | lia|].
    destruct c7; split; repeat constructor. }
  rewrite !length_app, length_map. fold spikes.
  destruct c1, c2, c3, c4, c6, c7; simpl; lia.
Qed.
End AlertFacts.

(** ** The session store index *)

Lemma find_hd_filter {A : Type} (p : A -> bool) (l : list A) :
  find p l = hd_error (List.filter p l).
Proof.
  induction l as [|x l IH]; simpl; [reflexivity|]. destruct (p x); [reflexivity | exact IH].
Qed.

Section StoreIndexFacts.
Variable path_basename : string -> string.

Local Abbreviation indexEntry' := (indexEntry path_basename).
Local Abbreviation buildStoreIndex' := (buildStoreIndex path_basename).
Local Abbreviation namesFile' := (namesFile path_basename).

Lemma buildStoreIndex_snoc (entries : list (string * Json)) (keyEntry : string * Json) :
  buildStoreIndex' (entries ++ [keyEntry]) = indexEntry' (buildStoreIndex' entries) keyEntry.
Proof. unfold buildStoreIndex. rewrite fold_left_app. reflexivity. Qed.

Lemma buildStoreIndex_lookup (entries : list (string * Json)) :
  (forall name,
      assoc name (byFileName (buildStoreIndex' entries))
      = option_map metaOf (find (namesFile' name) (rev entries)))
  /\ (forall sessionId,
         assoc sessionId (bySessionId (buildStoreIndex' entries))
         = match List.filter (namesSession sessionId) entries with
           | [] => None
           | found => Some (map metaOf found)
           end).
Proof.
  induction entries as [|keyEntry entries [IHfile IHid]] using rev_ind.
  - split; reflexivity.
  - rewrite buildStoreIndex_snoc. split.
    + intros name. rewrite rev_app_distr. cbn [rev app find].
      unfold indexEntry, namesFile.
      destruct (asRecord (Some (snd keyEntry))) as [record|] eqn:Er; [|apply IHfile].
      cbn [byFileName].
      destruct (nonBlankString (Some record).["sessionFile"]) as [sessionFile|];
        [|apply IHfile].
      rewrite assoc_mapSet.
      destruct (String.eqb name (path_basename sessionFile)); [|apply IHfile].
      cbn [option_map]. unfold metaOf. rewrite Er. reflexivity.
    + intros sessionId. rewrite filter_app. cbn [List.filter].
      unfold indexEntry, namesSession at 2.
      destruct (asRecord (Some (snd keyEntry))) as [record|] eqn:Er;
        [|rewrite app_nil_r; apply IHid].
      cbn [bySessionId].
      destruct (nonBlankString (Some record).["sessionId"]) as [id|];
        [|rewrite app_nil_r; apply IHid].
      rewrite assoc_mapSet.
      destruct (String.eqb sessionId id) eqn:E; [|rewrite app_nil_r; apply IHid].
      apply String.eqb_eq in E. subst id. rewrite IHid.
      destruct (List.filter (namesSession sessionId) entries) as [|x rest];
        cbn [getOr app map]; rewrite ?map_app; cbn [app map]; unfold metaOf; rewrite Er;
        reflexivity.
Qed.

(** X28: the store entry for a transcript is the entry that names a
    session file with the transcript's base name, the last such entry if
    there are several; failing that, the first entry with the derived
    session id; failing that, the null entry. *)
Theorem resolveSessionMeta_choice (entries : list (string * Json))
        (name derivedSessionId : string) :
  resolveSessionMeta name derivedSessionId (buildStoreIndex' entries)
  = match find (namesFile' name) (rev entries) with
    | Some keyEntry => metaOf keyEntry
    | None =>
      match find (namesSession derivedSessionId) entries with
      | Some keyEntry => metaOf keyEntry
      | None => mkMeta None (Some JNull)
      end
    end.
Proof.
  destruct (buildStoreIndex_lookup entries) as [Hfile Hid].
  unfold resolveSessionMeta. rewrite Hfile, Hid, find_hd_filter with (l := entries).
  destruct (find (namesFile' name) (rev entries)); [reflexivity|]. cbn [option_map].
  destruct (List.filter (namesSession derivedSessionId) entries); reflexivity.
Qed.
End StoreIndexFacts.

(** ** The requested window *)




(** ** The collector cache *)

(** X30: a call of the cache leaves under the key an entry holding the
    payload it returns, which was either collected by this call or is
    younger than the time to live; other keys are untouched; until that
    entry is as old as the time to live, further calls return the same
    payload and collect nothing, and from then on they collect anew. *)
Theorem cacheGet_fresh {P : Type} (ttlMs : Q) (cache : list (string * CacheEntry P))
        (key : string) (now : Q) (collected : P) :
  let result := cacheGet ttlMs cache key now collected in
  (forall other, other <> key -> assoc other (snd result) = assoc other cache)
  /\ exists current,
       assoc key (snd result) = Some current
       /\ payload current = fst result
       /\ ((createdAt current = now /\ fst result = collected)
           \/ (now - createdAt current < ttlMs /\ snd result = cache))
       /\ (forall later collected',
              later - createdAt current < ttlMs ->
              cacheGet ttlMs (snd result) key later collected' = result)
       /\ (forall later collected',
              ttlMs <= later - createdAt current ->
              fst (cacheGet ttlMs (snd result) key later collected') = collected').
Proof.
  cbv zeta.
  assert (Hmiss :
    let result := (collected, mapSet key (mkCacheEntry now collected) cache) in
    (forall other, other <> key -> assoc other (snd result) = assoc other cache)
    /\ exists current,
         assoc key (snd result) = Some current
         /\ payload current = fst result
         /\ ((createdAt current = now /\ fst result = collected)
             \/ (now - createdAt current < ttlMs /\ snd result = cache))
         /\ (forall later collected',
                later - createdAt current < ttlMs ->
                cacheGet ttlMs (snd result) key later collected' = result)
         /\ (forall later collected',
                ttlMs <= later - createdAt current ->
                fst (cacheGet ttlMs (snd result) key later collected') = collected')).
  { cbv zeta. cbn [fst snd]. split.
    - intros other Hother. rewrite assoc_mapSet.
      destruct (String.eqb other key) eqn:E; [apply String.eqb_eq in E; contradiction|].
      reflexivity.
    - exists (mkCacheEntry now collected).
      assert (Hkey : assoc key (mapSet key (mkCacheEntry now collected) cache)
                     = Some (mkCacheEntry now collected))
        by (rewrite assoc_mapSet, String.eqb_refl; reflexivity).
      split; [exact Hkey|]. split; [reflexivity|]. split; [left; split; reflexivity|].
      cbn [createdAt]. split.
      + intros later collected' Hlater. unfold cacheGet. rewrite Hkey. cbn [createdAt payload].
        apply Qlt_bool_iff in Hlater. rewrite Hlater. reflexivity.
      + intros later collected' Hlater. unfold cacheGet. rewrite Hkey. cbn [createdAt].
        destruct (Qlt_bool (later - now) ttlMs) eqn:E; [|reflexivity].
        apply Qlt_bool_iff in E. lra. }
  cbv zeta in Hmiss.
  assert (Hcases :
    cacheGet ttlMs cache key now collected
    = (collected, mapSet key (mkCacheEntry now collected) cache)
    \/ exists current,
         assoc key cache = Some current
         /\ Qlt_bool (now - createdAt current) ttlMs = true
         /\ cacheGet ttlMs cache key now collected = (payload current, cache)).
  { unfold cacheGet. destruct (assoc key cache) as [current|]; [|left; reflexivity].
    destruct (Qlt_bool (now - createdAt current) ttlMs) eqn:Ehit; [|left; reflexivity].
    right. exists current. repeat split. exact Ehit. }
  destruct Hcases as [->|(current & Ecur & Ehit & ->)]; [exact Hmiss|].
  cbn [fst snd]. split; [reflexivity|].
  exists current. split; [exact Ecur|]. split; [reflexivity|].
  split; [right; split; [apply Qlt_bool_iff, Ehit | reflexivity]|].
  split.
  - intros later collected' Hlater. unfold cacheGet. rewrite Ecur.
    apply Qlt_bool_iff in Hlater. rewrite Hlater. reflexivity.
  - intros later collected' Hlater. unfold cacheGet. rewrite Ecur.
    destruct (Qlt_bool (later - createdAt current) ttlMs) eqn:E; [|reflexivity].
    apply Qlt_bool_iff in E. lra.
Qed.

(** ** Sample runs *)

Lemma session_timeline_bounded_witness :
  0 <= timelineLimit sampleParams
  /\ lenQ (s_timeline (sampleSession fiveTurns)) < timelineLimit sampleParams + 1
  /\ (List.length (s_timeline (sampleSession fiveTurns)) <= 240)%nat.
Proof.
  destruct (session_timeline_bounded sampleParse sampleDate sampleYear sampleMonth sampleDay
                                     sampleParams fiveTurns) as (_ & _ & _ & Hb & Hn).
  assert (H0 : 0 <= timelineLimit sampleParams) by (vm_compute; discriminate).
  split; [exact H0|]. split; [exact (Hb H0)|].
  apply (Hn 240%nat). vm_compute. reflexivity.
Defined.

Lemma session_waterfall_spans_witness :
  timelineLimit sampleParams == natQ 240
  /\ (List.length (s_waterfall (sampleSession fiveTurns)) <= 240)%nat.
Proof.
  assert (H0 : timelineLimit sampleParams == natQ 240) by (vm_compute; reflexivity).
  split; [exact H0|].
  exact (proj2 (proj2 (session_waterfall_spans sampleParse sampleDate sampleYear sampleMonth
                                               sampleDay sampleParams fiveTurns))
               240%nat H0).
Defined.

Lemma session_preview_and_latency_witness :
  exists stats,
    s_latency (sampleSession fiveTurns) = Some stats
    /\ (0 < l_count stats)%nat
    /\ (l_count stats <= m_assistant (s_messageCounts (sampleSession fiveTurns)))%nat.
Proof.
  destruct (s_latency (sampleSession fiveTurns)) as [stats|] eqn:E.
  - exists stats. split; [reflexivity|].
    exact (proj2 (session_preview_and_latency sampleParse sampleDate sampleYear sampleMonth
                                              sampleDay sampleParams fiveTurns)
                 stats E).
  - vm_compute in E. discriminate.
Defined.

Lemma memory_keywords_witness :
  In "deploy" (allMemoryTokens sampleBasename [sampleNote])
  /\ (In "deploy" (map kw_word (mem_keywords sampleMemory))
      \/ Forall (fun row => (occurrences "deploy" (allMemoryTokens sampleBasename [sampleNote])
                             <= kw_count row)%nat)
                (mem_keywords sampleMemory)).
Proof.
  assert (H : In "deploy" (allMemoryTokens sampleBasename [sampleNote]))
    by (vm_compute; left; reflexivity).
  split; [exact H|].
  exact (proj2 (proj2 (proj2 (proj2
           (memory_keywords sampleYear sampleMonth sampleDay sampleBasename sampleRelative
                            "workspace" [sampleNote] 100))))
               "deploy" H).
Defined.

Lemma alerts_raised_witness :
  (0 < m_total twentyMessages)%nat
  /\ (m_total twentyMessages <= 20 * m_errors twentyMessages)%nat
  /\ In "Error Rate Elevated"
        (map a_title (buildAlerts sampleFixed sampleRound sampleClock createTotals
                                  twentyMessages [] sampleMemory noAnomalies)).
Proof.
  assert (H : (0 < m_total twentyMessages)%nat
              /\ (m_total twentyMessages <= 20 * m_errors twentyMessages)%nat)
    by (simpl; lia).
  split; [apply H|]. split; [apply H|].
  exact (proj2 (proj1 (alerts_raised sampleFixed sampleRound sampleClock createTotals
                                     twentyMessages [] sampleMemory noAnomalies))
               H).
Defined.


Lemma cacheGet_fresh_witness :
  100 - 0 < 15000
  /\ cacheGet 15000 (snd (cacheGet 15000 [] "days=30" 0 1%nat)) "days=30" 100 2%nat
     = cacheGet 15000 [] "days=30" 0 1%nat.
Proof.
  assert (H : 100 - 0 < 15000) by reflexivity.
  split; [exact H|].
  destruct (cacheGet_fresh 15000 [] "days=30" 0 1%nat) as (_ & current & Hcur & _ & _ & Hhit & _).
  apply Hhit.
  assert (E : createdAt current = 0) by (vm_compute in Hcur; injection Hcur as <-; reflexivity).
  rewrite E. exact H.
Defined.
